(** * STREAM memory-bandwidth benchmark (stream.c): model and properties

    A shallow embedding of [src/stream.c]: the page rounding of the
    buffer size, the provisioning of the three buffers (heap or mapped
    device), the clock and its granularity estimate ([checktick]), the
    four kernels, the timing summary, the validation
    ([checkSTREAMresults]) and the teardown, followed by the properties
    established about them.

    Conventions.
    - [ssize_t], [off_t], [long long] and [uintptr_t] are 64 bits wide,
      [int] is 32 bits wide (LP64; the clock is the RISC-V [rdcycle]
      counter).  Integers are [Z] with the wrap-around written out.
    - [double] is the primitive binary64 type [float].  [STREAM_TYPE] is
      a compile-time choice; it is an instance of the class [StreamType].
    - The build is the default one: [TUNED], [VERBOSE], [PRINT], [N] and
      [_OPENMP] are not defined, so the loops run sequentially in index
      order and [PRINT_LOG]/[PRINT_PROGRESS] expand to nothing. *)

From Stdlib Require Import ZArith Lia Floats Bool List String.
From stdpp Require Import base option list.
Import ListNotations.

Set Warnings "-inexact-float".

Local Open Scope Z_scope.

(** ** Machine integers *)

(** Two's complement reduction of [x] to a signed [w]-bit integer. *)
Definition wrap_signed (w : Z) (x : Z) : Z :=
  (x + 2 ^ (w - 1)) mod 2 ^ w - 2 ^ (w - 1).

(** Reduction of [x] to an unsigned [w]-bit integer. *)
Definition wrap_unsigned (w : Z) (x : Z) : Z := x mod 2 ^ w.

Definition ssize (x : Z) : Z := wrap_signed 64 x.
Definition usize (x : Z) : Z := wrap_unsigned 64 x.
Definition int32 (x : Z) : Z := wrap_signed 32 x.

Definition SSIZE_MAX : Z := 2 ^ 63 - 1.
Definition SSIZE_MIN : Z := - 2 ^ 63.
Definition INT_MAX : Z := 2 ^ 31 - 1.
Definition INT_MIN : Z := - 2 ^ 31.

Definition in_ssize (x : Z) : Prop := SSIZE_MIN <= x <= SSIZE_MAX.

(** [~0xFFF]: an [int] equal to -4096, sign-extended when it meets an
    [ssize_t] operand. *)
Definition PAGE_MASK : Z := Z.lnot 4095.

(** [buffer_size = (buffer_size+4095)&(~0xFFF);] *)
Definition round_up_page (buffer_size : Z) : Z :=
  Z.land (ssize (buffer_size + 4095)) PAGE_MASK.

(** [offset = offset & (~0xFFF);] *)
Definition truncate_page (offset : Z) : Z := Z.land offset PAGE_MASK.

(** ** Doubles *)

(** [(double) x] for an integer [x]: round to nearest, ties to even. *)
Definition double_of_Z (x : Z) : float :=
  SF2Prim (binary_normalize prec emax x 0 false).

(** [(int) x] for a double [x]: truncation towards zero.  Outside the
    range of [int] the C conversion is undefined; the model takes the
    result of the RISC-V [fcvt.w.d] instruction, which saturates. *)
Definition int_of_double (x : float) : Z :=
  match Prim2SF x with
  | S754_zero _ => 0
  | S754_nan => INT_MAX
  | S754_infinity s => if s then INT_MIN else INT_MAX
  | S754_finite s m e =>
      let mag := if 0 <=? e then Z.pos m * 2 ^ e else Z.pos m / 2 ^ (- e) in
      let v := if s then - mag else mag in
      Z.max INT_MIN (Z.min INT_MAX v)
  end.

(** [FLT_MAX] of <float.h>, as the double it is promoted to. *)
Definition FLT_MAX : float := 0x1.fffffep127%float.

(** [MIN(x,y)] and [MAX(x,y)] on doubles:
    [((x)<(y)?(x):(y))] and [((x)>(y)?(x):(y))]. *)
Definition MINd (x y : float) : float := if (x <? y)%float then x else y.
Definition MAXd (x y : float) : float := if (y <? x)%float then x else y.

(** The same macros on [int] operands. *)
Definition MINi (x y : Z) : Z := if x <? y then x else y.
Definition MAXi (x y : Z) : Z := if y <? x then x else y.

(** [abs(a)] is the macro [((a) >= 0 ? (a) : -(a))]; on a double: *)
Definition absd (x : float) : float :=
  if (0 <=? x)%float then x else (- x)%float.

(** ** The element type *)

(** [STREAM_TYPE] with the operations the program applies to it.  The
    integer constant 0 of [abs] is converted to the element type before
    the comparison, hence [elt_ge0]. *)
Class StreamType := {
  elt : Type;
  sizeof_elt : Z;
  elt_of_double : float -> elt;
  double_of_elt : elt -> float;
  elt_of_ssize : Z -> elt;
  elt_add : elt -> elt -> elt;
  elt_sub : elt -> elt -> elt;
  elt_mul : elt -> elt -> elt;
  elt_div : elt -> elt -> elt;
  elt_neg : elt -> elt;
  elt_ge0 : elt -> bool
}.

(** [#define STREAM_TYPE double], the default. *)
Definition stream_double : StreamType := {|
  elt := float;
  sizeof_elt := 8;
  elt_of_double := fun x => x;
  double_of_elt := fun x => x;
  elt_of_ssize := double_of_Z;
  elt_add := PrimFloat.add;
  elt_sub := PrimFloat.sub;
  elt_mul := PrimFloat.mul;
  elt_div := PrimFloat.div;
  elt_neg := PrimFloat.opp;
  elt_ge0 := fun x => (0 <=? x)%float
|}.

(** [-DSTREAM_TYPE=float]: binary32, computed with the parameterised
    IEEE operations at precision 24 and maximal exponent 128.  A double
    is rounded to nearest-even when it is stored into a [float]. *)
Definition float32 : Type := spec_float.

Definition float32_of_double (x : float) : float32 :=
  match Prim2SF x with
  | S754_finite s m e => binary_round 24 128 s m e
  | sf => sf
  end.

Definition stream_float : StreamType := {|
  elt := float32;
  sizeof_elt := 4;
  elt_of_double := float32_of_double;
  double_of_elt := SF2Prim;
  elt_of_ssize := fun n => binary_normalize 24 128 n 0 false;
  elt_add := SFadd 24 128;
  elt_sub := SFsub 24 128;
  elt_mul := SFmul 24 128;
  elt_div := SFdiv 24 128;
  elt_neg := SFopp;
  elt_ge0 := fun x => SFleb (S754_zero false) x
|}.

(** ** Compile-time configuration *)

(** The values given to the preprocessor: [STREAM_ARRAY_SIZE], [NTIMES]
    as written on the compile line, and [OFFSET], each a decimal
    constant. *)
Record config := Config {
  cfg_STREAM_ARRAY_SIZE : Z;
  cfg_NTIMES : Z;
  cfg_OFFSET : Z
}.

(** A constant written in decimal, with or without a minus sign, has
    the type [int] when its magnitude is at most [INT_MAX], and a 64-bit
    type otherwise. *)
Definition int_constant (v : Z) : bool := Z.abs v <=? INT_MAX.

(** The defaults of this source: 10 elements, 10 repetitions, offset 0. *)
Definition default_config : config :=
  {| cfg_STREAM_ARRAY_SIZE := 10; cfg_NTIMES := 10; cfg_OFFSET := 0 |}.

(** [#if NTIMES<=1 / #define NTIMES 10]: the effective repetition count. *)
Definition NTIMES (cfg : config) : Z :=
  if cfg_NTIMES cfg <=? 1 then 10 else cfg_NTIMES cfg.

(** ** Loops *)

(** [for (j = j0; j < j0 + count; j++) body], where the body can fail
    (an access outside the memory the program owns). *)
Fixpoint for_loop {St : Type} (count j : nat)
    (body : nat -> St -> option St) (s : St) : option St :=
  match count with
  | O => Some s
  | S count' =>
      match body j s with
      | Some s' => for_loop count' (S j) body s'
      | None => None
      end
  end.

(** [for (j=0; j<n; j++) body] with an [ssize_t] bound: no iteration
    when [n <= 0]. *)
Definition for_ssize {St : Type} (n : Z)
    (body : nat -> St -> option St) (s : St) : option St :=
  for_loop (Z.to_nat n) 0 body s.

(** A loop whose body cannot fail. *)
Fixpoint iter_loop {St : Type} (count j : nat)
    (body : nat -> St -> St) (s : St) : St :=
  match count with
  | O => s
  | S count' => iter_loop count' (S j) body (body j s)
  end.

(** * The arrays and the kernels *)

Section Kernels.
Context {ST : StreamType}.

(** What a pointer [a], [b] or [c] addresses: [Some l] when it points to
    a region holding the elements [l], [None] when it does not point to
    memory of the process ([NULL], or [MAP_FAILED]). *)
Definition buffer : Type := option (list elt).

Record memory := Memory { mem_a : buffer; mem_b : buffer; mem_c : buffer }.

(** [p[j]] as an rvalue, and [p[j] = v]. *)
Definition load (p : buffer) (j : nat) : option elt :=
  l ← p; l !! j.

Definition store (p : buffer) (j : nat) (v : elt) : option buffer :=
  l ← p; if decide (j < length l)%nat then Some (Some (<[j := v]> l)) else None.

(** [a[j] = 1.0; b[j] = 2.0; c[j] = 0.0;] *)
Definition init_body (j : nat) (m : memory) : option memory :=
  a' ← store (mem_a m) j (elt_of_double 1.0);
  b' ← store (mem_b m) j (elt_of_double 2.0);
  c' ← store (mem_c m) j (elt_of_double 0.0);
  Some (Memory a' b' c').

Definition init_arrays (n : Z) : memory -> option memory :=
  for_ssize n init_body.

(** [a[j] = 2.0E0 * a[j];]: the product is a double. *)
Definition warmup_body (j : nat) (m : memory) : option memory :=
  x ← load (mem_a m) j;
  a' ← store (mem_a m) j (elt_of_double (2.0E0 * double_of_elt x));
  Some (Memory a' (mem_b m) (mem_c m)).

Definition warmup (n : Z) : memory -> option memory :=
  for_ssize n warmup_body.

(** [c[j] = a[j];] *)
Definition Copy_body (j : nat) (m : memory) : option memory :=
  x ← load (mem_a m) j;
  c' ← store (mem_c m) j x;
  Some (Memory (mem_a m) (mem_b m) c').

(** [b[j] = scalar*c[j];] *)
Definition Scale_body (scalar : elt) (j : nat) (m : memory) : option memory :=
  z ← load (mem_c m) j;
  b' ← store (mem_b m) j (elt_mul scalar z);
  Some (Memory (mem_a m) b' (mem_c m)).

(** [c[j] = a[j]+b[j];] *)
Definition Add_body (j : nat) (m : memory) : option memory :=
  x ← load (mem_a m) j;
  y ← load (mem_b m) j;
  c' ← store (mem_c m) j (elt_add x y);
  Some (Memory (mem_a m) (mem_b m) c').

(** [a[j] = b[j]+scalar*c[j];] *)
Definition Triad_body (scalar : elt) (j : nat) (m : memory) : option memory :=
  y ← load (mem_b m) j;
  z ← load (mem_c m) j;
  a' ← store (mem_a m) j (elt_add y (elt_mul scalar z));
  Some (Memory a' (mem_b m) (mem_c m)).

Definition STREAM_Copy (n : Z) : memory -> option memory :=
  for_ssize n Copy_body.
Definition STREAM_Scale (scalar : elt) (n : Z) : memory -> option memory :=
  for_ssize n (Scale_body scalar).
Definition STREAM_Add (n : Z) : memory -> option memory :=
  for_ssize n Add_body.
Definition STREAM_Triad (scalar : elt) (n : Z) : memory -> option memory :=
  for_ssize n (Triad_body scalar).

(** The four kernels of the main loop, in the order of the source (the
    clock readings between them do not touch the arrays). *)
Inductive kernel := Copy | Scale | Add | Triad.

Definition run_kernel (scalar : elt) (n : Z) (k : kernel)
    : memory -> option memory :=
  match k with
  | Copy => STREAM_Copy n
  | Scale => STREAM_Scale scalar n
  | Add => STREAM_Add n
  | Triad => STREAM_Triad scalar n
  end.

(** One iteration of [for (k=0; k<NTIMES; k++)], timing left out. *)
Definition round (scalar : elt) (n : Z) (m : memory) : option memory :=
  m1 ← STREAM_Copy n m;
  m2 ← STREAM_Scale scalar n m1;
  m3 ← STREAM_Add n m2;
  STREAM_Triad scalar n m3.

Definition rounds (R : Z) (scalar : elt) (n : Z) : memory -> option memory :=
  for_ssize R (fun _ => round scalar n).

(** What the program does to the arrays before the validation:
    initialisation, warm-up, [scalar = 3.0] and [R] rounds. *)
Definition executor (R : Z) (n : Z) (m : memory) : option memory :=
  m1 ← init_arrays n m;
  m2 ← warmup n m1;
  rounds R (elt_of_double 3.0) n m2.

(** ** checkSTREAMresults: the scalar replay *)

(** [abs] on an element. *)
Definition abs_elt (x : elt) : elt := if elt_ge0 x then x else elt_neg x.

(** The body of the replay loop:
    [cj = aj; bj = scalar*cj; cj = aj+bj; aj = bj+scalar*cj;] *)
Definition replay_body (scalar : elt) (_ : nat) (s : elt * elt * elt)
    : elt * elt * elt :=
  let '(aj, bj, cj) := s in
  let cj := aj in
  let bj := elt_mul scalar cj in
  let cj := elt_add aj bj in
  let aj := elt_add bj (elt_mul scalar cj) in
  (aj, bj, cj).

(** [aj], [bj], [cj] after the replay of [R] iterations. *)
Definition expected_values (R : Z) : elt * elt * elt :=
  let aj := elt_of_double 1.0 in
  let bj := elt_of_double 2.0 in
  let cj := elt_of_double 0.0 in
  let aj := elt_of_double (2.0E0 * double_of_elt aj) in
  let scalar := elt_of_double 3.0 in
  iter_loop (Z.to_nat R) 0 (replay_body scalar) (aj, bj, cj).

End Kernels.

(** * Output and system calls *)

(** What the program prints, one constructor for each [printf] (or for a
    block of consecutive unconditional ones), with the values that are
    formatted. *)
Inductive message :=
  (** the four ["Usage: ..."] lines, with [argv[0]] and the default size *)
  | MsgUsage (argv0 : string) (default_size : Z)
  (** ["%s is not opened\n"], called with [argv[1]] *)
  | MsgNotOpened (arg : string)
  (** [HLINE] *)
  | MsgHline
  (** ["STREAM version $Revision: 5.10 $\n"] *)
  | MsgVersion
  (** ["This system uses %d bytes per array element.\n"] *)
  | MsgBytesPerWord (n : Z)
  (** ["Array size = %llu (elements), Offset = %d (elements)\n"] *)
  | MsgArraySize (elements : Z) (offset : Z)
  (** ["Memory per array = %.1f MiB (= %.1f GiB).\n"] *)
  | MsgMemoryPerArray (mib gib : float)
  (** ["Total memory required = %.1f MiB (= %.1f GiB).\n"] *)
  | MsgTotalMemory (mib gib : float)
  (** ["Each kernel will be executed %d times.\n"] and the two lines on
      the best time *)
  | MsgRepetitions (ntimes : Z)
  (** ["Your clock granularity/precision appears to be %d microseconds.\n"] *)
  | MsgGranularity (quantum : Z)
  (** ["Your clock granularity appears to be less than one microsecond.\n"] *)
  | MsgGranularityFine
  (** ["Each test below will take on the order of %d microseconds.\n"],
      ["   (= %d clock ticks)\n"] and the two lines of advice *)
  | MsgTestDuration (microseconds : Z) (ticks : Z)
  (** ["WARNING -- The above is only a rough guideline.\n"] and the two
      following lines *)
  | MsgGuideline
  (** ["Function    Best Rate MB/s  Avg time     Min time     Max time\n"] *)
  | MsgTableHeader
  (** ["%s%12.1f  %11.6f  %11.6f  %11.6f\n"] *)
  | MsgTableRow (label : string) (rate avg min max : float)
  (** ["WEIRD: sizeof(STREAM_TYPE) = %lu\n"] *)
  | MsgWeird (size : Z)
  (** ["Failed Validation on array a[], AvgRelAbsErr > epsilon (%e)\n"] *)
  | MsgFailed (array : string) (epsilon : float)
  (** ["     Expected Value: %e, AvgAbsErr: %e, AvgRelAbsErr: %e\n"] *)
  | MsgExpected (expected avgAbsErr avgRelAbsErr : float)
  (** ["     AvgRelAbsErr > Epsilon (%e)\n"], for [b] and [c] only *)
  | MsgAvgRelAbsErr (epsilon : float)
  (** ["     For array a[], %d errors were found.\n"] *)
  | MsgErrorsFound (array : string) (ierr : Z)
  (** ["Solution Validates: avg error less than %e on all three arrays\n"] *)
  | MsgValidates (epsilon : float).

(** The observable actions of a run, in the order they happen. *)
Inductive event :=
  | EvPrint (msg : message)
  (** [open(path, O_RDWR)] and its result *)
  | EvOpen (path : string) (ret : Z)
  (** [mmap(NULL, len, PROT_READ | PROT_WRITE, MAP_SHARED, fd, off)] and
      the address returned *)
  | EvMmap (len : Z) (fd : Z) (off : Z) (ret : Z)
  (** [aligned_alloc(alignment, size)] and the address returned *)
  | EvAlignedAlloc (alignment size : Z) (ret : Z)
  (** [munmap(addr, len)] *)
  | EvMunmap (addr : Z) (len : Z)
  (** [close(fd)] *)
  | EvClose (fd : Z)
  (** [free(addr)]: the program contains no such call; the constructor
      is there for the properties that speak of releasing heap memory *)
  | EvFree (addr : Z).

(** * Validation *)

Section Validation.
Context {ST : StreamType}.

(** The tolerance, chosen from [sizeof(STREAM_TYPE)]. *)
Definition epsilon_of (size : Z) : float :=
  if size =? 4 then 1e-6%float
  else if size =? 8 then 1e-13%float
  else 1e-6%float.

Definition epsilon_messages (size : Z) : list message :=
  if size =? 4 then []
  else if size =? 8 then []
  else [MsgWeird size].

(** [aSumErr += abs(a[j] - aj); bSumErr += ...; cSumErr += ...;] *)
Definition sum_body (m : memory) (aj bj cj : elt) (j : nat)
    (s : elt * elt * elt) : option (elt * elt * elt) :=
  let '(aSumErr, bSumErr, cSumErr) := s in
  x ← load (mem_a m) j;
  y ← load (mem_b m) j;
  z ← load (mem_c m) j;
  Some (elt_add aSumErr (abs_elt (elt_sub x aj)),
        elt_add bSumErr (abs_elt (elt_sub y bj)),
        elt_add cSumErr (abs_elt (elt_sub z cj))).

(** [if (abs(a[j]/aj-1.0) > epsilon) ierr++;]: the quotient is an
    element, the difference with the double [1.0] is a double. *)
Definition deviates (xj : elt) (epsilon : float) (x : elt) : bool :=
  (epsilon <? absd (double_of_elt (elt_div x xj) - 1.0))%float.

Definition count_body (p : buffer) (xj : elt) (epsilon : float) (j : nat)
    (ierr : Z) : option Z :=
  x ← load p j;
  Some (if deviates xj epsilon x then int32 (ierr + 1) else ierr).

(** [abs(aAvgErr/aj) > epsilon] *)
Definition exceeds (xAvgErr xj : elt) (epsilon : float) : bool :=
  (epsilon <? double_of_elt (abs_elt (elt_div xAvgErr xj)))%float.

(** One of the three blocks [if (abs(xAvgErr/xj) > epsilon) { ... }];
    the blocks for [b] and [c] print one more line than the block for
    [a].  The result is the output of the block and the new [err]. *)
Definition check_array (name : string) (extra_line : bool) (p : buffer)
    (xj xAvgErr : elt) (epsilon : float) (n : Z) (err : Z)
    : option (list message * Z) :=
  if exceeds xAvgErr xj epsilon then
    ierr ← for_ssize n (count_body p xj epsilon) 0;
    Some ([MsgFailed name epsilon;
           MsgExpected (double_of_elt xj) (double_of_elt xAvgErr)
             (double_of_elt (elt_div (abs_elt xAvgErr) xj))]
          ++ (if extra_line then [MsgAvgRelAbsErr epsilon] else [])
          ++ [MsgErrorsFound name ierr],
          int32 (err + 1))
  else Some ([], err).

(** [checkSTREAMresults(stream_array_size)], with [NTIMES = R]: the
    output, or [None] when it reads outside the arrays. *)
Definition checkSTREAMresults (R : Z) (stream_array_size : Z) (m : memory)
    : option (list message) :=
  let '(aj, bj, cj) := expected_values R in
  let zero := elt_of_double 0.0 in
  '(aSumErr, bSumErr, cSumErr) ←
    for_ssize stream_array_size (sum_body m aj bj cj) (zero, zero, zero);
  let aAvgErr := elt_div aSumErr (elt_of_ssize stream_array_size) in
  let bAvgErr := elt_div bSumErr (elt_of_ssize stream_array_size) in
  let cAvgErr := elt_div cSumErr (elt_of_ssize stream_array_size) in
  let epsilon := epsilon_of sizeof_elt in
  let out0 := epsilon_messages sizeof_elt in
  let err := 0 in
  '(outa, err) ←
    check_array "a" false (mem_a m) aj aAvgErr epsilon stream_array_size err;
  '(outb, err) ←
    check_array "b" true (mem_b m) bj bAvgErr epsilon stream_array_size err;
  '(outc, err) ←
    check_array "c" true (mem_c m) cj cAvgErr epsilon stream_array_size err;
  Some (out0 ++ outa ++ outb ++ outc
        ++ (if err =? 0 then [MsgValidates epsilon] else [])).

End Validation.

(** * The clock and its granularity *)

(** [#define CLOCK_PER_SEC 100000000] (100 MHz). *)
Definition CLOCK_PER_SEC : Z := 100000000.

(** [mysecond()] for a value [clockcounter] of the cycle counter:
    [t = (double)clockcounter / CLOCK_PER_SEC]. *)
Definition mysecond_of (clockcounter : Z) : float :=
  (double_of_Z (usize clockcounter) / double_of_Z CLOCK_PER_SEC)%float.

(** [# define M 20] *)
Definition M_samples : nat := 20.

(** The busy-wait [while( ((t2=mysecond()) - t1) < 1.0E-6 ) ;] of
    [checktick].  [now k] is the value of the [k]-th call of [mysecond]
    since the program started and [k] counts the calls made so far;
    [fuel] bounds the number of turns.  The result is the last [t2] and
    the new count of calls. *)
Fixpoint spin (fuel : nat) (now : nat -> float) (t1 : float) (k : nat)
    : option (float * nat) :=
  match fuel with
  | O => None
  | S fuel' =>
      let t2 := now k in
      if (t2 - t1 <? 1.0E-6)%float then spin fuel' now t1 (S k)
      else Some (t2, S k)
  end.

(** The first loop of [checktick]:
    [t1 = mysecond(); while (...) ; timesfound[i] = t1 = t2;]
    for [count] values of [i]; the result lists [timesfound] from the
    index the loop starts at. *)
Fixpoint collect_times (count : nat) (fuel : nat) (now : nat -> float)
    (k : nat) : option (list float * nat) :=
  match count with
  | O => Some ([], k)
  | S count' =>
      let t1 := now k in
      '(t2, k1) ← spin fuel now t1 (S k);
      '(rest, k2) ← collect_times count' fuel now k1;
      Some (t2 :: rest, k2)
  end.

(** [Delta = (int)( 1.0E6 * (timesfound[i]-timesfound[i-1]));
     minDelta = MIN(minDelta, MAX(Delta,0));] *)
Definition delta_body (timesfound : list float) (i : nat) (minDelta : Z) : Z :=
  let Delta :=
    int_of_double
      (1.0E6 * (nth i timesfound 0 - nth (i - 1) timesfound 0))%float in
  MINi minDelta (MAXi Delta 0).

(** The second loop of [checktick], from [minDelta = 1000000]. *)
Definition min_delta (timesfound : list float) : Z :=
  iter_loop (M_samples - 1) 1 (delta_body timesfound) 1000000.

(** [checktick()]: the value returned and the new count of clock
    readings, or [None] when a busy-wait did not end within [fuel]. *)
Definition checktick (fuel : nat) (now : nat -> float) (k : nat)
    : option (Z * nat) :=
  '(timesfound, k') ← collect_times M_samples fuel now k;
  Some (min_delta timesfound, k').

(** [if ((quantum = checktick()) >= 1) ... else { ...; quantum = 1; }]:
    the message printed and the value [quantum] keeps. *)
Definition report_quantum (ticks : Z) : message * Z :=
  if 1 <=? ticks then (MsgGranularity ticks, ticks)
  else (MsgGranularityFine, 1).

(** * The timing summary *)

(** [times[j][k]] in the table of the four rows of timings. *)
Definition get_time (times : list (list float)) (j k : nat) : float :=
  nth k (nth j times []) 0%float.

Definition set_time (times : list (list float)) (j k : nat) (v : float)
    : list (list float) :=
  alter (fun row => <[k := v]> row) j times.

(** The static arrays [avgtime], [mintime] and [maxtime]. *)
Record statistics := Statistics {
  avgtime : list float;
  mintime : list float;
  maxtime : list float
}.

Definition initial_statistics : statistics :=
  {| avgtime := [0; 0; 0; 0]%float;
     mintime := [FLT_MAX; FLT_MAX; FLT_MAX; FLT_MAX];
     maxtime := [0; 0; 0; 0]%float |}.

(** [avgtime[j] = avgtime[j] + times[j][k];
     mintime[j] = MIN(mintime[j], times[j][k]);
     maxtime[j] = MAX(maxtime[j], times[j][k]);] *)
Definition summary_body (times : list (list float)) (k j : nat)
    (st : statistics) : statistics :=
  {| avgtime := <[j := (nth j (avgtime st) 0 + get_time times j k)%float]>
                  (avgtime st);
     mintime := <[j := MINd (nth j (mintime st) 0%float) (get_time times j k)]>
                  (mintime st);
     maxtime := <[j := MAXd (nth j (maxtime st) 0%float) (get_time times j k)]>
                  (maxtime st) |}.

(** [for (k=1; k<NTIMES; k++) for (j=0; j<4; j++) ...] *)
Definition summary (R : Z) (times : list (list float)) : statistics :=
  iter_loop (Z.to_nat R - 1) 1
    (fun k st => iter_loop 4 0 (summary_body times k) st)
    initial_statistics.

(** [label] *)
Definition label : list string :=
  ["Copy:      "; "Scale:     "; "Add:       "; "Triad:     "]%string.

(** [bytes[0] = 2 * buffer_size; ... bytes[3] = 3 * buffer_size;]: the
    products are [ssize_t] values, stored as doubles. *)
Definition bytes_of (buffer_size : Z) : list float :=
  [double_of_Z (ssize (2 * buffer_size)); double_of_Z (ssize (2 * buffer_size));
   double_of_Z (ssize (3 * buffer_size)); double_of_Z (ssize (3 * buffer_size))].

(** The rate printed for a kernel: [1.0E-06 * bytes[j]/mintime[j]]. *)
Definition rate (bytes_j mintime_j : float) : float :=
  (1.0E-06 * bytes_j / mintime_j)%float.

(** The loop that prints the table:
    [avgtime[j] = avgtime[j]/(double)(NTIMES-1); printf(...)]. *)
Definition table_row (R : Z) (bytes : list float) (st : statistics) (j : nat)
    : message :=
  let avg := (nth j (avgtime st) 0 / double_of_Z (R - 1))%float in
  MsgTableRow (nth j label ""%string)
    (rate (nth j bytes 0%float) (nth j (mintime st) 0%float))
    avg (nth j (mintime st) 0%float) (nth j (maxtime st) 0%float).

Definition table (R : Z) (bytes : list float) (st : statistics)
    : list message :=
  map (table_row R bytes st) (seq 0 4).

(** * The program *)

(** What the system answers to a request for memory: nothing, or a
    region at a non-null address with some initial content. *)
Inductive region (A : Type) :=
  | NoRegion
  | Region (addr : positive) (content : nat -> A).
Arguments NoRegion {A}.
Arguments Region {A} addr content.

(** [NULL] and [MAP_FAILED] ([(void * ) -1]) as pointer values. *)
Definition NULL : Z := 0.
Definition MAP_FAILED : Z := -1.

Section Program.
Context {ST : StreamType}.

(** The environment of a run: the command line, the conversions of the
    C library, the answers of the system calls, the readings of the
    cycle counter (the [k]-th execution of [rdcycle]) and the
    indeterminate initial value of the local variable [fid]. *)
Record environment := Environment {
  env_argv : list string;
  env_atoll : string -> Z;
  env_strtoll : string -> Z;
  env_open : string -> Z;
  env_mmap : nat -> region elt;
  env_aligned_alloc : nat -> region elt;
  env_rdcycle : nat -> Z;
  env_fid : Z
}.

(** The globals [a], [b], [c] (pointer values), the memory they
    address, the number of clock readings made and the events so far,
    most recent first. *)
Record state := State {
  st_a : Z;
  st_b : Z;
  st_c : Z;
  st_mem : memory;
  st_reads : nat;
  st_trace : list event
}.

(** [static STREAM_TYPE *a = NULL, *b = NULL, *c = NULL;] *)
Definition initial_state : state :=
  {| st_a := NULL; st_b := NULL; st_c := NULL;
     st_mem := Memory None None None;
     st_reads := 0; st_trace := [] |}.

(** How a piece of [main] ends: it goes on with a value, it executes
    [return status], it accesses memory through a pointer that addresses
    none, or a busy-wait exhausts the fuel. *)
Inductive result (A : Type) :=
  | Done (x : A) (s : state)
  | Return (status : Z) (s : state)
  | Fault (s : state)
  | Timeout (s : state).
Arguments Done {A} x s.
Arguments Return {A} status s.
Arguments Fault {A} s.
Arguments Timeout {A} s.

Definition prog (A : Type) : Type := state -> result A.

Definition ret {A} (x : A) : prog A := fun s => Done x s.

Definition bind {A B} (p : prog A) (f : A -> prog B) : prog B :=
  fun s =>
    match p s with
    | Done x s' => f x s'
    | Return status s' => Return status s'
    | Fault s' => Fault s'
    | Timeout s' => Timeout s'
    end.

Definition return_from_main {A} (status : Z) : prog A :=
  fun s => Return status s.

Definition result_state {A} (r : result A) : state :=
  match r with
  | Done _ s | Return _ s | Fault s | Timeout s => s
  end.

Definition emit (e : event) : prog unit :=
  fun s => Done tt
    {| st_a := st_a s; st_b := st_b s; st_c := st_c s; st_mem := st_mem s;
       st_reads := st_reads s; st_trace := e :: st_trace s |}.

Definition print (msg : message) : prog unit := emit (EvPrint msg).

Fixpoint print_all (msgs : list message) : prog unit :=
  match msgs with
  | [] => ret tt
  | msg :: msgs' => bind (print msg) (fun _ => print_all msgs')
  end.

(** A loop over the arrays, or a loop that reads them. *)
Definition on_memory (f : memory -> option memory) : prog unit :=
  fun s =>
    match f (st_mem s) with
    | Some m' =>
        Done tt {| st_a := st_a s; st_b := st_b s; st_c := st_c s;
                   st_mem := m'; st_reads := st_reads s;
                   st_trace := st_trace s |}
    | None => Fault s
    end.

Definition read_memory {A} (f : memory -> option A) : prog A :=
  fun s =>
    match f (st_mem s) with
    | Some x => Done x s
    | None => Fault s
    end.

Section WithEnvironment.
Variable cfg : config.
Variable env : environment.
Variable fuel : nat.

(** The value of the [k]-th call of [mysecond]. *)
Definition now (k : nat) : float := mysecond_of (env_rdcycle env k).

Definition mysecond : prog float :=
  fun s => Done (now (st_reads s))
    {| st_a := st_a s; st_b := st_b s; st_c := st_c s; st_mem := st_mem s;
       st_reads := S (st_reads s); st_trace := st_trace s |}.

Definition call_checktick : prog Z :=
  fun s =>
    match checktick fuel now (st_reads s) with
    | Some (ticks, k) =>
        Done ticks
          {| st_a := st_a s; st_b := st_b s; st_c := st_c s;
             st_mem := st_mem s; st_reads := k; st_trace := st_trace s |}
    | None => Timeout s
    end.

Notation "'let*' x ':=' c1 'in' c2" := (bind c1 (fun x => c2))
  (at level 10, x pattern, c1 at level 100, c2 at level 200).
Notation "c1 ;; c2" := (bind c1 (fun _ => c2))
  (at level 100, c2 at level 200, right associativity).

(** ** Sizes *)

Definition argc : Z := Z.of_nat (length (env_argv env)).
Definition argv (i : nat) : string := nth i (env_argv env) ""%string.

(** [STREAM_ARRAY_SIZE+OFFSET]: the sum of two constants, made in
    [int] when both are [int]s and in 64 bits ([long]) otherwise. *)
Definition array_size_plus_offset : Z :=
  if int_constant (cfg_STREAM_ARRAY_SIZE cfg) && int_constant (cfg_OFFSET cfg)
  then int32 (cfg_STREAM_ARRAY_SIZE cfg + cfg_OFFSET cfg)
  else ssize (cfg_STREAM_ARRAY_SIZE cfg + cfg_OFFSET cfg).

(** [(STREAM_ARRAY_SIZE+OFFSET)*sizeof(STREAM_TYPE)]: the sum is
    converted to [size_t] for the product, which is stored in an
    [ssize_t]. *)
Definition default_buffer_size : Z :=
  ssize (array_size_plus_offset * sizeof_elt).

(** [if ( argc > 1 ) { buffer_size = atoll(argv[1]);
      if ( buffer_size <= 0 ) buffer_size = (default); }] *)
Definition requested_size : Z :=
  if 1 <? argc then
    let buffer_size := ssize (env_atoll env (argv 1)) in
    if buffer_size <=? 0 then default_buffer_size else buffer_size
  else default_buffer_size.

(** [buffer_size] after the rounding to a page multiple. *)
Definition buffer_size : Z := round_up_page requested_size.

(** [stream_array_size = buffer_size/sizeof(STREAM_TYPE);]: the
    division is made on [size_t] operands. *)
Definition stream_array_size : Z := ssize (usize buffer_size / sizeof_elt).

(** [if ( argc > 3 ) offset = strtoll(argv[3], NULL, 0);
     if ( offset <= 0 ) offset = 0x100000000;
     offset = offset & (~0xFFF);] from [offset=0]. *)
Definition mapping_offset : Z :=
  let offset := 0 in
  let offset := if 3 <? argc then ssize (env_strtoll env (argv 3)) else offset in
  let offset := if offset <=? 0 then 0x100000000 else offset in
  truncate_page offset.

(** ** System calls *)

Definition region_pointer (failure : Z) (r : region elt) : Z :=
  match r with
  | NoRegion => failure
  | Region addr _ => Z.pos addr
  end.

(** A region of [len] bytes holds [len / sizeof(STREAM_TYPE)] elements. *)
Definition region_buffer (len : Z) (r : region elt) : buffer :=
  match r with
  | NoRegion => None
  | Region _ content => Some (map content (seq 0 (Z.to_nat (len / sizeof_elt))))
  end.

Definition sys_open (path : string) : prog Z :=
  let fd := env_open env path in
  emit (EvOpen path fd);; ret fd.

Definition sys_mmap (i : nat) (len fd off : Z) : prog (Z * buffer) :=
  let r := env_mmap env i in
  let p := region_pointer MAP_FAILED r in
  emit (EvMmap len fd off p);; ret (p, region_buffer len r).

Definition sys_aligned_alloc (i : nat) (alignment size : Z)
    : prog (Z * buffer) :=
  let r := env_aligned_alloc env i in
  let p := region_pointer NULL r in
  emit (EvAlignedAlloc alignment size p);; ret (p, region_buffer size r).

Definition assign_a (pb : Z * buffer) : prog unit :=
  fun s => Done tt
    {| st_a := fst pb; st_b := st_b s; st_c := st_c s;
       st_mem := Memory (snd pb) (mem_b (st_mem s)) (mem_c (st_mem s));
       st_reads := st_reads s; st_trace := st_trace s |}.

Definition assign_b (pb : Z * buffer) : prog unit :=
  fun s => Done tt
    {| st_a := st_a s; st_b := fst pb; st_c := st_c s;
       st_mem := Memory (mem_a (st_mem s)) (snd pb) (mem_c (st_mem s));
       st_reads := st_reads s; st_trace := st_trace s |}.

Definition assign_c (pb : Z * buffer) : prog unit :=
  fun s => Done tt
    {| st_a := st_a s; st_b := st_b s; st_c := fst pb;
       st_mem := Memory (mem_a (st_mem s)) (mem_b (st_mem s)) (snd pb);
       st_reads := st_reads s; st_trace := st_trace s |}.

(** [munmap(p, buffer_size)] for [p] one of [a], [b], [c]: the memory
    at [p] is no longer addressable. *)
Definition sys_munmap (pointer : state -> Z) (assign : Z * buffer -> prog unit)
    : prog unit :=
  fun s =>
    (emit (EvMunmap (pointer s) (usize buffer_size));;
     assign (pointer s, None)) s.

Definition sys_close (fd : Z) : prog unit := emit (EvClose fd).

(** ** Provisioning: the arguments, [open], the three [mmap] and the
    three [aligned_alloc] *)

(** [if ( p == NULL ) p = aligned_alloc (4096, buffer_size);] *)
Definition alloc_if_null (i : nat) (pointer : state -> Z)
    (assign : Z * buffer -> prog unit) : prog unit :=
  fun s =>
    if pointer s =? NULL then
      (let* pb := sys_aligned_alloc i 4096 (usize buffer_size) in assign pb) s
    else Done tt s.

(** The block [if ( argc > 2 ) { ... }]; the result is the value of
    [fid] after it. *)
Definition map_device : prog Z :=
  if 2 <? argc then
    let offset := mapping_offset in
    let* fid := sys_open (argv 2) in
    if fid <? 0 then
      print (MsgNotOpened (argv 1));;
      return_from_main 0
    else
      (let* pb := sys_mmap 0 (usize buffer_size) fid offset in assign_a pb);;
      (let* pb := sys_mmap 1 (usize buffer_size) fid
                    (ssize (offset + buffer_size)) in assign_b pb);;
      (let* pb := sys_mmap 2 (usize buffer_size) fid
                    (ssize (offset + ssize (2 * buffer_size))) in assign_c pb);;
      ret fid
  else ret (env_fid env).

Definition provision : prog Z :=
  let* fid := map_device in
  alloc_if_null 0 st_a assign_a;;
  alloc_if_null 1 st_b assign_b;;
  alloc_if_null 2 st_c assign_c;;
  ret fid.

(** ** The measurements and the validation *)

(** The configuration summary printed before the arrays are touched. *)
Definition banner : list message :=
  let size := double_of_Z buffer_size in
  [MsgHline; MsgVersion; MsgHline;
   MsgBytesPerWord (int32 sizeof_elt);
   MsgHline;
   MsgArraySize (usize stream_array_size) (cfg_OFFSET cfg);
   MsgMemoryPerArray (size / 1024.0 / 1024.0)%float
                     (size / 1024.0 / 1024.0 / 1024.0)%float;
   MsgTotalMemory (3.0 * (size / 1024.0 / 1024.0))%float
                  (3.0 * (size / 1024.0 / 1024.0 / 1024.0))%float;
   MsgRepetitions (NTIMES cfg)].

(** [times[j][k] = mysecond(); <kernel>;
     times[j][k] = mysecond() - times[j][k];] *)
Definition timed (times : list (list float)) (j k : nat)
    (body : memory -> option memory) : prog (list (list float)) :=
  let* t := mysecond in
  let times := set_time times j k t in
  on_memory body;;
  let* t := mysecond in
  ret (set_time times j k (t - get_time times j k)%float).

(** The body of [for (k=0; k<NTIMES; k++)]. *)
Definition main_loop_body (scalar : elt) (k : nat) (times : list (list float))
    : prog (list (list float)) :=
  let* times := timed times 0 k (STREAM_Copy stream_array_size) in
  let* times := timed times 1 k (STREAM_Scale scalar stream_array_size) in
  let* times := timed times 2 k (STREAM_Add stream_array_size) in
  timed times 3 k (STREAM_Triad scalar stream_array_size).

Fixpoint for_prog {A} (count k : nat) (body : nat -> A -> prog A) (x : A)
    : prog A :=
  match count with
  | O => ret x
  | S count' => let* x' := body k x in for_prog count' (S k) body x'
  end.

Definition main_loop (scalar : elt) : prog (list (list float)) :=
  let times := repeat (repeat 0%float (Z.to_nat (NTIMES cfg))) 4 in
  for_prog (Z.to_nat (NTIMES cfg)) 0 (main_loop_body scalar) times.

(** From the banner to the table of rates. *)
Definition measure : prog unit :=
  print_all banner;;
  on_memory (init_arrays stream_array_size);;
  print MsgHline;;
  let* ticks := call_checktick in
  let '(msg, quantum) := report_quantum ticks in
  print msg;;
  let* t := mysecond in
  on_memory (warmup stream_array_size);;
  let* t' := mysecond in
  let t := (1.0E6 * (t' - t))%float in
  print (MsgTestDuration (int_of_double t)
           (int_of_double (t / double_of_Z quantum)%float));;
  print_all [MsgHline; MsgGuideline; MsgHline];;
  let scalar := elt_of_double 3.0 in
  let* times := main_loop scalar in
  let stats := summary (NTIMES cfg) times in
  print MsgTableHeader;;
  print_all (table (NTIMES cfg) (bytes_of buffer_size) stats);;
  print MsgHline.

(** [checkSTREAMresults(stream_array_size); printf(HLINE);] *)
Definition validate : prog unit :=
  let* out := read_memory (checkSTREAMresults (NTIMES cfg) stream_array_size) in
  print_all out;;
  print MsgHline.

(** ** Teardown *)

(** [if ( argc > 1 ) { munmap(a, buffer_size); munmap(b, buffer_size);
      munmap(c, buffer_size); if ( fid ) close(fid); }] *)
Definition teardown (fid : Z) : prog unit :=
  if 1 <? argc then
    sys_munmap st_a assign_a;;
    sys_munmap st_b assign_b;;
    sys_munmap st_c assign_c;;
    (if fid =? 0 then ret tt else sys_close fid)
  else ret tt.

(** ** main *)

Definition main : prog Z :=
  print (MsgUsage (argv 0) default_buffer_size);;
  let* fid := provision in
  measure;;
  validate;;
  teardown fid;;
  return_from_main 0.

(** A run of the program from its initial state. *)
Definition run : result Z := main initial_state.

End WithEnvironment.

(** The events of a run in the order they happened, and the exit
    status when the run ended with a [return]. *)
Definition trace_of {A} (r : result A) : list event :=
  rev (st_trace (result_state r)).

Definition exit_status {A} (r : result A) : option Z :=
  match r with
  | Return status _ => Some status
  | _ => None
  end.

End Program.

Arguments Done {ST A} x s.
Arguments Return {ST A} status s.
Arguments Fault {ST A} s.
Arguments Timeout {ST A} s.

(** * Example environments *)

(** A stand-in for [atoll] and [strtoll] on arguments written as
    unsigned decimal numbers: the value of the leading digits. *)
Fixpoint digits_value (s : string) (acc : Z) : Z :=
  match s with
  | EmptyString => acc
  | String c s' =>
      let d := Z.of_nat (Ascii.nat_of_ascii c) - 48 in
      if (0 <=? d) && (d <=? 9) then digits_value s' (10 * acc + d) else acc
  end.

Definition decimal (s : string) : Z := digits_value s 0.

(** A cycle counter that advances by 60 cycles (0.6 microseconds) from
    one reading to the next. *)
Definition example_clock (k : nat) : Z := 60 * Z.of_nat k.

(** Requests for memory that succeed, at distinct page-aligned
    addresses, with zeroed content; and requests that fail. *)
Definition granted (i : nat) : region (@elt stream_double) :=
  Region (65536 * Pos.of_succ_nat i) (fun _ => 0%float).

Definition refused (i : nat) : region (@elt stream_double) := NoRegion.

(** An environment for the default build: the command line [args], the
    result [fd] of [open], and the answers to [mmap] and
    [aligned_alloc]. *)
Definition example_env (args : list string) (fd : Z)
    (mmap alloc : nat -> region (@elt stream_double))
    : @environment stream_double :=
  @Environment stream_double args decimal decimal (fun _ => fd) mmap alloc
    example_clock 12345.

(** Arrays of doubles, for the examples. *)
Definition doubles (l : list float) : @buffer stream_double := Some l.

Definition double_memory (la lb lc : list float) : @memory stream_double :=
  Memory (doubles la) (doubles lb) (doubles lc).

(** * Vocabulary of the properties *)

(** [r] is [s] rounded up to the next multiple of the page size. *)
Definition next_page_multiple (s r : Z) : Prop :=
  r mod 4096 = 0 /\ s <= r < s + 4096.

(** All the elements of an array are equal: for every pair of indices
    [i] and [j], [l[i] = l[j]]. *)
Definition uniform {A : Type} (l : list A) : Prop :=
  forall (i j : nat) (x y : A), l !! i = Some x -> l !! j = Some y -> x = y.

Section KernelVocabulary.
Context {ST : StreamType}.

(** The three pointers address arrays of [n] elements each. *)
Definition sized (n : nat) (m : memory) : Prop :=
  exists la lb lc : list elt,
    m = Memory (Some la) (Some lb) (Some lc)
    /\ length la = n /\ length lb = n /\ length lc = n.

(** Elementwise uniformity of the three arrays. *)
Definition uniform_memory (n : nat) (m : memory) : Prop :=
  exists la lb lc : list elt,
    m = Memory (Some la) (Some lb) (Some lc)
    /\ length la = n /\ length lb = n /\ length lc = n
    /\ uniform la /\ uniform lb /\ uniform lc.

(** The operations on the arrays in the order [main] applies them:
    the initialisation, the warm-up, then [R] times the four kernels. *)
Inductive operation := OpInit | OpWarmup | OpKernel (k : kernel).

Definition run_operation (scalar : elt) (n : Z) (op : operation)
    : memory -> option memory :=
  match op with
  | OpInit => init_arrays n
  | OpWarmup => warmup n
  | OpKernel k => run_kernel scalar n k
  end.

Definition one_round : list operation :=
  [OpKernel Copy; OpKernel Scale; OpKernel Add; OpKernel Triad].

Definition schedule (R : nat) : list operation :=
  OpInit :: OpWarmup :: concat (repeat one_round R).

(** The states of the arrays after each operation of a list. *)
Fixpoint run_schedule (scalar : elt) (n : Z) (ops : list operation)
    (m : memory) : option (list memory) :=
  match ops with
  | [] => Some []
  | op :: ops' =>
      m' ← run_operation scalar n op m;
      rest ← run_schedule scalar n ops' m';
      Some (m' :: rest)
  end.

End KernelVocabulary.

(** ** The arrays as an array of triples *)

Section CellVocabulary.
Context {ST : StreamType}.

Local Abbreviation cells := (list (elt * elt * elt)).

(** The three arrays seen as one array of triples [(a[j], b[j], c[j])]. *)
Definition memory_of (T : cells) : memory :=
  Memory (Some ((fun t => fst (fst t)) <$> T))
         (Some ((fun t => snd (fst t)) <$> T))
         (Some ((fun t => snd t) <$> T)).

(** A loop body acts elementwise as [g] when its [j]-th turn replaces
    the [j]-th triple [t] by [g t]. *)
Definition pointwise (body : nat -> memory -> option memory)
    (g : elt * elt * elt -> elt * elt * elt) : Prop :=
  forall (j : nat) (T : cells) (t : elt * elt * elt),
    T !! j = Some t ->
    body j (memory_of T) = Some (memory_of (<[j := g t]> T)).

(** The elementwise action of each loop of [main]. *)
Definition init_cell (_ : elt * elt * elt) : elt * elt * elt :=
  (elt_of_double 1.0, elt_of_double 2.0, elt_of_double 0.0).

Definition warmup_cell (t : elt * elt * elt) : elt * elt * elt :=
  let '(x, y, z) := t in (elt_of_double (2.0E0 * double_of_elt x), y, z).

Definition kernel_cell (scalar : elt) (k : kernel) (t : elt * elt * elt)
    : elt * elt * elt :=
  let '(x, y, z) := t in
  match k with
  | Copy => (x, y, x)
  | Scale => (x, elt_mul scalar z, z)
  | Add => (x, y, elt_add x y)
  | Triad => (elt_add y (elt_mul scalar z), y, z)
  end.

End CellVocabulary.

(** ** The validation in the words of its description *)

Section ValidationVocabulary.
Context {ST : StreamType}.

(** The sum over [i] of [|X[i] - e|], accumulated in index order from
    [0.0] in the element type. *)
Definition abs_err_sum (l : list elt) (e : elt) : elt :=
  fold_left (fun s x => elt_add s (abs_elt (elt_sub x e))) l
    (elt_of_double 0.0).

(** [avgAbsErr = (sum of |X[i] - e|) / elementCount] *)
Definition avg_abs_err (l : list elt) (e : elt) (n : Z) : elt :=
  elt_div (abs_err_sum l e) (elt_of_ssize n).

(** The buffer fails: [|avgAbsErr / e| > epsilon]. *)
Definition buffer_fails (l : list elt) (e : elt) (n : Z) (epsilon : float)
    : bool :=
  exceeds (avg_abs_err l e n) e epsilon.

(** The number of elements [x] with [|x/e - 1.0| > epsilon]. *)
Definition deviation_count (l : list elt) (e : elt) (epsilon : float) : Z :=
  Z.of_nat (length (List.filter (deviates e epsilon) l)).

(** What the output [out] says of the array called [name], with
    elements [l] and expected value [e]: it is declared failed exactly
    when it fails, and a count of errors is reported exactly when it
    fails, the count being the number of deviating elements. *)
Definition reports_buffer (out : list message) (name : string)
    (l : list elt) (e : elt) (n : Z) (epsilon : float) : Prop :=
  (In (MsgFailed name epsilon) out <-> buffer_fails l e n epsilon = true)
  /\ (forall k : Z,
        In (MsgErrorsFound name k) out <->
        buffer_fails l e n epsilon = true /\ k = deviation_count l e epsilon).

End ValidationVocabulary.

(** ** The order of doubles *)

(** A double is a number (not a NaN), and is finite. *)
Definition is_number (x : float) : bool :=
  match Prim2SF x with
  | S754_nan => false
  | _ => true
  end.

Definition finite_double (x : float) : bool :=
  match Prim2SF x with
  | S754_zero _ | S754_finite _ _ _ => true
  | _ => false
  end.

(** A rank that orders the numbers as the comparison of doubles does:
    lexicographically on the sign class, the exponent and the
    mantissa. *)
Definition SFkey (x : spec_float) : Z * Z * Z :=
  match x with
  | S754_infinity true => (-2, 0, 0)
  | S754_finite true m e => (-1, - e, - Z.pos m)
  | S754_zero _ => (0, 0, 0)
  | S754_finite false m e => (1, e, Z.pos m)
  | S754_infinity false => (2, 0, 0)
  | S754_nan => (3, 0, 0)
  end.

Definition key_lt (k1 k2 : Z * Z * Z) : Prop :=
  let '(a1, b1, c1) := k1 in
  let '(a2, b2, c2) := k2 in
  a1 < a2 \/ (a1 = a2 /\ (b1 < b2 \/ (b1 = b2 /\ c1 < c2))).

Definition dkey (x : float) : Z * Z * Z := SFkey (Prim2SF x).

(** ** The summary in the words of its description *)

(** The samples of kernel [j] that the summary uses: repetitions
    [k], [k+1], ..., [k + count - 1]. *)
Definition samples (times : list (list float)) (j k count : nat) : list float :=
  map (get_time times j) (seq k count).

(** A table of timings in which every repetition of every kernel took
    0.01 s. *)
Definition times_10ms : list (list float) := repeat (repeat 0.01%float 10) 4.

(** A table of timings with distinct values. *)
Definition example_times : list (list float) :=
  [[0.9; 0.04; 0.03; 0.05; 0.02; 0.06; 0.07; 0.08; 0.09; 0.035];
   [0.9; 0.04; 0.03; 0.05; 0.02; 0.06; 0.07; 0.08; 0.09; 0.035];
   [0.9; 0.06; 0.05; 0.07; 0.03; 0.08; 0.09; 0.10; 0.11; 0.055];
   [0.9; 0.06; 0.05; 0.07; 0.03; 0.08; 0.09; 0.10; 0.11; 0.055]]%float.

(** ** The granularity estimate in the words of its description *)

(** The busy-wait that starts with the reading [p] ends with the
    reading [q]: [q] is the first reading after [p] that is not less
    than a microsecond after it. *)
Definition spun (now : nat -> float) (p q : nat) : Prop :=
  (p < q)%nat
  /\ (now q - now p <? 1.0E-6)%float = false
  /\ forall r : nat, (p < r < q)%nat -> (now r - now p <? 1.0E-6)%float = true.

(** The samples [timesfound] collected from the reading [k] on, each
    by a busy-wait that starts where the previous one ended; [k'] is
    the number of readings made when the last one ends. *)
Inductive collected (now : nat -> float) : nat -> list float -> nat -> Prop :=
  | collected_nil (k : nat) : collected now k [] k
  | collected_cons (p q k' : nat) (rest : list float) :
      spun now p q ->
      collected now (S q) rest k' ->
      collected now p (now q :: rest) k'.

(** Each sample is less than the next one. *)
Definition strictly_increasing (l : list float) : Prop :=
  forall (i : nat) (x y : float),
    l !! i = Some x -> l !! S i = Some y -> (x <? y)%float = true.

(** The differences of consecutive samples in whole microseconds
    (truncated), clamped to be non-negative. *)
Definition clamped_deltas (timesfound : list float) : list Z :=
  map (fun i =>
         Z.max (int_of_double
                  (1.0E6 * (nth (S i) timesfound 0 - nth i timesfound 0))%float)
               0)
      (seq 0 (length timesfound - 1)).

(** [m] is the minimum of the list [l]. *)
Definition is_minimum (l : list Z) (m : Z) : Prop :=
  In m l /\ forall x : Z, In x l -> m <= x.

(** The clock of the example environments, and a slow clock whose
    counter advances by 200,000,000 cycles (2 seconds) from one reading
    to the next. *)
Definition example_now (k : nat) : float := mysecond_of (example_clock k).

Definition slow_now (k : nat) : float :=
  mysecond_of (200000000 * Z.of_nat k).

(** ** The run in the words of its description *)

Section RunVocabulary.
Context {ST : StreamType}.

(** A piece of [main] is quiet when it never executes [return], leaves
    the pointers [a], [b], [c] as they are and only prints: the events
    it adds are the messages [msgs], most recent first. *)
Definition quiet {A : Type} (p : prog A) : Prop :=
  forall s : state,
    match p s with
    | Return _ _ => False
    | r =>
        st_a (result_state r) = st_a s
        /\ st_b (result_state r) = st_b s
        /\ st_c (result_state r) = st_c s
        /\ exists msgs : list message,
             st_trace (result_state r) = map EvPrint msgs ++ st_trace s
    end.

(** The state after the usage lines have been printed. *)
Definition usage_state (cfg : config) (env : environment) : state :=
  {| st_a := NULL; st_b := NULL; st_c := NULL;
     st_mem := Memory None None None; st_reads := 0;
     st_trace := [EvPrint (MsgUsage (argv env 0) (default_buffer_size cfg))] |}.

(** The events of the provisioning when a device path is given and
    [open] succeeds, and the state it leaves. *)
Definition device_events (cfg : config) (env : environment) : list event :=
  let fid := env_open env (argv env 2) in
  let len := usize (buffer_size cfg env) in
  let offset := mapping_offset env in
  [EvPrint (MsgUsage (argv env 0) (default_buffer_size cfg));
   EvOpen (argv env 2) fid;
   EvMmap len fid offset (region_pointer MAP_FAILED (env_mmap env 0));
   EvMmap len fid (ssize (offset + buffer_size cfg env))
     (region_pointer MAP_FAILED (env_mmap env 1));
   EvMmap len fid (ssize (offset + ssize (2 * buffer_size cfg env)))
     (region_pointer MAP_FAILED (env_mmap env 2))].

Definition device_state (cfg : config) (env : environment) : state :=
  let len := usize (buffer_size cfg env) in
  {| st_a := region_pointer MAP_FAILED (env_mmap env 0);
     st_b := region_pointer MAP_FAILED (env_mmap env 1);
     st_c := region_pointer MAP_FAILED (env_mmap env 2);
     st_mem := Memory (region_buffer len (env_mmap env 0))
                      (region_buffer len (env_mmap env 1))
                      (region_buffer len (env_mmap env 2));
     st_reads := 0;
     st_trace := rev (device_events cfg env) |}.

(** The events of the provisioning when no device path is given, and
    the state it leaves. *)
Definition heap_events (cfg : config) (env : environment) : list event :=
  let size := usize (buffer_size cfg env) in
  [EvPrint (MsgUsage (argv env 0) (default_buffer_size cfg));
   EvAlignedAlloc 4096 size (region_pointer NULL (env_aligned_alloc env 0));
   EvAlignedAlloc 4096 size (region_pointer NULL (env_aligned_alloc env 1));
   EvAlignedAlloc 4096 size (region_pointer NULL (env_aligned_alloc env 2))].

Definition heap_state (cfg : config) (env : environment) : state :=
  let size := usize (buffer_size cfg env) in
  {| st_a := region_pointer NULL (env_aligned_alloc env 0);
     st_b := region_pointer NULL (env_aligned_alloc env 1);
     st_c := region_pointer NULL (env_aligned_alloc env 2);
     st_mem := Memory (region_buffer size (env_aligned_alloc env 0))
                      (region_buffer size (env_aligned_alloc env 1))
                      (region_buffer size (env_aligned_alloc env 2));
     st_reads := 0;
     st_trace := rev (heap_events cfg env) |}.

(** What [main] does from the validation on, and after the
    provisioning. *)
Definition finish (cfg : config) (env : environment) (fid : Z) : prog Z :=
  bind (validate cfg env) (fun _ =>
  bind (teardown cfg env fid) (fun _ =>
  return_from_main 0)).

Definition after_provisioning (cfg : config) (env : environment) (fuel : nat)
    (fid : Z) : prog Z :=
  bind (measure cfg env fuel) (fun _ => finish cfg env fid).

(** The events of the teardown from a state [s], in order. *)
Definition teardown_events (cfg : config) (env : environment) (fid : Z)
    (s : state) : list event :=
  if 1 <? argc env then
    [EvMunmap (st_a s) (usize (buffer_size cfg env));
     EvMunmap (st_b s) (usize (buffer_size cfg env));
     EvMunmap (st_c s) (usize (buffer_size cfg env))]
    ++ (if fid =? 0 then [] else [EvClose fid])
  else [].

(** The state [s] with the events [new] (most recent first) added. *)
Definition add_events (new : list event) (s : state) : state :=
  {| st_a := st_a s; st_b := st_b s; st_c := st_c s; st_mem := st_mem s;
     st_reads := st_reads s; st_trace := new ++ st_trace s |}.

End RunVocabulary.

(** The event [e] releases the memory at address [p]. *)
Definition releases (p : Z) (e : event) : bool :=
  match e with
  | EvMunmap addr _ => addr =? p
  | EvFree addr => addr =? p
  | _ => false
  end.

(** The address [p] is released somewhere in the trace. *)
Definition released (trace : list event) (p : Z) : bool :=
  existsb (releases p) trace.

(** Environments of the examples: no argument; a size only; a device
    that cannot be opened; a device that is opened but cannot be mapped;
    a device that is opened and mapped at a given offset. *)
Definition env_no_argument : @environment stream_double :=
  example_env ["./stream"]%string 3 refused granted.

Definition env_size_only : @environment stream_double :=
  example_env ["./stream"; "4096"]%string 3 refused granted.

Definition env_not_opened : @environment stream_double :=
  example_env ["./stream"; "4096"; "/dev/missing"]%string (-1) refused granted.

Definition env_not_mapped : @environment stream_double :=
  example_env ["./stream"; "4096"; "/dev/null"]%string 3 refused granted.

Definition env_device : @environment stream_double :=
  example_env ["./stream"; "8192"; "/dev/mem"; "8589938000"]%string 3
    granted refused.

(** A state whose arrays hold the expected values of 10 rounds, except
    for the first element of [c]. *)
Definition corrupted_state : @state stream_double :=
  {| st_a := 65536; st_b := 131072; st_c := 196608;
     st_mem := double_memory (repeat 1153300781250%float 512)
                 (repeat 230660156250%float 512)
                 (0%float :: repeat 307546875000%float 511);
     st_reads := 0; st_trace := [] |}.

(** ** A run that completes, in the words of its description *)

Section CompletionVocabulary.
Context {ST : StreamType}.

(** The state [s] after a piece of [main] that left the arrays as [m],
    brought the number of clock readings to [k] and printed [msgs], in
    this order; the pointers are as in [s]. *)
Definition moved (s : state) (m : memory) (k : nat) (msgs : list message)
    : state :=
  {| st_a := st_a s; st_b := st_b s; st_c := st_c s; st_mem := m;
     st_reads := k; st_trace := map EvPrint (rev msgs) ++ st_trace s |}.

(** Started with the arrays [m] after [k] clock readings, the piece [p]
    of [main] ends normally with the value [x], the arrays [m'] and [k']
    clock readings, having printed [msgs] and done nothing else. *)
Definition runs {A : Type} (p : prog A) (m : memory) (k : nat)
    (x : A) (m' : memory) (k' : nat) (msgs : list message) : Prop :=
  forall s : state,
    st_mem s = m -> st_reads s = k -> p s = Done x (moved s m' k' msgs).

End CompletionVocabulary.

(** The entry [times[j][i]] after it was set to the reading [k] and then
    to the difference between the reading [k+1] and itself. *)
Definition stamp (now : nat -> float) (times : list (list float))
    (j i k : nat) : list (list float) :=
  let times := set_time times j i (now k) in
  set_time times j i (now (S k) - get_time times j i)%float.

(** The table after repetition [i] of the main loop, begun at the
    reading [k]: two readings for each of the four kernels. *)
Definition stamp_round (now : nat -> float) (times : list (list float))
    (i k : nat) : list (list float) :=
  stamp now (stamp now (stamp now (stamp now times 0 i k) 1 i (2 + k))
               2 i (4 + k)) 3 i (6 + k).

Fixpoint record_rounds (now : nat -> float) (count i k : nat)
    (times : list (list float)) : list (list float) :=
  match count with
  | O => times
  | S count' =>
      record_rounds now count' (S i) (8 + k) (stamp_round now times i k)
  end.

Section OutputVocabulary.
Context {ST : StreamType}.

(** The table [times] the main loop has filled when it began at the
    reading [k]. *)
Definition measured_times (cfg : config) (env : environment) (k : nat)
    : list (list float) :=
  record_rounds (now env) (Z.to_nat (NTIMES cfg)) 0 k
    (repeat (repeat 0%float (Z.to_nat (NTIMES cfg))) 4).

(** What the program prints from the banner to the rule under the
    table of rates, when [checktick] returned [ticks] after reading
    [k]. *)
Definition measure_output (cfg : config) (env : environment) (ticks : Z)
    (k : nat) : list message :=
  let t := (1.0E6 * (now env (S k) - now env k))%float in
  banner cfg env
  ++ [MsgHline; fst (report_quantum ticks);
      MsgTestDuration (int_of_double t)
        (int_of_double (t / double_of_Z (snd (report_quantum ticks))));
      MsgHline; MsgGuideline; MsgHline; MsgTableHeader]
  ++ table (NTIMES cfg) (bytes_of (buffer_size cfg env))
       (summary (NTIMES cfg) (measured_times cfg env (2 + k)))
  ++ [MsgHline].

End OutputVocabulary.

Section CompleteRunVocabulary.
Context {ST : StreamType}.

(** The provisioning that succeeds: with a device path, [open] and the
    three [mmap] succeed; without one, the three [aligned_alloc] do. *)
Definition provisioned (env : environment) : Prop :=
  if 2 <? argc env then
    0 <= env_open env (argv env 2)
    /\ forall i : nat, (i < 3)%nat -> env_mmap env i <> NoRegion
  else forall i : nat, (i < 3)%nat -> env_aligned_alloc env i <> NoRegion.

(** The state it leaves, its events, and the value of [fid]. *)
Definition provisioned_state (cfg : config) (env : environment) : state :=
  if 2 <? argc env then device_state cfg env else heap_state cfg env.

Definition provisioning_events (cfg : config) (env : environment)
    : list event :=
  if 2 <? argc env then device_events cfg env else heap_events cfg env.

Definition provisioned_fid (env : environment) : Z :=
  if 2 <? argc env then env_open env (argv env 2) else env_fid env.

(** Within [fuel] readings after any of the readings a busy-wait of
    [checktick] can start from, the clock shows an advance of a
    microsecond. *)
Definition clock_advances (env : environment) (fuel : nat) : Prop :=
  forall p : nat, (p < M_samples * S fuel)%nat ->
    exists d : nat,
      (d < fuel)%nat
      /\ (now env (S p + d)%nat - now env p <? 1.0E-6)%float = false.

(** The arrays when the main loop has ended: [n] copies of the values
    of the scalar replay. *)
Definition final_memory (cfg : config) (env : environment) : memory :=
  memory_of (replicate (Z.to_nat (stream_array_size cfg env))
               (expected_values (NTIMES cfg))).

End CompleteRunVocabulary.

(** ** Vocabulary of the further properties *)

(** A double that is a zero or a NaN: the difference of a value of the
    replay with itself, and what the validation derives from it. *)
Definition zero_or_nan (x : float) : bool :=
  match Prim2SF x with
  | S754_zero _ | S754_nan => true
  | _ => false
  end.

(** The same for a binary32 value. *)
Definition zero_or_nan32 (x : float32) : bool :=
  match x with
  | S754_zero _ | S754_nan => true
  | _ => false
  end.

(** A table of [rows] rows of [cols] entries each. *)
Definition rectangular (rows cols : nat) (times : list (list float)) : Prop :=
  length times = rows
  /\ forall j : nat, (j < rows)%nat -> length (nth j times []) = cols.

(** A clock that does not advance: the cycle counter stays at 0. *)
Definition env_frozen_clock : @environment stream_double :=
  @Environment stream_double ["./stream"]%string decimal decimal (fun _ => 3)
    refused granted (fun _ => 0) 12345.

(** The calls that provision the buffers on the heap, and those that
    provision them from a device. *)
Definition is_heap_call (e : event) : bool :=
  match e with
  | EvAlignedAlloc _ _ _ => true
  | _ => false
  end.

Definition is_device_call (e : event) : bool :=
  match e with
  | EvOpen _ _ | EvMmap _ _ _ _ => true
  | _ => false
  end.

(** The length and the offset of a call of [mmap] are multiples of the
    page size. *)
Definition aligned_mmap (e : event) : Prop :=
  match e with
  | EvMmap len _ off _ => len mod 4096 = 0 /\ off mod 4096 = 0
  | _ => True
  end.

(** * Properties *)

(** ** Machine integers and page rounding *)

Lemma ssize_id (x : Z) : in_ssize x -> ssize x = x.
Proof.
  unfold in_ssize, SSIZE_MIN, SSIZE_MAX, ssize, wrap_signed. intros H.
  rewrite Z.mod_small; lia.
Qed.

Lemma usize_id (x : Z) : 0 <= x < 2 ^ 64 -> usize x = x.
Proof. unfold usize, wrap_unsigned. intros H. now apply Z.mod_small. Qed.

Lemma int32_id (x : Z) : INT_MIN <= x <= INT_MAX -> int32 x = x.
Proof.
  unfold INT_MIN, INT_MAX, int32, wrap_signed. intros H.
  rewrite Z.mod_small; lia.
Qed.

Lemma ssize_range (x : Z) : in_ssize (ssize x).
Proof.
  unfold in_ssize, SSIZE_MIN, SSIZE_MAX, ssize, wrap_signed.
  pose proof (Z.mod_pos_bound (x + 2 ^ (64 - 1)) (2 ^ 64) ltac:(lia)). lia.
Qed.

(** Masking with [~0xFFF] clears the twelve low bits. *)
Lemma land_PAGE_MASK (x : Z) : Z.land x PAGE_MASK = 4096 * (x / 4096).
Proof.
  unfold PAGE_MASK. change 4095 with (Z.ones 12).
  rewrite <- Z.ldiff_land, Z.ldiff_ones_r by lia.
  rewrite Z.shiftl_mul_pow2, Z.shiftr_div_pow2 by lia.
  change (2 ^ 12) with 4096. lia.
Qed.

Lemma truncate_page_spec (x : Z) :
  truncate_page x mod 4096 = 0 /\ truncate_page x <= x < truncate_page x + 4096.
Proof.
  unfold truncate_page. rewrite land_PAGE_MASK.
  split.
  - rewrite Z.mul_comm. apply Z.mod_mul. lia.
  - pose proof (Z.mul_div_le x 4096 ltac:(lia)).
    pose proof (Z.mul_succ_div_gt x 4096 ltac:(lia)). lia.
Qed.

Lemma round_up_page_spec (s : Z) :
  SSIZE_MIN <= s + 4095 <= SSIZE_MAX ->
  next_page_multiple s (round_up_page s).
Proof.
  intros H. unfold round_up_page, next_page_multiple.
  rewrite ssize_id by exact H.
  destruct (truncate_page_spec (s + 4095)) as [Hm Hr].
  unfold truncate_page in Hm, Hr. lia.
Qed.

(** A multiple of the page size in a window of one page is unique. *)
Lemma next_page_multiple_unique (s r r' : Z) :
  next_page_multiple s r -> next_page_multiple s r' -> r = r'.
Proof.
  unfold next_page_multiple. intros [Hm Hr] [Hm' Hr'].
  apply Z.mod_divide in Hm, Hm'; try lia.
  destruct Hm as [q ->], Hm' as [q' ->]. lia.
Qed.

(** ** C4: the size of a buffer is the request rounded up to a page *)

(** The size handed to [aligned_alloc], [mmap] and [munmap], and
    divided by the size of an element, is [buffer_size] converted to
    [size_t].  For every positive [ssize_t] request it is the request
    rounded up, also where [buffer_size+4095] wraps around: the size is
    then [2^63]. *)
Lemma usize_round_up_page (s : Z) :
  0 < s <= SSIZE_MAX ->
  usize (round_up_page s) = 4096 * ((s + 4095) / 4096)
  /\ next_page_multiple s (usize (round_up_page s)).
Proof.
  unfold SSIZE_MAX. intros Hs.
  assert (E : usize (round_up_page s) = 4096 * ((s + 4095) / 4096)).
  { unfold round_up_page. rewrite land_PAGE_MASK.
    unfold ssize, wrap_signed.
    rewrite (Z.mod_eq (s + 4095 + 2 ^ (64 - 1)) (2 ^ 64)) by lia.
    set (t := (s + 4095 + 2 ^ (64 - 1)) / 2 ^ 64).
    replace (s + 4095 + 2 ^ (64 - 1) - 2 ^ 64 * t - 2 ^ (64 - 1))
      with (s + 4095 + (- (2 ^ 52) * t) * 4096) by lia.
    rewrite Z.div_add by lia.
    unfold usize, wrap_unsigned.
    replace (4096 * ((s + 4095) / 4096 + - 2 ^ 52 * t))
      with (4096 * ((s + 4095) / 4096) + (- t) * 2 ^ 64) by lia.
    rewrite Z.mod_add by lia.
    apply Z.mod_small.
    pose proof (Z.mul_div_le (s + 4095) 4096 ltac:(lia)).
    pose proof (Z.div_pos (s + 4095) 4096 ltac:(lia) ltac:(lia)). lia. }
  split; [exact E|]. rewrite E. unfold next_page_multiple.
  pose proof (Z.mul_div_le (s + 4095) 4096 ltac:(lia)).
  pose proof (Z.mul_succ_div_gt (s + 4095) 4096 ltac:(lia)).
  split; [|lia]. rewrite Z.mul_comm. apply Z.mod_mul. lia.
Qed.

Lemma requested_size_range {ST : StreamType} (cfg : config) (env : environment) :
  requested_size cfg env <= SSIZE_MAX.
Proof.
  unfold requested_size, default_buffer_size.
  pose proof (ssize_range (env_atoll env (argv env 1))) as [_ H1].
  pose proof (ssize_range (array_size_plus_offset cfg * sizeof_elt)) as [_ H2].
  destruct (1 <? argc env); [|exact H2].
  destruct (ssize (env_atoll env (argv env 1)) <=? 0); assumption.
Qed.

(** A size whose double fits in an [ssize_t] is the same signed and
    unsigned. *)
Lemma usize_small (x : Z) :
  in_ssize x -> 2 * usize x <= SSIZE_MAX -> usize x = x /\ 0 <= x.
Proof.
  unfold in_ssize, SSIZE_MIN, SSIZE_MAX, usize, wrap_unsigned.
  intros Hx Hu.
  pose proof (Z.div_mod x (2 ^ 64) ltac:(lia)) as Hd.
  pose proof (Z.mod_pos_bound x (2 ^ 64) ltac:(lia)) as Hm.
  lia.
Qed.

Lemma buffer_size_in_ssize {ST : StreamType} (cfg : config) (env : environment) :
  in_ssize (buffer_size cfg env).
Proof.
  unfold buffer_size, round_up_page. rewrite land_PAGE_MASK.
  pose proof (ssize_range (requested_size cfg env + 4095)) as Hr.
  unfold in_ssize, SSIZE_MIN, SSIZE_MAX in *.
  pose proof (Z.div_mod (ssize (requested_size cfg env + 4095)) 4096
                ltac:(lia)) as Hd.
  pose proof (Z.mod_pos_bound (ssize (requested_size cfg env + 4095)) 4096
                ltac:(lia)) as Hm.
  lia.
Qed.

Lemma requested_size_in_ssize {ST : StreamType} (cfg : config)
    (env : environment) :
  in_ssize (requested_size cfg env).
Proof.
  unfold requested_size, default_buffer_size.
  pose proof (ssize_range (env_atoll env (argv env 1))) as H1.
  pose proof (ssize_range (array_size_plus_offset cfg * sizeof_elt)) as H2.
  destruct (1 <? argc env); [|exact H2].
  destruct (ssize (env_atoll env (argv env 1)) <=? 0); assumption.
Qed.

(** A buffer whose size is not negative as an [ssize_t] has the size
    requested, rounded up to a page. *)
Lemma buffer_size_rounds_request {ST : StreamType} (cfg : config)
    (env : environment) :
  0 <= buffer_size cfg env ->
  next_page_multiple (requested_size cfg env) (buffer_size cfg env).
Proof.
  intros Hpos. unfold buffer_size in *. apply round_up_page_spec.
  pose proof (requested_size_in_ssize cfg env) as Hr.
  unfold in_ssize, SSIZE_MIN, SSIZE_MAX in *. split; [lia|].
  destruct (Z.le_gt_cases (requested_size cfg env + 4095) (2 ^ 63 - 1))
    as [H|H]; [exact H|exfalso].
  unfold round_up_page in Hpos. rewrite land_PAGE_MASK in Hpos.
  assert (Hneg : ssize (requested_size cfg env + 4095) < 0).
  { unfold ssize, wrap_signed.
    pose proof (Z.div_mod (requested_size cfg env + 4095 + 2 ^ (64 - 1))
                  (2 ^ 64) ltac:(lia)) as Hd.
    pose proof (Z.mod_pos_bound (requested_size cfg env + 4095 + 2 ^ (64 - 1))
                  (2 ^ 64) ltac:(lia)) as Hm.
    lia. }
  pose proof (Z.mul_div_le (ssize (requested_size cfg env + 4095)) 4096
                ltac:(lia)).
  lia.
Qed.

(** C4.  For every positive requested byte size [s], given as the first
    argument, the size of each buffer (the size the program passes to
    [aligned_alloc] or [mmap] for each of the three buffers) is [s]
    rounded up to the next multiple of 4096: it is a multiple of 4096
    and lies in [s, s + 4096).  In particular a request of 1 byte gives
    4096 bytes and a request of 4096 bytes is left unchanged. *)
Theorem buffer_size_page_rounded
    {ST : StreamType} (cfg : config) (env : environment) (s : Z) :
  1 < argc env ->
  ssize (env_atoll env (argv env 1)) = s ->
  0 < s ->
  let byteSize := usize (buffer_size cfg env) in
  next_page_multiple s byteSize
  /\ (s = 1 -> byteSize = 4096)
  /\ (s = 4096 -> byteSize = 4096)
  /\ forall e : event,
       In e (provisioning_events cfg env) ->
       match e with
       | EvAlignedAlloc _ size _ => size = byteSize
       | EvMmap len _ _ _ => len = byteSize
       | _ => True
       end.
Proof.
  intros Hargc Hs Hpos. cbv zeta.
  assert (Hr : requested_size cfg env = s).
  { unfold requested_size. apply Z.ltb_lt in Hargc. rewrite Hargc, Hs.
    destruct (Z.leb_spec s 0); [lia | reflexivity]. }
  pose proof (requested_size_range cfg env) as Hmax. rewrite Hr in Hmax.
  destruct (usize_round_up_page s ltac:(lia)) as [_ Hn].
  unfold buffer_size. rewrite Hr.
  split; [exact Hn|]. split; [intros ->; reflexivity|].
  split; [intros ->; reflexivity|].
  intros e He. unfold provisioning_events, device_events, heap_events in He.
  unfold buffer_size in He. rewrite Hr in He.
  destruct (2 <? argc env).
  - destruct He as [<-|[<-|[<-|[<-|[<-|[]]]]]]; exact I || reflexivity.
  - destruct He as [<-|[<-|[<-|[<-|[]]]]]; exact I || reflexivity.
Qed.

Lemma buffer_size_page_rounded_witness :
  let env := example_env ["./stream"; "9223372036854775807"]%string 3
               refused granted in
  next_page_multiple SSIZE_MAX (usize (buffer_size default_config env))
  /\ usize (buffer_size default_config env) = 2 ^ 63
  /\ In (EvAlignedAlloc 4096 (2 ^ 63) 65536)
       (provisioning_events default_config env).
Proof.
  cbv zeta.
  pose proof (@buffer_size_page_rounded stream_double default_config
                (example_env ["./stream"; "9223372036854775807"]%string 3
                   refused granted)
                SSIZE_MAX ltac:(reflexivity) ltac:(reflexivity)
                ltac:(reflexivity)) as (Hn & _).
  split; [exact Hn|]. split; [reflexivity|]. right. left. reflexivity.
Defined.

(** ** The kernels act elementwise *)

Section KernelProperties.
Context {ST : StreamType}.

Local Abbreviation cells := (list (elt * elt * elt)).

Lemma zip3_components (la lb lc : list elt) :
  length la = length lb -> length la = length lc ->
  (fun t => fst (fst t)) <$> zip (zip la lb) lc = la
  /\ (fun t => snd (fst t)) <$> zip (zip la lb) lc = lb
  /\ (fun t : elt * elt * elt => snd t) <$> zip (zip la lb) lc = lc.
Proof.
  revert lb lc. induction la as [|x la IH]; intros [|y lb] [|z lc] Hb Hc;
    try discriminate; [repeat split|].
  simpl in Hb, Hc. destruct (IH lb lc) as (Ea & Eb & Ec); [lia | lia |].
  cbn. rewrite Ea, Eb, Ec. repeat split.
Qed.

Lemma sized_memory_of (n : nat) (m : memory) :
  sized n m -> exists T : cells, m = memory_of T /\ length T = n.
Proof.
  intros (la & lb & lc & -> & Ha & Hb & Hc).
  exists (zip (zip la lb) lc).
  destruct (zip3_components la lb lc) as (Ea & Eb & Ec); [lia | lia |].
  split.
  - unfold memory_of. now rewrite Ea, Eb, Ec.
  - rewrite !length_zip. lia.
Qed.

Lemma memory_of_sized (T : cells) : sized (length T) (memory_of T).
Proof.
  unfold sized, memory_of. do 3 eexists. split; [reflexivity|].
  rewrite !length_fmap. auto.
Qed.

Lemma load_fmap {B} (f : B -> elt) (l : list B) (j : nat) :
  load (Some (f <$> l)) j = f <$> l !! j.
Proof. unfold load. simpl. apply list_lookup_fmap. Qed.

Lemma store_fmap {B} (f : B -> elt) (l : list B) (j : nat) (t : B) (v : elt) :
  l !! j = Some t ->
  store (Some (f <$> l)) j v = Some (Some (<[j := v]> (f <$> l))).
Proof.
  intros H. unfold store. simpl.
  apply lookup_lt_Some in H.
  now rewrite decide_True by (rewrite length_fmap; exact H).
Qed.

Lemma fmap_insert_id {B} (f : B -> elt) (l : list B) (j : nat) (t : B) :
  l !! j = Some t -> f <$> l = <[j := f t]> (f <$> l).
Proof.
  intros H. symmetry. apply list_insert_id. now rewrite list_lookup_fmap, H.
Qed.

Lemma for_loop_pointwise body g :
  pointwise body g ->
  forall (count j : nat) (T : cells),
    (j + count <= length T)%nat ->
    exists T' : cells,
      for_loop count j body (memory_of T) = Some (memory_of T')
      /\ length T' = length T
      /\ forall i : nat,
           T' !! i = if decide (j <= i < j + count)%nat
                     then g <$> T !! i else T !! i.
Proof.
  intros Hb. induction count as [|count IH]; intros j T Hlen.
  - exists T. split; [reflexivity|]. split; [reflexivity|].
    intros i. rewrite decide_False by lia. reflexivity.
  - destruct (lookup_lt_is_Some_2 T j ltac:(lia)) as [t Ht].
    simpl. rewrite (Hb j T t Ht).
    destruct (IH (S j) (<[j := g t]> T)) as (T' & Hrun & Hl & Hi).
    { rewrite length_insert. lia. }
    exists T'. split; [exact Hrun|].
    rewrite length_insert in Hl. split; [exact Hl|].
    intros i. rewrite Hi.
    destruct (decide (i = j)) as [->|Hne].
    + rewrite decide_False by lia. rewrite decide_True by lia.
      rewrite list_lookup_insert_eq by lia. now rewrite Ht.
    + rewrite list_lookup_insert_ne by congruence.
      destruct (decide (S j <= i < S j + count)%nat);
        destruct (decide (j <= i < j + S count)%nat); try reflexivity; lia.
Qed.

(** A whole-array loop maps [g] over the triples. *)
Lemma for_ssize_pointwise body g (n : Z) (T : cells) :
  pointwise body g ->
  Z.to_nat n = length T ->
  for_ssize n body (memory_of T) = Some (memory_of (g <$> T)).
Proof.
  intros Hb Hn. unfold for_ssize.
  destruct (for_loop_pointwise body g Hb (Z.to_nat n) 0 T ltac:(lia))
    as (T' & Hrun & Hl & Hi).
  rewrite Hrun. do 2 f_equal.
  apply list_eq. intros i. rewrite Hi, list_lookup_fmap.
  destruct (decide (0 <= i < 0 + Z.to_nat n)%nat) as [|Hout]; [reflexivity|].
  rewrite lookup_ge_None_2 by lia. reflexivity.
Qed.

Ltac solve_pointwise :=
  let j := fresh "j" in let T := fresh "T" in let H := fresh "H" in
  let x := fresh "x" in let y := fresh "y" in let z := fresh "z" in
  intros j T [[x y] z] H;
  unfold init_body, warmup_body, Copy_body, Scale_body, Add_body, Triad_body;
  unfold memory_of; cbn [mem_a mem_b mem_c];
  rewrite ?load_fmap, ?H; cbn [fmap option_fmap option_map mbind option_bind];
  repeat (erewrite store_fmap by exact H; cbn [mbind option_bind]);
  rewrite !list_fmap_insert; cbn [fst snd];
  repeat f_equal;
  exact (fmap_insert_id _ T j _ H).

Lemma init_pointwise : pointwise init_body init_cell.
Proof. solve_pointwise. Qed.

Lemma warmup_pointwise : pointwise warmup_body warmup_cell.
Proof. solve_pointwise. Qed.

Lemma Copy_pointwise scalar : pointwise Copy_body (kernel_cell scalar Copy).
Proof. solve_pointwise. Qed.

Lemma Scale_pointwise scalar :
  pointwise (Scale_body scalar) (kernel_cell scalar Scale).
Proof. solve_pointwise. Qed.

Lemma Add_pointwise scalar : pointwise Add_body (kernel_cell scalar Add).
Proof. solve_pointwise. Qed.

Lemma Triad_pointwise scalar :
  pointwise (Triad_body scalar) (kernel_cell scalar Triad).
Proof. solve_pointwise. Qed.

Lemma run_operation_cells scalar (n : Z) (op : operation) (T : cells) :
  Z.to_nat n = length T ->
  run_operation scalar n op (memory_of T)
  = Some (memory_of (match op with
                     | OpInit => init_cell
                     | OpWarmup => warmup_cell
                     | OpKernel k => kernel_cell scalar k
                     end <$> T)).
Proof.
  intros Hn. destruct op as [| |[]]; cbn [run_operation run_kernel];
    apply for_ssize_pointwise; auto using init_pointwise, warmup_pointwise,
      Copy_pointwise, Scale_pointwise, Add_pointwise, Triad_pointwise.
Qed.

(** One round of the four kernels on a triple: the body of the replay
    loop of [checkSTREAMresults]. *)
Lemma replay_body_kernels scalar (k : nat) (t : elt * elt * elt) :
  replay_body scalar k t
  = kernel_cell scalar Triad
      (kernel_cell scalar Add
         (kernel_cell scalar Scale (kernel_cell scalar Copy t))).
Proof. destruct t as [[x y] z]. reflexivity. Qed.

Lemma round_cells scalar (n : Z) (T : cells) :
  Z.to_nat n = length T ->
  round scalar n (memory_of T)
  = Some (memory_of (replay_body scalar 0 <$> T)).
Proof.
  intros Hn. unfold round.
  pose proof (run_operation_cells scalar n (OpKernel Copy) T Hn) as H1.
  cbn [run_operation run_kernel] in H1. rewrite H1. cbn [mbind option_bind].
  pose proof (run_operation_cells scalar n (OpKernel Scale)
                (kernel_cell scalar Copy <$> T)) as H2.
  cbn [run_operation run_kernel] in H2.
  rewrite H2 by (rewrite length_fmap; exact Hn). cbn [mbind option_bind].
  pose proof (run_operation_cells scalar n (OpKernel Add)
                (kernel_cell scalar Scale <$> (kernel_cell scalar Copy <$> T)))
    as H3.
  cbn [run_operation run_kernel] in H3.
  rewrite H3 by (rewrite !length_fmap; exact Hn). cbn [mbind option_bind].
  pose proof (run_operation_cells scalar n (OpKernel Triad)
                (kernel_cell scalar Add <$>
                   (kernel_cell scalar Scale <$>
                      (kernel_cell scalar Copy <$> T)))) as H4.
  cbn [run_operation run_kernel] in H4.
  rewrite H4 by (rewrite !length_fmap; exact Hn).
  do 2 f_equal. rewrite <- !list_fmap_compose.
  apply list_fmap_ext. intros i t _. cbn. now rewrite replay_body_kernels.
Qed.

Lemma rounds_loop_cells scalar (n : Z) (count k : nat) (T : cells) :
  Z.to_nat n = length T ->
  for_loop count k (fun _ => round scalar n) (memory_of T)
  = Some (memory_of (iter_loop count k (replay_body scalar) <$> T)).
Proof.
  revert k T. induction count as [|count IH]; intros k T Hn.
  - cbn. now rewrite list_fmap_id.
  - cbn [for_loop]. rewrite round_cells by exact Hn.
    rewrite IH by (rewrite length_fmap; exact Hn).
    do 2 f_equal. rewrite <- list_fmap_compose.
    apply list_fmap_ext. intros i t _. reflexivity.
Qed.

(** The arrays after initialisation, warm-up and [R] rounds: every
    triple is the triple of the scalar replay. *)
Lemma executor_cells (R n : Z) (T : cells) :
  Z.to_nat n = length T ->
  executor R n (memory_of T)
  = Some (memory_of (replicate (length T) (expected_values R))).
Proof.
  intros Hn. unfold executor.
  pose proof (run_operation_cells (elt_of_double 3.0) n OpInit T Hn) as H1.
  cbn [run_operation] in H1. rewrite H1. cbn [mbind option_bind].
  pose proof (run_operation_cells (elt_of_double 3.0) n OpWarmup
                (init_cell <$> T)) as H2.
  cbn [run_operation] in H2.
  rewrite H2 by (rewrite length_fmap; exact Hn). cbn [mbind option_bind].
  unfold rounds, for_ssize.
  rewrite rounds_loop_cells by (rewrite !length_fmap; exact Hn).
  do 2 f_equal. rewrite <- !list_fmap_compose.
  apply list_eq. intros i. rewrite list_lookup_fmap.
  destruct (T !! i) as [t|] eqn:Ht.
  - rewrite lookup_replicate_2 by (eapply lookup_lt_Some; eauto).
    reflexivity.
  - symmetry. apply lookup_replicate_None. now apply lookup_ge_None.
Qed.

(** ** Uniform arrays *)

Lemma uniform_replicate {A} (n : nat) (x : A) : uniform (replicate n x).
Proof.
  intros i j a b Ha Hb.
  apply lookup_replicate in Ha, Hb. destruct Ha, Hb. congruence.
Qed.

Lemma uniform_is_replicate {A} (l : list A) (d : A) :
  uniform l -> l = replicate (length l) (nth 0 l d).
Proof.
  intros Hu. apply list_eq. intros i.
  destruct (l !! i) as [x|] eqn:Hx.
  - rewrite lookup_replicate_2 by (eapply lookup_lt_Some; eauto).
    f_equal. destruct l as [|y l]; [discriminate|].
    cbn. exact (Hu i 0%nat x y Hx eq_refl).
  - symmetry. apply lookup_replicate_None. now apply lookup_ge_None.
Qed.

Lemma memory_of_replicate (n : nat) (x y z : elt) :
  memory_of (replicate n (x, y, z))
  = Memory (Some (replicate n x)) (Some (replicate n y)) (Some (replicate n z)).
Proof. unfold memory_of. now rewrite !fmap_replicate. Qed.

(** Uniform arrays are the arrays in which one triple is repeated. *)
Lemma uniform_memory_cells (n : nat) (m : memory) :
  uniform_memory n m <->
  exists t : elt * elt * elt, m = memory_of (replicate n t).
Proof.
  split.
  - intros (la & lb & lc & -> & Ha & Hb & Hc & Ua & Ub & Uc).
    set (d := elt_of_double 0.0).
    exists (nth 0 la d, nth 0 lb d, nth 0 lc d).
    rewrite memory_of_replicate.
    rewrite (uniform_is_replicate la d Ua) at 1.
    rewrite (uniform_is_replicate lb d Ub) at 1.
    rewrite (uniform_is_replicate lc d Uc) at 1.
    now rewrite Ha, Hb, Hc.
  - intros [[[x y] z] ->]. rewrite memory_of_replicate.
    exists (replicate n x), (replicate n y), (replicate n z).
    rewrite !length_replicate.
    repeat split; apply uniform_replicate.
Qed.

Lemma run_operation_uniform scalar (n : Z) (op : operation) (m : memory) :
  uniform_memory (Z.to_nat n) m ->
  exists m', run_operation scalar n op m = Some m'
             /\ uniform_memory (Z.to_nat n) m'.
Proof.
  intros Hu. apply uniform_memory_cells in Hu as [t ->].
  rewrite run_operation_cells by now rewrite length_replicate.
  eexists. split; [reflexivity|].
  apply uniform_memory_cells. rewrite fmap_replicate. eauto.
Qed.

Lemma init_arrays_uniform (n : Z) (m : memory) :
  sized (Z.to_nat n) m ->
  exists m', init_arrays n m = Some m' /\ uniform_memory (Z.to_nat n) m'.
Proof.
  intros Hs. apply sized_memory_of in Hs as (T & -> & Hl).
  pose proof (run_operation_cells (elt_of_double 0.0) n OpInit T
                ltac:(congruence)) as H.
  cbn [run_operation] in H. rewrite H.
  eexists. split; [reflexivity|].
  apply uniform_memory_cells.
  exists (init_cell (elt_of_double 0.0, elt_of_double 0.0, elt_of_double 0.0)).
  f_equal. apply list_eq. intros i. rewrite list_lookup_fmap.
  destruct (T !! i) as [t|] eqn:Ht.
  - rewrite lookup_replicate_2 by (rewrite <- Hl; eapply lookup_lt_Some; eauto).
    reflexivity.
  - symmetry. apply lookup_replicate_None. rewrite <- Hl.
    now apply lookup_ge_None.
Qed.

Lemma run_schedule_uniform scalar (n : Z) (ops : list operation) (m : memory) :
  uniform_memory (Z.to_nat n) m ->
  exists states,
    run_schedule scalar n ops m = Some states
    /\ length states = length ops
    /\ Forall (uniform_memory (Z.to_nat n)) states.
Proof.
  revert m. induction ops as [|op ops IH]; intros m Hu.
  - exists []. repeat split. constructor.
  - destruct (run_operation_uniform scalar n op m Hu) as (m' & Hrun & Hu').
    destruct (IH m' Hu') as (states & Hs & Hl & Hf).
    exists (m' :: states). cbn [run_schedule].
    rewrite Hrun. cbn [mbind option_bind]. rewrite Hs. cbn.
    repeat split; [now rewrite Hl | now constructor].
Qed.

Lemma one_round_cells scalar (n : Z) (k : nat) (T : cells)
    (ops : list operation) :
  Z.to_nat n = length T ->
  run_schedule scalar n (one_round ++ ops) (memory_of T)
  = rest ← run_schedule scalar n ops (memory_of (replay_body scalar k <$> T));
    Some (memory_of (kernel_cell scalar Copy <$> T)
          :: memory_of (kernel_cell scalar Scale <$>
                          (kernel_cell scalar Copy <$> T))
          :: memory_of (kernel_cell scalar Add <$>
                          (kernel_cell scalar Scale <$>
                             (kernel_cell scalar Copy <$> T)))
          :: memory_of (replay_body scalar k <$> T) :: rest).
Proof.
  intros Hn. unfold one_round. cbn [app run_schedule].
  rewrite (run_operation_cells scalar n (OpKernel Copy)) by exact Hn.
  cbn [mbind option_bind].
  rewrite (run_operation_cells scalar n (OpKernel Scale))
    by (rewrite length_fmap; exact Hn).
  cbn [mbind option_bind].
  rewrite (run_operation_cells scalar n (OpKernel Add))
    by (rewrite !length_fmap; exact Hn).
  cbn [mbind option_bind].
  rewrite (run_operation_cells scalar n (OpKernel Triad))
    by (rewrite !length_fmap; exact Hn).
  cbn [mbind option_bind].
  assert (E : kernel_cell scalar Triad <$>
                (kernel_cell scalar Add <$>
                   (kernel_cell scalar Scale <$>
                      (kernel_cell scalar Copy <$> T)))
              = replay_body scalar k <$> T).
  { rewrite <- !list_fmap_compose. apply list_fmap_ext.
    intros i t _. cbn. now rewrite replay_body_kernels. }
  rewrite E.
  destruct (run_schedule scalar n ops _); reflexivity.
Qed.

Lemma rounds_schedule_cells scalar (n : Z) (R k : nat) (T : cells) :
  Z.to_nat n = length T ->
  exists states,
    run_schedule scalar n (concat (repeat one_round R)) (memory_of T)
    = Some states
    /\ length states = (4 * R)%nat
    /\ last (memory_of T :: states)
       = Some (memory_of (iter_loop R k (replay_body scalar) <$> T)).
Proof.
  revert k T. induction R as [|R IH]; intros k T Hn.
  - exists []. cbn. now rewrite list_fmap_id.
  - cbn [repeat concat]. rewrite (one_round_cells scalar n k) by exact Hn.
    destruct (IH (S k) (replay_body scalar k <$> T)) as (states & Hs & Hl & Hlast).
    { rewrite length_fmap. exact Hn. }
    rewrite Hs. cbn [mbind option_bind]. eexists. split; [reflexivity|].
    split; [cbn; lia|].
    rewrite !last_cons_cons. rewrite Hlast.
    do 2 f_equal. rewrite <- list_fmap_compose.
    apply list_fmap_ext. intros i t _. reflexivity.
Qed.

End KernelProperties.

(** ** C1: the arrays agree with the scalar replay of the validation *)

(** C1.  For every element count [N >= 2] and repetition count
    [R >= 2], after the initialisation [a = 1, b = 2, c = 0], the
    warm-up [a = 2 * a] and [R] rounds of Copy, Scale, Add and Triad with
    [scalar = 3], every element of [a], [b] and [c] is equal to the
    value [aj], [bj], [cj] that [checkSTREAMresults] computes by its
    scalar replay of the same [R] rounds. *)
Theorem executor_matches_replay
    {ST : StreamType} (R N : Z) (m : memory) :
  2 <= N -> 2 <= R ->
  sized (Z.to_nat N) m ->
  let '(aj, bj, cj) := expected_values R in
  exists m' : memory,
    executor R N m = Some m'
    /\ forall j : nat, (j < Z.to_nat N)%nat ->
         load (mem_a m') j = Some aj
         /\ load (mem_b m') j = Some bj
         /\ load (mem_c m') j = Some cj.
Proof.
  intros _ _ Hs. apply sized_memory_of in Hs as (T & -> & Hl).
  rewrite executor_cells by congruence.
  destruct (expected_values R) as [[aj bj] cj].
  eexists. split; [reflexivity|].
  intros j Hj. rewrite memory_of_replicate. cbn [mem_a mem_b mem_c load mbind option_bind].
  rewrite !lookup_replicate_2 by lia. auto.
Qed.

Lemma executor_matches_replay_witness :
  exists m' : @memory stream_double,
    executor 2 2 (double_memory [0; 0]%float [0; 0]%float [0; 0]%float) = Some m'
    /\ forall j : nat, (j < 2)%nat ->
         load (mem_a m') j = Some (450%float : @elt stream_double)
         /\ load (mem_b m') j = Some (90%float : @elt stream_double)
         /\ load (mem_c m') j = Some (120%float : @elt stream_double).
Proof.
  exact (@executor_matches_replay stream_double 2 2
           (double_memory [0; 0]%float [0; 0]%float [0; 0]%float)
           ltac:(lia) ltac:(lia)
           ltac:(do 3 eexists; repeat split)).
Defined.

(** ** C10: elementwise uniformity is an invariant of the run *)

(** C10.  Immediately after the initialisation each of [a], [b], [c] is
    constant across its indices; the warm-up and each of the kernels
    Copy, Scale, Add and Triad preserve the property that
    [a[i] = a[j]], [b[i] = b[j]] and [c[i] = c[j]] for every pair of
    indices; hence the arrays are uniform after every operation of the
    run (whose last state is the one [executor] reaches), and each
    uniform array is determined by a single value. *)
Theorem uniformity_invariant
    {ST : StreamType} (R : nat) (n : Z) (m : memory) :
  sized (Z.to_nat n) m ->
  (exists m1, init_arrays n m = Some m1 /\ uniform_memory (Z.to_nat n) m1)
  /\ (forall scalar op m1,
        uniform_memory (Z.to_nat n) m1 ->
        exists m2, run_operation scalar n op m1 = Some m2
                   /\ uniform_memory (Z.to_nat n) m2)
  /\ (exists states,
        run_schedule (elt_of_double 3.0) n (schedule R) m = Some states
        /\ length states = (2 + 4 * R)%nat
        /\ Forall (uniform_memory (Z.to_nat n)) states
        /\ executor (Z.of_nat R) n m = last states)
  /\ (forall m1,
        uniform_memory (Z.to_nat n) m1 ->
        exists x y z : elt,
          m1 = Memory (Some (replicate (Z.to_nat n) x))
                      (Some (replicate (Z.to_nat n) y))
                      (Some (replicate (Z.to_nat n) z))).
Proof.
  intros Hs. split; [now apply init_arrays_uniform|].
  split; [intros scalar op m1; apply run_operation_uniform|].
  split.
  - destruct (init_arrays_uniform n m Hs) as (m1 & Hinit & Hu1).
    destruct (run_operation_uniform (elt_of_double 3.0) n OpWarmup m1 Hu1)
      as (m2 & Hwarm & Hu2).
    destruct (run_schedule_uniform (elt_of_double 3.0) n
                (concat (repeat one_round R)) m2 Hu2) as (states & Hrun & Hl & Hf).
    exists (m1 :: m2 :: states).
    unfold schedule. cbn [run_schedule run_operation].
    rewrite Hinit. cbn [mbind option_bind]. cbn [run_operation] in Hwarm.
    rewrite Hwarm. cbn [mbind option_bind]. rewrite Hrun. cbn [mbind option_bind].
    split; [reflexivity|].
    split.
    { cbn [length]. rewrite Hl.
      assert (length (concat (repeat one_round R)) = (4 * R)%nat) as ->; [|lia].
      clear. induction R as [|R IH]; [reflexivity|].
      cbn [repeat concat]. rewrite length_app, IH. cbn. lia. }
    split; [repeat constructor; assumption|].
    unfold executor. rewrite Hinit. cbn [mbind option_bind].
    rewrite Hwarm. cbn [mbind option_bind].
    apply uniform_memory_cells in Hu2 as [t ->].
    destruct (rounds_schedule_cells (elt_of_double 3.0) n R 0
                (replicate (Z.to_nat n) t)) as (states' & Hrun' & _ & Hlast).
    { now rewrite length_replicate. }
    rewrite Hrun in Hrun'. injection Hrun' as <-.
    rewrite last_cons_cons, Hlast.
    unfold rounds, for_ssize. rewrite Nat2Z.id.
    apply rounds_loop_cells. now rewrite length_replicate.
  - intros m1 Hu. apply uniform_memory_cells in Hu as [[[x y] z] ->].
    exists x, y, z. apply memory_of_replicate.
Qed.

Lemma uniformity_invariant_witness :
  exists states : list (@memory stream_double),
    @run_schedule stream_double 3%float 2 (schedule 1)
      (double_memory [5; 6]%float [7; 8]%float [9; 10]%float)
    = Some states
    /\ length states = 6%nat
    /\ Forall (uniform_memory 2) states.
Proof.
  destruct (@uniformity_invariant stream_double 1 2
              (double_memory [5; 6]%float [7; 8]%float [9; 10]%float)
              ltac:(do 3 eexists; repeat split))
    as (_ & _ & (states & Hrun & Hl & Hf & _) & _).
  exists states. auto.
Defined.

(** ** The loops of the validation *)

Section ValidationProperties.
Context {ST : StreamType}.

Lemma sum_loop (la lb lc : list elt) (aj bj cj : elt) (count j : nat) :
  (j + count <= length la)%nat ->
  length lb = length la -> length lc = length la ->
  for_loop count j (sum_body (Memory (Some la) (Some lb) (Some lc)) aj bj cj)
    (abs_err_sum (take j la) aj, abs_err_sum (take j lb) bj,
     abs_err_sum (take j lc) cj)
  = Some (abs_err_sum (take (j + count) la) aj,
          abs_err_sum (take (j + count) lb) bj,
          abs_err_sum (take (j + count) lc) cj).
Proof.
  revert j. induction count as [|count IH]; intros j Hj Hb Hc.
  - now rewrite Nat.add_0_r.
  - destruct (lookup_lt_is_Some_2 la j ltac:(lia)) as [x Hx].
    destruct (lookup_lt_is_Some_2 lb j ltac:(lia)) as [y Hy].
    destruct (lookup_lt_is_Some_2 lc j ltac:(lia)) as [z Hz].
    cbn [for_loop sum_body mem_a mem_b mem_c load mbind option_bind].
    rewrite Hx, Hy, Hz. cbn [mbind option_bind].
    replace (j + S count)%nat with (S j + count)%nat by lia.
    rewrite <- IH by lia.
    rewrite (take_S_r la j x Hx), (take_S_r lb j y Hy), (take_S_r lc j z Hz).
    unfold abs_err_sum. now rewrite !fold_left_app.
Qed.

Lemma sum_loop_all (n : Z) (la lb lc : list elt) (aj bj cj : elt) :
  length la = Z.to_nat n -> length lb = Z.to_nat n -> length lc = Z.to_nat n ->
  for_ssize n (sum_body (Memory (Some la) (Some lb) (Some lc)) aj bj cj)
    (elt_of_double 0.0, elt_of_double 0.0, elt_of_double 0.0)
  = Some (abs_err_sum la aj, abs_err_sum lb bj, abs_err_sum lc cj).
Proof.
  intros Ha Hb Hc. unfold for_ssize.
  pose proof (sum_loop la lb lc aj bj cj (Z.to_nat n) 0
                ltac:(lia) ltac:(lia) ltac:(lia)) as H.
  rewrite !take_0 in H. cbn [Nat.add] in H.
  unfold abs_err_sum at 1 2 3 in H. cbn [fold_left] in H.
  rewrite H. now rewrite !firstn_all2 by lia.
Qed.

Lemma filter_length_le {A} (f : A -> bool) (l : list A) :
  (length (List.filter f l) <= length l)%nat.
Proof.
  induction l as [|x l IH]; [reflexivity|].
  cbn. destruct (f x); cbn; lia.
Qed.

Lemma deviation_count_range (l : list elt) (xj : elt) (epsilon : float) :
  0 <= deviation_count l xj epsilon <= Z.of_nat (length l).
Proof.
  unfold deviation_count.
  pose proof (filter_length_le (deviates xj epsilon) l). lia.
Qed.

(** [ierr++] on an [int]: the counter counts modulo [2^32]. *)
Lemma int32_succ (a : Z) : int32 (int32 a + 1) = int32 (a + 1).
Proof.
  unfold int32, wrap_signed.
  replace ((a + 2 ^ (32 - 1)) mod 2 ^ 32 - 2 ^ (32 - 1) + 1 + 2 ^ (32 - 1))
    with ((a + 2 ^ (32 - 1)) mod 2 ^ 32 + 1) by lia.
  rewrite Z.add_mod_idemp_l by lia.
  now replace (a + 2 ^ (32 - 1) + 1) with (a + 1 + 2 ^ (32 - 1)) by lia.
Qed.

Lemma count_loop (l : list elt) (xj : elt) (epsilon : float) (count j : nat) :
  (j + count <= length l)%nat ->
  for_loop count j (count_body (Some l) xj epsilon)
    (int32 (deviation_count (take j l) xj epsilon))
  = Some (int32 (deviation_count (take (j + count) l) xj epsilon)).
Proof.
  revert j. induction count as [|count IH]; intros j Hj.
  - now rewrite Nat.add_0_r.
  - destruct (lookup_lt_is_Some_2 l j ltac:(lia)) as [x Hx].
    cbn [for_loop count_body load mbind option_bind].
    rewrite Hx. cbn [mbind option_bind].
    replace (j + S count)%nat with (S j + count)%nat by lia.
    rewrite <- IH by lia. f_equal.
    rewrite (take_S_r l j x Hx). unfold deviation_count.
    rewrite List.filter_app, length_app. cbn [List.filter].
    destruct (deviates xj epsilon x); cbn [length].
    + rewrite int32_succ. f_equal. lia.
    + do 2 f_equal. lia.
Qed.

Lemma count_loop_all (n : Z) (l : list elt) (xj : elt) (epsilon : float) :
  length l = Z.to_nat n ->
  for_ssize n (count_body (Some l) xj epsilon) 0
  = Some (int32 (deviation_count l xj epsilon)).
Proof.
  intros Hl. unfold for_ssize.
  pose proof (count_loop l xj epsilon (Z.to_nat n) 0 ltac:(lia)) as H.
  rewrite take_0 in H. cbn [Nat.add] in H. unfold deviation_count at 1 in H.
  cbn [List.filter length] in H. change (int32 (Z.of_nat 0)) with 0 in H.
  rewrite H. now rewrite firstn_all2 by lia.
Qed.

(** One block of the validation, in closed form. *)
Lemma check_array_spec (name : string) (extra : bool) (l : list elt)
    (xj xAvgErr : elt) (epsilon : float) (n err : Z) :
  length l = Z.to_nat n ->
  check_array name extra (Some l) xj xAvgErr epsilon n err
  = Some (if exceeds xAvgErr xj epsilon
          then ([MsgFailed name epsilon;
                 MsgExpected (double_of_elt xj) (double_of_elt xAvgErr)
                   (double_of_elt (elt_div (abs_elt xAvgErr) xj))]
                ++ (if extra then [MsgAvgRelAbsErr epsilon] else [])
                ++ [MsgErrorsFound name (int32 (deviation_count l xj epsilon))],
                int32 (err + 1))
          else ([], err)).
Proof.
  intros Hl. unfold check_array.
  destruct (exceeds xAvgErr xj epsilon); [|reflexivity].
  now rewrite count_loop_all.
Qed.

Lemma epsilon_messages_plain (size : Z) (m : message) :
  In m (epsilon_messages size) -> m = MsgWeird size.
Proof.
  unfold epsilon_messages.
  destruct (size =? 4); [intros []|].
  destruct (size =? 8); [intros []|].
  intros [<-|[]]. reflexivity.
Qed.

(** The output of [checkSTREAMresults] in closed form; the number of
    errors of a failed array is printed from an [int]. *)
Lemma checkSTREAMresults_spec (R n : Z) (la lb lc : list elt) :
  length la = Z.to_nat n -> length lb = Z.to_nat n -> length lc = Z.to_nat n ->
  let '(aj, bj, cj) := expected_values R in
  let epsilon := epsilon_of sizeof_elt in
  let block (name : string) (extra : bool) (l : list elt) (e : elt) :=
    if buffer_fails l e n epsilon
    then [MsgFailed name epsilon;
          MsgExpected (double_of_elt e) (double_of_elt (avg_abs_err l e n))
            (double_of_elt (elt_div (abs_elt (avg_abs_err l e n)) e))]
         ++ (if extra then [MsgAvgRelAbsErr epsilon] else [])
         ++ [MsgErrorsFound name (int32 (deviation_count l e epsilon))]
    else [] in
  checkSTREAMresults R n (Memory (Some la) (Some lb) (Some lc))
  = Some (epsilon_messages sizeof_elt
          ++ block "a"%string false la aj
          ++ block "b"%string true lb bj
          ++ block "c"%string true lc cj
          ++ (if buffer_fails la aj n epsilon || buffer_fails lb bj n epsilon
                 || buffer_fails lc cj n epsilon
              then [] else [MsgValidates epsilon])).
Proof.
  intros Ha Hb Hc. unfold checkSTREAMresults.
  destruct (expected_values R) as [[aj bj] cj]. cbv zeta.
  rewrite sum_loop_all by assumption. cbn [mbind option_bind mem_a mem_b mem_c].
  unfold buffer_fails, avg_abs_err.
  rewrite (check_array_spec "a") by assumption.
  destruct (exceeds _ aj _); cbn [mbind option_bind];
    rewrite (check_array_spec "b") by assumption;
    destruct (exceeds _ bj _); cbn [mbind option_bind];
    rewrite (check_array_spec "c") by assumption;
    destruct (exceeds _ cj _); cbn [mbind option_bind orb]; reflexivity.
Qed.

End ValidationProperties.

(** ** C2: what the validation declares and counts *)

(** What C2 states holds for arrays of at most [INT_MAX] elements.  For
    each buffer [X] among [a], [b], [c], with expected value [e], the
    validation computes [avgAbsErr = (sum of |X[i] - e|) / n] and
    declares the buffer failed exactly when
    [|avgAbsErr / e| > epsilon], where [epsilon] is 1e-6 for 4-byte
    elements and 1e-13 for 8-byte elements; for a failed buffer it
    reports the number of elements [i] with [|X[i]/e - 1.0| > epsilon];
    and the overall outcome fails (the message that the solution
    validates is absent) if and only if at least one of the three
    buffers fails. *)
Theorem validation_outcome
    {ST : StreamType} (R n : Z) (la lb lc : list elt) :
  length la = Z.to_nat n -> length lb = Z.to_nat n -> length lc = Z.to_nat n ->
  n <= INT_MAX ->
  let '(aj, bj, cj) := expected_values R in
  let epsilon := epsilon_of sizeof_elt in
  (sizeof_elt = 4 -> epsilon = 1e-6%float)
  /\ (sizeof_elt = 8 -> epsilon = 1e-13%float)
  /\ exists out : list message,
       checkSTREAMresults R n (Memory (Some la) (Some lb) (Some lc)) = Some out
       /\ reports_buffer out "a" la aj n epsilon
       /\ reports_buffer out "b" lb bj n epsilon
       /\ reports_buffer out "c" lc cj n epsilon
       /\ (~ In (MsgValidates epsilon) out <->
           buffer_fails la aj n epsilon = true
           \/ buffer_fails lb bj n epsilon = true
           \/ buffer_fails lc cj n epsilon = true).
Proof.
  intros Ha Hb Hc Hmax.
  pose proof (checkSTREAMresults_spec R n la lb lc Ha Hb Hc) as Hout.
  destruct (expected_values R) as [[aj bj] cj]. cbv beta zeta in Hout |- *.
  assert (Hr : forall (l : list elt) (e : elt),
             length l = Z.to_nat n ->
             int32 (deviation_count l e (epsilon_of sizeof_elt))
             = deviation_count l e (epsilon_of sizeof_elt)).
  { intros l e Hl. apply int32_id.
    pose proof (deviation_count_range l e (epsilon_of sizeof_elt)).
    unfold INT_MIN, INT_MAX in *. lia. }
  rewrite !Hr in Hout by assumption. clear Hr.
  split; [intros ->; reflexivity|].
  split; [intros ->; reflexivity|].
  eexists. split; [exact Hout|].
  set (epsilon := epsilon_of sizeof_elt).
  assert (Hin : forall (m : message) (L : list message),
             (forall size, m <> MsgWeird size) ->
             In m (epsilon_messages sizeof_elt ++ L) <-> In m L).
  { intros m L Hm. rewrite in_app_iff. split; [|tauto].
    intros [H|H]; [|exact H].
    apply epsilon_messages_plain in H. now destruct (Hm sizeof_elt). }
  unfold reports_buffer.
  destruct (buffer_fails la aj n epsilon), (buffer_fails lb bj n epsilon),
    (buffer_fails lc cj n epsilon);
    cbn [orb app];
    repeat split; intros;
    repeat match goal with
    | H : context [In _ (epsilon_messages _ ++ _)] |- _ =>
        rewrite Hin in H by (intro; discriminate)
    | |- context [In _ (epsilon_messages _ ++ _)] =>
        rewrite Hin by (intro; discriminate)
    end;
    cbn [In] in *; intuition congruence.
Qed.

Lemma validation_outcome_witness :
  exists out : list message,
    @checkSTREAMresults stream_double 10 4
      (double_memory
         [1153300781250; 1153300781250; 1153300781250; 1153300781250]%float
         [230660156250; 230660156250; 230660156250; 230660156250]%float
         [307546875000; 307546875000; 0; 307546875000]%float)
    = Some out
    /\ ~ In (MsgFailed "a" 1e-13%float) out
    /\ ~ In (MsgFailed "b" 1e-13%float) out
    /\ In (MsgFailed "c" 1e-13%float) out
    /\ In (MsgErrorsFound "c" 1) out
    /\ ~ In (MsgValidates 1e-13%float) out.
Proof.
  pose proof (@validation_outcome stream_double 10 4
    [1153300781250; 1153300781250; 1153300781250; 1153300781250]%float
    [230660156250; 230660156250; 230660156250; 230660156250]%float
    [307546875000; 307546875000; 0; 307546875000]%float
    ltac:(reflexivity) ltac:(reflexivity) ltac:(reflexivity)
    ltac:(unfold INT_MAX; lia)) as H.
  cbv beta iota zeta delta [expected_values] in H.
  vm_compute (iter_loop _ _ _ _) in H.
  destruct H as (_ & _ & out & Hout & [Ha _] & [Hb _] & [Hc Hk] & Hv).
  exists out. split; [exact Hout|].
  split; [intros Hi; apply Ha in Hi; vm_compute in Hi; discriminate|].
  split; [intros Hi; apply Hb in Hi; vm_compute in Hi; discriminate|].
  split; [apply Hc; vm_compute; reflexivity|].
  split; [apply Hk; split; vm_compute; reflexivity|].
  apply Hv. right. right. vm_compute. reflexivity.
Defined.

(** ** The count of errors beyond [INT_MAX] elements *)

Lemma fold_left_replicate_fixed {A B : Type} (f : A -> B -> A) (x : B)
    (acc acc' : A) (N : nat) :
  f acc x = acc' -> f acc' x = acc' -> (0 < N)%nat ->
  fold_left f (replicate N x) acc = acc'.
Proof.
  intros H1 H2 HN. destruct N as [|N]; [lia|]. clear HN.
  cbn [replicate fold_left]. rewrite H1. clear H1.
  induction N as [|N IH]; [reflexivity|].
  cbn [replicate fold_left]. now rewrite H2.
Qed.

Lemma filter_replicate_true {A : Type} (p : A -> bool) (x : A) (N : nat) :
  p x = true -> List.filter p (replicate N x) = replicate N x.
Proof.
  intros H. induction N as [|N IH]; [reflexivity|].
  cbn [replicate List.filter]. now rewrite H, IH.
Qed.

(** The validation of arrays of [2^31] doubles of which [a] holds
    [+infinity] in every element, [b] and [c] the expected values. *)
Lemma overflowed_a_report (N : nat) :
  Z.of_nat N = 2147483648 ->
  let la := replicate N infinity in
  let lb := replicate N 230660156250%float in
  let lc := replicate N 307546875000%float in
  @deviation_count stream_double la 1153300781250%float 1e-13%float
  = 2147483648
  /\ @checkSTREAMresults stream_double 10 2147483648 (double_memory la lb lc)
     = Some [MsgFailed "a" 1e-13%float;
             MsgExpected 1153300781250%float infinity infinity;
             MsgErrorsFound "a" (-2147483648)].
Proof.
  intros HN la lb lc.
  assert (Hpos : (0 < N)%nat) by lia.
  assert (Dc : @deviation_count stream_double la 1153300781250%float 1e-13%float
               = 2147483648).
  { unfold deviation_count, la.
    rewrite filter_replicate_true by (vm_compute; reflexivity).
    now rewrite length_replicate. }
  split; [exact Dc|].
  assert (Sa : @abs_err_sum stream_double la 1153300781250%float = infinity).
  { unfold abs_err_sum, la.
    apply fold_left_replicate_fixed; [vm_compute; reflexivity ..|exact Hpos]. }
  assert (Sb : @abs_err_sum stream_double lb 230660156250%float = 0%float).
  { unfold abs_err_sum, lb.
    apply fold_left_replicate_fixed; [vm_compute; reflexivity ..|exact Hpos]. }
  assert (Sc : @abs_err_sum stream_double lc 307546875000%float = 0%float).
  { unfold abs_err_sum, lc.
    apply fold_left_replicate_fixed; [vm_compute; reflexivity ..|exact Hpos]. }
  assert (Hl : forall x : float, length (replicate N x) = Z.to_nat 2147483648).
  { intros x. rewrite length_replicate, <- HN. now rewrite Nat2Z.id. }
  pose proof (@checkSTREAMresults_spec stream_double 10 2147483648 la lb lc
                (Hl _) (Hl _) (Hl _)) as Hout.
  cbv beta iota zeta delta [expected_values] in Hout.
  vm_compute (iter_loop _ _ _ _) in Hout.
  cbv beta iota zeta in Hout.
  change (epsilon_of (@sizeof_elt stream_double)) with 1e-13%float in Hout.
  unfold buffer_fails, avg_abs_err in Hout.
  rewrite Sa, Sb, Sc, Dc in Hout.
  unfold double_memory, doubles. refine (eq_trans Hout _). vm_compute. reflexivity.
Qed.

(** C2.  The loop that counts the deviating elements of a failed buffer
    runs over an [ssize_t] index and counts in an [int].  For arrays of
    [2^31] doubles after 10 rounds, with [+infinity] in every element of
    [a] and the expected values in [b] and [c], the number of elements
    [i] with [|a[i]/e - 1.0| > epsilon] is 2147483648: the validation
    declares [a] failed and prints -2147483648 as its number of errors,
    not the count that C2 describes. *)
Theorem error_count_overflows :
  let n := 2147483648 in
  let la := replicate (Z.to_nat n) infinity in
  let lb := replicate (Z.to_nat n) 230660156250%float in
  let lc := replicate (Z.to_nat n) 307546875000%float in
  @expected_values stream_double 10
  = (1153300781250, 230660156250, 307546875000)%float
  /\ @deviation_count stream_double la 1153300781250%float 1e-13%float
     = 2147483648
  /\ exists out : list message,
       @checkSTREAMresults stream_double 10 n (double_memory la lb lc)
       = Some out
       /\ In (MsgFailed "a" 1e-13%float) out
       /\ In (MsgErrorsFound "a" (-2147483648)) out
       /\ ~ In (MsgErrorsFound "a" 2147483648) out
       /\ ~ @reports_buffer stream_double out "a" la 1153300781250%float n 1e-13%float.
Proof.
  intros n la lb lc.
  split; [vm_compute; reflexivity|].
  destruct (overflowed_a_report (Z.to_nat 2147483648))
    as [Dc Hout]; [apply Z2Nat.id; discriminate|].
  split; [exact Dc|].
  eexists. split; [exact Hout|].
  split; [left; reflexivity|].
  split; [right; right; left; reflexivity|].
  assert (Hno : ~ In (MsgErrorsFound "a" 2147483648)
                    [MsgFailed "a" 1e-13%float;
                     MsgExpected 1153300781250%float infinity infinity;
                     MsgErrorsFound "a" (-2147483648)]).
  { intros [H|[H|[H|[]]]]; discriminate H. }
  split; [exact Hno|].
  intros [Hf Hk]. apply Hno, Hk. split; [|symmetry; exact Dc].
  apply Hf. left. reflexivity.
Qed.

(** ** The order of doubles *)

Lemma SFcompare_key (x y : spec_float) :
  x <> S754_nan -> y <> S754_nan ->
  exists c : comparison,
    SFcompare x y = Some c
    /\ (c = Lt <-> key_lt (SFkey x) (SFkey y))
    /\ (c = Gt <-> key_lt (SFkey y) (SFkey x)).
Proof.
  intros Hx Hy.
  destruct x as [sx|sx| |sx mx ex], y as [sy|sy| |sy my ey]; try congruence;
    try destruct sx; try destruct sy; cbn [SFcompare SFkey key_lt];
    try (eexists; split; [reflexivity|]; split; split;
         (discriminate || lia || reflexivity)).
  - change (Pos.compare_cont Eq mx my) with (Pos.compare mx my).
    destruct (Z.compare_spec ex ey), (Pos.compare_spec mx my);
      eexists; (split; [reflexivity|]); cbn [CompOpp];
      split; split; (discriminate || lia || reflexivity || idtac).
  - change (Pos.compare_cont Eq mx my) with (Pos.compare mx my).
    destruct (Z.compare_spec ex ey), (Pos.compare_spec mx my);
      eexists; (split; [reflexivity|]); cbn [CompOpp];
      split; split; (discriminate || lia || reflexivity || idtac).
Qed.

Lemma is_number_spec (x : float) :
  is_number x = true <-> Prim2SF x <> S754_nan.
Proof.
  unfold is_number. destruct (Prim2SF x); split; congruence.
Qed.

Lemma SFnan_cases (a b : spec_float) :
  a = S754_nan \/ b = S754_nan \/ (a <> S754_nan /\ b <> S754_nan).
Proof.
  destruct a, b; auto; right; right; split; discriminate.
Qed.

Lemma SFltb_key (a b : spec_float) :
  SFltb a b = true <->
  a <> S754_nan /\ b <> S754_nan /\ key_lt (SFkey a) (SFkey b).
Proof.
  unfold SFltb. destruct (SFnan_cases a b) as [->|[->|[Ha Hb]]].
  - cbn. split; [discriminate | intros (H & _); congruence].
  - destruct a; cbn; (split; [discriminate | intros (_ & H & _); congruence]).
  - destruct (SFcompare_key a b Ha Hb) as (c & -> & HLt & HGt).
    split.
    + intros H. repeat split; auto. apply HLt. destruct c; congruence.
    + intros (_ & _ & H). apply HLt in H. now rewrite H.
Qed.

Lemma SFleb_key (a b : spec_float) :
  SFleb a b = true <->
  a <> S754_nan /\ b <> S754_nan /\ ~ key_lt (SFkey b) (SFkey a).
Proof.
  unfold SFleb. destruct (SFnan_cases a b) as [->|[->|[Ha Hb]]].
  - cbn. split; [discriminate | intros (H & _); congruence].
  - destruct a; cbn; (split; [discriminate | intros (_ & H & _); congruence]).
  - destruct (SFcompare_key a b Ha Hb) as (c & -> & HLt & HGt).
    split.
    + intros H. repeat split; auto. intros Hk.
      apply HGt in Hk. subst c. discriminate.
    + intros (_ & _ & H). destruct c; try reflexivity.
      destruct H. now apply HGt.
Qed.

Lemma ltb_key (x y : float) :
  (x <? y)%float = true <->
  is_number x = true /\ is_number y = true /\ key_lt (dkey x) (dkey y).
Proof. rewrite ltb_spec, !is_number_spec. apply SFltb_key. Qed.

Lemma leb_key (x y : float) :
  (x <=? y)%float = true <->
  is_number x = true /\ is_number y = true /\ ~ key_lt (dkey y) (dkey x).
Proof. rewrite leb_spec, !is_number_spec. apply SFleb_key. Qed.

Lemma key_lt_cases (k1 k2 : Z * Z * Z) :
  key_lt k1 k2 \/ k1 = k2 \/ key_lt k2 k1.
Proof.
  destruct k1 as [[a1 b1] c1], k2 as [[a2 b2] c2]. unfold key_lt.
  destruct (Z.lt_total a1 a2) as [|[->|]]; [lia| |lia].
  destruct (Z.lt_total b1 b2) as [|[->|]]; [lia| |lia].
  destruct (Z.lt_total c1 c2) as [|[->|]]; [lia| |lia].
  auto.
Qed.

Lemma key_lt_trans (k1 k2 k3 : Z * Z * Z) :
  key_lt k1 k2 -> key_lt k2 k3 -> key_lt k1 k3.
Proof.
  destruct k1 as [[a1 b1] c1], k2 as [[a2 b2] c2], k3 as [[a3 b3] c3].
  unfold key_lt. lia.
Qed.

Lemma key_lt_irrefl (k : Z * Z * Z) : ~ key_lt k k.
Proof. destruct k as [[a b] c]. unfold key_lt. lia. Qed.

Lemma key_le_lt_trans (k1 k2 k3 : Z * Z * Z) :
  ~ key_lt k2 k1 -> key_lt k2 k3 -> key_lt k1 k3.
Proof.
  intros H12 H23. destruct (key_lt_cases k1 k2) as [H|[->|H]];
    [eapply key_lt_trans; eauto | exact H23 | contradiction].
Qed.

Lemma key_le_trans (k1 k2 k3 : Z * Z * Z) :
  ~ key_lt k2 k1 -> ~ key_lt k3 k2 -> ~ key_lt k3 k1.
Proof.
  intros H12 H23 H31. apply H12. eapply key_le_lt_trans; eauto.
Qed.

(** [leb] and [ltb] form a total preorder on the numbers. *)
Lemma leb_refl (x : float) : is_number x = true -> (x <=? x)%float = true.
Proof. intros H. apply leb_key. auto using key_lt_irrefl. Qed.

Lemma leb_trans (x y z : float) :
  (x <=? y)%float = true -> (y <=? z)%float = true -> (x <=? z)%float = true.
Proof.
  rewrite !leb_key. intros (Hx & Hy & H1) (_ & Hz & H2).
  eauto using key_le_trans.
Qed.

Lemma leb_ltb_trans (x y z : float) :
  (x <=? y)%float = true -> (y <? z)%float = true -> (x <? z)%float = true.
Proof.
  rewrite !leb_key, !ltb_key. intros (Hx & Hy & H1) (_ & Hz & H2).
  eauto using key_le_lt_trans.
Qed.

Lemma ltb_leb (x y : float) :
  (x <? y)%float = true -> (x <=? y)%float = true.
Proof.
  rewrite leb_key, ltb_key. intros (Hx & Hy & H). repeat split; auto.
  intros H'. exact (key_lt_irrefl _ (key_lt_trans _ _ _ H H')).
Qed.

Lemma ltb_false_leb (x y : float) :
  is_number x = true -> is_number y = true ->
  (x <? y)%float = false -> (y <=? x)%float = true.
Proof.
  intros Hx Hy H. apply leb_key. repeat split; auto.
  intros Hk. assert ((x <? y)%float = true) by (apply ltb_key; auto).
  congruence.
Qed.

Lemma leb_ltb_false (x y : float) :
  (x <=? y)%float = true -> (y <? x)%float = false.
Proof.
  intros H. apply leb_key in H as (_ & _ & H).
  destruct (y <? x)%float eqn:E; [|reflexivity].
  apply ltb_key in E as (_ & _ & E). contradiction.
Qed.

Lemma leb_is_number (x y : float) :
  (x <=? y)%float = true -> is_number x = true /\ is_number y = true.
Proof. rewrite leb_key. tauto. Qed.

(** Two finite doubles that compare equal have a zero difference. *)
Lemma SFsub_same_key (a b : spec_float) :
  match a with S754_zero _ | S754_finite _ _ _ => True | _ => False end ->
  match b with S754_zero _ | S754_finite _ _ _ => True | _ => False end ->
  SFkey a = SFkey b ->
  exists s : bool, SF64sub b a = S754_zero s.
Proof.
  destruct a as [sa| | |sa ma ea], b as [sb| | |sb mb eb];
    try contradiction; intros _ _ Hk.
  - destruct sa, sb; cbn; eauto.
  - destruct sb; discriminate Hk.
  - destruct sa; discriminate Hk.
  - assert (sa = sb /\ ma = mb /\ ea = eb) as (-> & -> & ->).
    { destruct sa, sb; cbn in Hk; try discriminate Hk;
        injection Hk as He Hm; repeat split; lia. }
    exists false. unfold SF64sub, SFsub.
    rewrite Z.sub_diag. reflexivity.
Qed.

Lemma finite_double_spec (x : float) :
  finite_double x = true ->
  match Prim2SF x with S754_zero _ | S754_finite _ _ _ => True | _ => False end.
Proof. unfold finite_double. destruct (Prim2SF x); auto; discriminate. Qed.

Lemma finite_is_number (x : float) :
  finite_double x = true -> is_number x = true.
Proof. unfold finite_double, is_number. destruct (Prim2SF x); auto. Qed.

(** The test of the busy-wait of [checktick]: when a later reading [y]
    of a monotonic clock is at least a microsecond after [x], it is
    strictly later. *)
Lemma advance_is_strict (x y : float) :
  finite_double x = true -> finite_double y = true ->
  (x <=? y)%float = true ->
  (y - x <? 1.0E-6)%float = false ->
  (x <? y)%float = true.
Proof.
  intros Fx Fy Hle Hadv.
  destruct (x <? y)%float eqn:Hlt; [reflexivity|exfalso].
  apply leb_key in Hle as (Nx & Ny & Hle).
  assert (Hk : dkey x = dkey y).
  { destruct (key_lt_cases (dkey x) (dkey y)) as [H|[H|H]];
      [|exact H|contradiction].
    assert ((x <? y)%float = true) by (apply ltb_key; auto). congruence. }
  destruct (SFsub_same_key (Prim2SF x) (Prim2SF y)
              (finite_double_spec x Fx) (finite_double_spec y Fy) Hk)
    as [s Hs].
  rewrite ltb_spec, sub_spec, Hs in Hadv.
  destruct s; vm_compute in Hadv; discriminate Hadv.
Qed.

(** ** The timing summary *)

Lemma iter_loop_S {St : Type} (count k : nat) (body : nat -> St -> St) (s : St) :
  iter_loop (S count) k body s = iter_loop count (S k) body (body k s).
Proof. reflexivity. Qed.

(** One turn of the outer loop of the summary on the four rows. *)
Lemma summary_turn (times : list (list float)) (k : nat)
    (a0 a1 a2 a3 m0 m1 m2 m3 x0 x1 x2 x3 : float) :
  iter_loop 4 0 (summary_body times k)
    (Statistics [a0; a1; a2; a3] [m0; m1; m2; m3] [x0; x1; x2; x3])
  = Statistics
      [a0 + get_time times 0 k; a1 + get_time times 1 k;
       a2 + get_time times 2 k; a3 + get_time times 3 k]%float
      [MINd m0 (get_time times 0 k); MINd m1 (get_time times 1 k);
       MINd m2 (get_time times 2 k); MINd m3 (get_time times 3 k)]
      [MAXd x0 (get_time times 0 k); MAXd x1 (get_time times 1 k);
       MAXd x2 (get_time times 2 k); MAXd x3 (get_time times 3 k)].
Proof. reflexivity. Qed.

Lemma summary_loop (times : list (list float)) (count k : nat)
    (a0 a1 a2 a3 m0 m1 m2 m3 x0 x1 x2 x3 : float) :
  iter_loop count k (fun k st => iter_loop 4 0 (summary_body times k) st)
    (Statistics [a0; a1; a2; a3] [m0; m1; m2; m3] [x0; x1; x2; x3])
  = Statistics
      [fold_left PrimFloat.add (samples times 0 k count) a0;
       fold_left PrimFloat.add (samples times 1 k count) a1;
       fold_left PrimFloat.add (samples times 2 k count) a2;
       fold_left PrimFloat.add (samples times 3 k count) a3]
      [fold_left MINd (samples times 0 k count) m0;
       fold_left MINd (samples times 1 k count) m1;
       fold_left MINd (samples times 2 k count) m2;
       fold_left MINd (samples times 3 k count) m3]
      [fold_left MAXd (samples times 0 k count) x0;
       fold_left MAXd (samples times 1 k count) x1;
       fold_left MAXd (samples times 2 k count) x2;
       fold_left MAXd (samples times 3 k count) x3].
Proof.
  revert k a0 a1 a2 a3 m0 m1 m2 m3 x0 x1 x2 x3.
  induction count as [|count IH]; intros; [reflexivity|].
  rewrite iter_loop_S, summary_turn, IH. reflexivity.
Qed.

(** [mintime[j]] after the summary is the fold of [MIN] over the
    repetitions 1 to [R - 1], from [FLT_MAX]. *)
Lemma summary_mintime (R : Z) (times : list (list float)) (j : nat) :
  (j < 4)%nat ->
  nth j (mintime (summary R times)) 0%float
  = fold_left MINd (samples times j 1 (Z.to_nat R - 1)) FLT_MAX.
Proof.
  intros Hj. unfold summary, initial_statistics. rewrite summary_loop.
  destruct j as [|[|[|[|j]]]]; try reflexivity. lia.
Qed.

(** The fold of [MIN] returns its start value or one of the samples,
    and a lower bound of all of them. *)
Lemma fold_MINd (l : list float) (acc : float) :
  is_number acc = true ->
  (forall t, In t l -> is_number t = true) ->
  let m := fold_left MINd l acc in
  (m = acc \/ In m l)
  /\ (m <=? acc)%float = true
  /\ forall t, In t l -> (m <=? t)%float = true.
Proof.
  revert acc. induction l as [|t l IH]; intros acc Hacc Hl; cbn [fold_left].
  - split; [now left|]. split; [now apply leb_refl|]. intros t [].
  - assert (Ht : is_number t = true) by (apply Hl; now left).
    assert (Hm : is_number (MINd acc t) = true)
      by (unfold MINd; destruct (acc <? t)%float; assumption).
    destruct (IH (MINd acc t) Hm ltac:(intros; apply Hl; now right))
      as (Hin & Hle & Hall).
    assert (Hacc' : (MINd acc t <=? acc)%float = true
                    /\ (MINd acc t <=? t)%float = true).
    { unfold MINd. destruct (acc <? t)%float eqn:E.
      - split; [now apply leb_refl | now apply ltb_leb].
      - split; [now apply ltb_false_leb | now apply leb_refl]. }
    destruct Hacc' as [H1 H2].
    split; [|split].
    + destruct Hin as [->|Hin]; [|right; now right].
      unfold MINd. destruct (acc <? t)%float; [now left | right; now left].
    + eapply leb_trans; eauto.
    + intros t' [<-|Hin']; [eapply leb_trans; eauto | now apply Hall].
Qed.

(** The minimum over non-empty samples that do not exceed the start
    value [FLT_MAX] is one of the samples. *)
Lemma fold_MINd_FLT_MAX (l : list float) :
  l <> [] ->
  (forall t, In t l -> (t <=? FLT_MAX)%float = true) ->
  let m := fold_left MINd l FLT_MAX in
  In m l /\ forall t, In t l -> (m <=? t)%float = true.
Proof.
  intros Hne Hl. destruct l as [|t l]; [congruence|]. cbn [fold_left].
  assert (Hn : forall t', In t' (t :: l) -> is_number t' = true).
  { intros t' Hin. now apply Hl, leb_is_number in Hin. }
  assert (E : MINd FLT_MAX t = t).
  { unfold MINd. rewrite leb_ltb_false; [reflexivity|]. apply Hl. now left. }
  rewrite E.
  destruct (fold_MINd l t (Hn t ltac:(now left))
              ltac:(intros; apply Hn; now right)) as (Hin & Hle & Hall).
  split.
  - destruct Hin as [->|Hin]; [now left | now right].
  - intros t' [<-|Hin']; [exact Hle | now apply Hall].
Qed.

Lemma NTIMES_ge_2 (cfg : config) : 2 <= NTIMES cfg.
Proof. unfold NTIMES. destruct (Z.leb_spec (cfg_NTIMES cfg) 1); lia. Qed.

(** ** C3: the reported bandwidth *)

(** C3 (as amended).  For every kernel [j] (Copy, Scale, Add, Triad)
    the rate printed in the table is [1e-6 * bytesMoved / minTime],
    where [minTime] is the minimum of the elapsed times of the
    repetitions 1 to [NTIMES - 1] (repetition 0 is excluded; the times
    are numbers not above [FLT_MAX], the start value of [mintime]) and
    [bytesMoved] is 2 times the size of a buffer in bytes for Copy and
    Scale and 3 times that size for Add and Triad, provided
    [bytesMoved], an [ssize_t], does not exceed [SSIZE_MAX].  In
    particular with 8-byte elements, 10,000,000 elements in a buffer and
    a minimal Copy time of 0.01 s the rate printed for Copy is 16000. *)
Theorem reported_bandwidth
    {ST : StreamType} (cfg : config) (env : environment)
    (times : list (list float)) (j : nat) :
  (j < 4)%nat ->
  nth j [2; 2; 3; 3] 0 * usize (buffer_size cfg env) <= SSIZE_MAX ->
  (forall t, In t (samples times j 1 (Z.to_nat (NTIMES cfg) - 1)) ->
             (t <=? FLT_MAX)%float = true) ->
  (exists avg mn mx : float,
      nth j (table (NTIMES cfg) (bytes_of (buffer_size cfg env))
               (summary (NTIMES cfg) times)) MsgHline
      = MsgTableRow (nth j label ""%string)
          (1.0E-06
           * double_of_Z (nth j [2; 2; 3; 3] 0 * usize (buffer_size cfg env))%Z
           / mn)%float
          avg mn mx
      /\ In mn (samples times j 1 (Z.to_nat (NTIMES cfg) - 1))
      /\ forall t, In t (samples times j 1 (Z.to_nat (NTIMES cfg) - 1)) ->
                   (mn <=? t)%float = true)
  /\ (forall (R : Z) (st : statistics),
        nth 0 (mintime st) 0%float = 0.01%float ->
        exists avg mx : float,
          nth 0 (table R (bytes_of (@sizeof_elt stream_double * 10000000)) st)
            MsgHline
          = MsgTableRow "Copy:      " 16000 avg 0.01 mx).
Proof.
  intros Hj Hmax Hs. split.
  - pose proof (NTIMES_ge_2 cfg) as HR.
    destruct (fold_MINd_FLT_MAX (samples times j 1 (Z.to_nat (NTIMES cfg) - 1)))
      as (Hin & Hmin).
    { unfold samples. destruct (Z.to_nat (NTIMES cfg) - 1)%nat eqn:E; [lia|].
      discriminate. }
    { exact Hs. }
    rewrite <- (summary_mintime (NTIMES cfg) times j Hj) in Hin, Hmin.
    do 3 eexists. split; [|split; [exact Hin | exact Hmin]].
    unfold table.
    rewrite (nth_indep _ MsgHline (table_row (NTIMES cfg)
               (bytes_of (buffer_size cfg env))
               (summary (NTIMES cfg) times) 0%nat))
      by (rewrite length_map, length_seq; exact Hj).
    rewrite List.map_nth, seq_nth by exact Hj.
    unfold table_row, rate. cbn [Nat.add]. do 3 f_equal.
    unfold bytes_of.
    pose proof (buffer_size_in_ssize cfg env) as Hb.
    assert (Hu : 2 * usize (buffer_size cfg env) <= SSIZE_MAX).
    { assert (0 <= usize (buffer_size cfg env))
        by (unfold usize, wrap_unsigned; apply Z.mod_pos_bound; lia).
      destruct j as [|[|[|[|j]]]]; cbn [nth] in Hmax; lia. }
    destruct (usize_small _ Hb Hu) as [Eu Hpos]. rewrite Eu in Hmax |- *.
    destruct j as [|[|[|[|j]]]]; cbn [nth] in Hmax |- *; try lia;
      (rewrite ssize_id by (unfold in_ssize, SSIZE_MIN, SSIZE_MAX in *; lia));
      reflexivity.
  - intros R st Hmin. do 2 eexists.
    unfold table. cbn [seq map nth]. unfold table_row. cbn [nth label].
    rewrite Hmin. f_equal.
Qed.

Lemma reported_bandwidth_witness :
  exists avg mn mx : float,
    nth 0 (table 10 (bytes_of 4096) (summary 10 example_times)) MsgHline
    = MsgTableRow "Copy:      "
        (1.0E-06 * double_of_Z (2 * 4096) / mn)%float avg mn mx
    /\ In mn (samples example_times 0 1 9)
    /\ forall t, In t (samples example_times 0 1 9) -> (mn <=? t)%float = true.
Proof.
  destruct (@reported_bandwidth stream_double default_config
              (example_env ["./stream"]%string 3 refused granted)
              example_times 0%nat
              ltac:(lia)
              ltac:(vm_compute; discriminate)) as [H _].
  - intros t Hin. cbn in Hin.
    repeat (destruct Hin as [<-|Hin]; [reflexivity|]). destruct Hin.
  - exact H.
Defined.

(** C3 as stated fails for a buffer of [2^62] bytes: [2 * buffer_size]
    is computed in an [ssize_t] and wraps around to [-2^63], so that
    with a minimal Copy time of 0.01 s the rate printed for Copy is
    negative, and is not [1e-6 * (2 * 2^62) / 0.01]. *)
Lemma bandwidth_bytes_overflow :
  let env := example_env ["./stream"; "4611686018427387904"]%string 3
               refused granted in
  @buffer_size stream_double default_config env = 4611686018427387904
  /\ usize (@buffer_size stream_double default_config env)
     = 4611686018427387904
  /\ SSIZE_MAX < 2 * usize (@buffer_size stream_double default_config env)
  /\ exists r avg mn mx : float,
       nth 0 (table (NTIMES default_config)
                (bytes_of (@buffer_size stream_double default_config env))
                (summary (NTIMES default_config) times_10ms)) MsgHline
       = MsgTableRow "Copy:      " r avg mn mx
       /\ mn = 0.01%float
       /\ (r <? 0)%float = true
       /\ r <> (1.0E-06 * double_of_Z (2 * 4611686018427387904) / mn)%float.
Proof.
  cbv zeta. split; [vm_compute; reflexivity|].
  split; [vm_compute; reflexivity|].
  split; [vm_compute; reflexivity|].
  do 4 eexists. split; [vm_compute; reflexivity|].
  split; [reflexivity|].
  split; [vm_compute; reflexivity|].
  intros H. apply (f_equal Prim2SF) in H. vm_compute in H. discriminate H.
Qed.

(** ** The granularity estimate *)

Lemma MINi_min (x y : Z) : MINi x y = Z.min x y.
Proof. unfold MINi. destruct (Z.ltb_spec x y); lia. Qed.

Lemma MAXi_max (x y : Z) : MAXi x y = Z.max x y.
Proof. unfold MAXi. destruct (Z.ltb_spec y x); lia. Qed.

(** The busy-wait ends at the first reading that shows an advance of a
    microsecond, when there is one within the fuel. *)
Lemma spin_total (now : nat -> float) (t1 : float) (fuel k d : nat) :
  (d < fuel)%nat ->
  (now (k + d)%nat - t1 <? 1.0E-6)%float = false ->
  exists q : nat,
    (k <= q <= k + d)%nat
    /\ spin fuel now t1 k = Some (now q, S q)
    /\ (now q - t1 <? 1.0E-6)%float = false
    /\ forall r : nat, (k <= r < q)%nat -> (now r - t1 <? 1.0E-6)%float = true.
Proof.
  revert k d. induction fuel as [|fuel IH]; intros k d Hd Hadv; [lia|].
  cbn [spin]. destruct (now k - t1 <? 1.0E-6)%float eqn:E.
  - destruct d as [|d]; [rewrite Nat.add_0_r in Hadv; congruence|].
    destruct (IH (S k) d ltac:(lia)) as (q & Hq & Hs & Hf & Hr).
    { now replace (S k + d)%nat with (k + S d)%nat by lia. }
    exists q. split; [lia|]. split; [exact Hs|]. split; [exact Hf|].
    intros r Hr'. destruct (decide (r = k)) as [->|]; [exact E|].
    apply Hr. lia.
  - exists k. split; [lia|]. split; [reflexivity|]. split; [exact E|].
    intros r Hr. lia.
Qed.

(** The first loop of [checktick] ends, with [count] samples. *)
Lemma collect_times_total (now : nat -> float) (fuel count k : nat) :
  (forall p : nat, (k <= p < k + count * S fuel)%nat ->
     exists d : nat, (d < fuel)%nat
                     /\ (now (S p + d)%nat - now p <? 1.0E-6)%float = false) ->
  exists (timesfound : list float) (k' : nat),
    collect_times count fuel now k = Some (timesfound, k')
    /\ collected now k timesfound k'
    /\ length timesfound = count
    /\ (k <= k' <= k + count * S fuel)%nat.
Proof.
  revert k. induction count as [|count IH]; intros k Hadv.
  - exists [], k. repeat split; [constructor|lia|lia].
  - destruct (Hadv k ltac:(lia)) as (d & Hd & Hk).
    destruct (spin_total now (now k) fuel (S k) d Hd Hk)
      as (q & Hq & Hs & Hf & Hr).
    destruct (IH (S q)) as (rest & k' & Hc & Hcol & Hl & Hk').
    { intros p Hp. apply Hadv. lia. }
    exists (now q :: rest), k'. cbn [collect_times].
    rewrite Hs. cbn [mbind option_bind]. rewrite Hc. cbn [mbind option_bind].
    split; [reflexivity|]. split.
    + econstructor; [|exact Hcol]. repeat split; [lia|exact Hf|].
      intros r Hr'. apply Hr. lia.
    + split; [cbn; lia|]. lia.
Qed.

(** On a monotonic clock later readings are not smaller. *)
Lemma monotonic_readings (now : nat -> float) (a b : nat) :
  (forall p : nat, (a <= p < b)%nat -> finite_double (now p) = true) ->
  (forall p : nat, (a <= p)%nat -> (S p < b)%nat ->
     (now p <=? now (S p))%float = true) ->
  forall p q : nat, (a <= p <= q)%nat -> (q < b)%nat ->
    (now p <=? now q)%float = true.
Proof.
  intros Hfin Hmono p q Hpq Hq.
  induction q as [|q IH].
  - replace p with 0%nat by lia. apply leb_refl, finite_is_number, Hfin. lia.
  - destruct (decide (p = S q)) as [->|Hne].
    + apply leb_refl, finite_is_number, Hfin. lia.
    + eapply leb_trans; [apply IH; lia|]. apply Hmono; lia.
Qed.

(** The samples of a monotonic clock are strictly increasing. *)
Lemma collected_increasing (now : nat -> float) (k k' : nat)
    (timesfound : list float) :
  collected now k timesfound k' ->
  (forall p : nat, (k <= p < k')%nat -> finite_double (now p) = true) ->
  (forall p : nat, (k <= p)%nat -> (S p < k')%nat ->
     (now p <=? now (S p))%float = true) ->
  (k <= k')%nat
  /\ (forall t : float, head timesfound = Some t ->
        (k < k')%nat /\ (now k <? t)%float = true)
  /\ strictly_increasing timesfound.
Proof.
  induction 1 as [k|p q k' rest Hspun Hcol IH]; intros Hfin Hmono.
  - split; [lia|]. split; [discriminate|]. intros i x y Hx. discriminate.
  - destruct IH as (Hk & Hhead & Hinc).
    { intros; apply Hfin. destruct Hspun. lia. }
    { intros; apply Hmono; [destruct Hspun|]; lia. }
    destruct Hspun as (Hpq & Hadv & _).
    assert (Hstrict : (now p <? now q)%float = true).
    { apply advance_is_strict; [apply Hfin; lia | apply Hfin; lia | | exact Hadv].
      apply (monotonic_readings now p k' Hfin Hmono); lia. }
    split; [lia|]. split.
    + intros t [= <-]. split; [lia | exact Hstrict].
    + intros [|i] x y Hx Hy.
      * cbn in Hx, Hy. injection Hx as <-.
        destruct rest as [|t rest]; [discriminate|]. injection Hy as <-.
        destruct (Hhead t eq_refl) as [Hlt Ht].
        eapply leb_ltb_trans; [|exact Ht]. apply Hmono; lia.
      * exact (Hinc i x y Hx Hy).
Qed.

(** The second loop of [checktick] in closed form. *)
Lemma delta_loop (timesfound : list float) (count k : nat) (acc : Z) :
  iter_loop count (S k) (delta_body timesfound) acc
  = fold_left Z.min
      (map (fun i =>
              Z.max (int_of_double
                       (1.0E6 * (nth (S i) timesfound 0
                                 - nth i timesfound 0))%float) 0)
           (seq k count))
      acc.
Proof.
  revert k acc. induction count as [|count IH]; intros k acc; [reflexivity|].
  rewrite iter_loop_S, IH. cbn [seq map fold_left].
  unfold delta_body. rewrite MINi_min, MAXi_max.
  now replace (S k - 1)%nat with k by lia.
Qed.

Lemma fold_min_is_minimum (l : list Z) (acc : Z) :
  is_minimum (acc :: l) (fold_left Z.min l acc).
Proof.
  revert acc. induction l as [|x l IH]; intros acc; cbn [fold_left].
  - split; [now left|]. intros y [<-|[]]. lia.
  - destruct (IH (Z.min acc x)) as [Hin Hle]. split.
    + destruct Hin as [Hin|Hin]; [|right; now right].
      rewrite <- Hin. destruct (Z.min_spec acc x) as [[_ ->]|[_ ->]];
        [now left | right; now left].
    + intros y Hy.
      assert (fold_left Z.min l (Z.min acc x) <= Z.min acc x)
        by (apply Hle; now left).
      destruct Hy as [<-|[<-|Hy]]; [lia | lia |].
      apply Hle. now right.
Qed.

Lemma min_delta_spec (timesfound : list float) :
  length timesfound = M_samples ->
  is_minimum (1000000 :: clamped_deltas timesfound) (min_delta timesfound).
Proof.
  intros Hl. unfold min_delta, clamped_deltas.
  rewrite Hl. change (M_samples - 1)%nat with 19%nat.
  rewrite delta_loop. apply fold_min_is_minimum.
Qed.

(** Bounded properties of a concrete clock can be checked by
    evaluation. *)
Lemma forallb_range (P : nat -> bool) (a b : nat) :
  forallb P (seq a (b - a)) = true ->
  forall p : nat, (a <= p < b)%nat -> P p = true.
Proof.
  intros H p Hp. rewrite forallb_forall in H. apply H.
  apply in_seq. lia.
Qed.

Lemma existsb_below (P : nat -> bool) (n : nat) :
  existsb P (seq 0 n) = true -> exists d : nat, (d < n)%nat /\ P d = true.
Proof.
  intros H. apply existsb_exists in H as (d & Hin & Hd).
  apply in_seq in Hin. exists d. split; [lia | exact Hd].
Qed.

(** ** C9: the granularity estimate *)

(** What C9 states holds when 1000000, the value [minDelta] starts
    from, is counted among the differences.  On a clock whose readings
    are finite, monotonic and advance by a microsecond within [fuel]
    readings, [checktick] collects 20 samples, each the reading that
    ends a busy-wait begun with a fresh reading and left at the first
    reading at least one microsecond later; the 20 samples are strictly
    increasing; the value returned is the minimum of 1000000 and of the
    differences of consecutive samples, truncated to whole microseconds
    and clamped to be non-negative; and the granularity [main] keeps and
    reports is 1 when that value is below 1, hence always at least 1. *)
Theorem checktick_granularity (now : nat -> float) (fuel k0 : nat) :
  (forall p : nat, (k0 <= p < k0 + M_samples * S fuel)%nat ->
     finite_double (now p) = true) ->
  (forall p : nat, (k0 <= p)%nat -> (S p < k0 + M_samples * S fuel)%nat ->
     (now p <=? now (S p))%float = true) ->
  (forall p : nat, (k0 <= p < k0 + M_samples * S fuel)%nat ->
     exists d : nat, (d < fuel)%nat
                     /\ (now (S p + d)%nat - now p <? 1.0E-6)%float = false) ->
  exists (timesfound : list float) (ticks : Z) (k1 : nat),
    collect_times M_samples fuel now k0 = Some (timesfound, k1)
    /\ checktick fuel now k0 = Some (ticks, k1)
    /\ length timesfound = 20%nat
    /\ collected now k0 timesfound k1
    /\ strictly_increasing timesfound
    /\ is_minimum (1000000 :: clamped_deltas timesfound) ticks
    /\ 1 <= snd (report_quantum ticks)
    /\ (ticks < 1 -> report_quantum ticks = (MsgGranularityFine, 1))
    /\ (1 <= ticks -> report_quantum ticks = (MsgGranularity ticks, ticks)).
Proof.
  intros Hfin Hmono Hadv.
  destruct (collect_times_total now fuel M_samples k0 Hadv)
    as (tf & k1 & Hc & Hcol & Hl & Hk).
  destruct (collected_increasing now k0 k1 tf Hcol) as (_ & _ & Hinc).
  { intros; apply Hfin; lia. }
  { intros; apply Hmono; lia. }
  exists tf, (min_delta tf), k1.
  split; [exact Hc|].
  split; [unfold checktick; rewrite Hc; reflexivity|].
  split; [exact Hl|]. split; [exact Hcol|]. split; [exact Hinc|].
  split; [now apply min_delta_spec|].
  unfold report_quantum.
  destruct (Z.leb_spec 1 (min_delta tf)); cbn [snd];
    repeat split; intros; try reflexivity; lia.
Qed.

Lemma checktick_granularity_witness :
  exists (timesfound : list float) (k1 : nat),
    collect_times M_samples 3 example_now 0 = Some (timesfound, k1)
    /\ checktick 3 example_now 0 = Some (1, k1)
    /\ length timesfound = 20%nat
    /\ strictly_increasing timesfound
    /\ report_quantum 1 = (MsgGranularity 1, 1).
Proof.
  destruct (checktick_granularity example_now 3 0)
    as (tf & ticks & k1 & Hc & Ht & Hl & _ & Hinc & _ & _ & _ & Hq).
  - apply (forallb_range (fun p => finite_double (example_now p)) 0 80).
    vm_compute. reflexivity.
  - intros p _ Hp.
    apply (forallb_range
             (fun p => (example_now p <=? example_now (S p))%float) 0 79);
      [vm_compute; reflexivity | unfold M_samples in Hp; lia].
  - intros p Hp.
    assert (H : existsb (fun d => negb (example_now (S p + d)
                                        - example_now p <? 1.0E-6)%float)
                  (seq 0 3) = true).
    { revert p Hp.
      apply (forallb_range
               (fun p => existsb (fun d => negb (example_now (S p + d)
                                                 - example_now p <? 1.0E-6)%float)
                           (seq 0 3)) 0 80).
      vm_compute. reflexivity. }
    apply existsb_below in H as (d & Hd & H). exists d. split; [exact Hd|].
    now apply negb_true_iff in H.
  - exists tf, k1.
    assert (E : checktick 3 example_now 0 = Some (1, 60%nat))
      by (vm_compute; reflexivity).
    rewrite E in Ht. injection Ht as <- <-.
    repeat split; auto.
Defined.

(** C9.  [checktick] is to determine the minimum difference between
    the 20 samples, as its comment says and as C9 describes, but starts
    [minDelta] from 1000000 and not from a difference.  On a clock
    whose every reading is 2 seconds after the previous one (finite and
    monotonic), consecutive samples are 4,000,000 microseconds apart:
    the minimum of the differences is 4000000, and [checktick] returns
    1000000, which is none of the differences. *)
Theorem checktick_capped :
  forallb (fun p => finite_double (slow_now p)
                    && (slow_now p <=? slow_now (S p))%float) (seq 0 40) = true
  /\ exists timesfound : list float,
       collect_times M_samples 2 slow_now 0 = Some (timesfound, 40%nat)
       /\ checktick 2 slow_now 0 = Some (1000000, 40%nat)
       /\ clamped_deltas timesfound = repeat 4000000 19
       /\ is_minimum (clamped_deltas timesfound) 4000000
       /\ ~ is_minimum (clamped_deltas timesfound) 1000000.
Proof.
  split; [vm_compute; reflexivity|].
  eexists. split; [vm_compute; reflexivity|].
  split; [vm_compute; reflexivity|].
  match goal with
  | |- ?a = ?b /\ _ => assert (E : a = b) by (vm_compute; reflexivity)
  end.
  split; [exact E|]. rewrite E. split.
  - split; [left; reflexivity|].
    intros y Hy. apply repeat_spec in Hy. lia.
  - intros [Hin _]. apply repeat_spec in Hin. discriminate Hin.
Qed.

(** ** Pieces of [main] that only print *)

Section RunProperties.
Context {ST : StreamType}.
Variable cfg : config.
Variable env : environment.
Variable fuel : nat.

Lemma quiet_ret {A} (x : A) : quiet (ret x).
Proof.
  intros s. cbn. repeat split. exists []. reflexivity.
Qed.

Lemma quiet_print (msg : message) : quiet (print msg).
Proof.
  intros s. cbn. repeat split. exists [msg]. reflexivity.
Qed.

Lemma quiet_bind {A B} (p : prog A) (f : A -> prog B) :
  quiet p -> (forall x, quiet (f x)) -> quiet (bind p f).
Proof.
  intros Hp Hf s. unfold bind. specialize (Hp s).
  destruct (p s) as [x s1|status s1|s1|s1]; cbn in Hp |- *; try exact Hp.
  destruct Hp as (Ha & Hb & Hc & msgs & Ht).
  specialize (Hf x s1).
  destruct (f x s1) as [y s2|status s2|s2|s2]; cbn in Hf |- *; try exact Hf;
    destruct Hf as (Ha' & Hb' & Hc' & msgs' & Ht');
    (repeat split; [congruence | congruence | congruence |]);
    exists (msgs' ++ msgs); rewrite Ht', Ht, map_app, app_assoc; reflexivity.
Qed.

Lemma quiet_print_all (msgs : list message) : quiet (print_all msgs).
Proof.
  induction msgs as [|msg msgs IH]; cbn [print_all].
  - apply quiet_ret.
  - apply quiet_bind; [apply quiet_print | intros _; exact IH].
Qed.

Lemma quiet_on_memory (f : memory -> option memory) : quiet (on_memory f).
Proof.
  intros s. unfold on_memory. destruct (f (st_mem s)); cbn;
    repeat split; exists []; reflexivity.
Qed.

Lemma quiet_read_memory {A} (f : memory -> option A) : quiet (read_memory f).
Proof.
  intros s. unfold read_memory. destruct (f (st_mem s)); cbn;
    repeat split; exists []; reflexivity.
Qed.

Lemma quiet_mysecond : quiet (mysecond env).
Proof.
  intros s. cbn. repeat split. exists []. reflexivity.
Qed.

Lemma quiet_call_checktick : quiet (call_checktick env fuel).
Proof.
  intros s. unfold call_checktick.
  destruct (checktick fuel (now env) (st_reads s)) as [[ticks k]|]; cbn;
    repeat split; exists []; reflexivity.
Qed.

Lemma quiet_for_prog {A} (body : nat -> A -> prog A) (count k : nat) (x : A) :
  (forall k x, quiet (body k x)) -> quiet (for_prog count k body x).
Proof.
  intros Hb. revert k x. induction count as [|count IH]; intros k x;
    cbn [for_prog].
  - apply quiet_ret.
  - apply quiet_bind; [apply Hb | intros x'; apply IH].
Qed.

Ltac quiet_step :=
  lazymatch goal with
  | |- quiet (ret _) => apply quiet_ret
  | |- quiet (print _) => apply quiet_print
  | |- quiet (print_all _) => apply quiet_print_all
  | |- quiet (on_memory _) => apply quiet_on_memory
  | |- quiet (read_memory _) => apply quiet_read_memory
  | |- quiet (mysecond _) => apply quiet_mysecond
  | |- quiet (call_checktick _ _) => apply quiet_call_checktick
  | |- quiet (bind _ _) => apply quiet_bind; [|intros ?]
  | |- quiet (let '(_, _) := ?x in _) => destruct x
  end.

Lemma quiet_timed (times : list (list float)) (j k : nat)
    (body : memory -> option memory) :
  quiet (timed env times j k body).
Proof. unfold timed. repeat quiet_step. Qed.

Lemma quiet_main_loop (scalar : elt) : quiet (main_loop cfg env scalar).
Proof.
  unfold main_loop. apply quiet_for_prog. intros k times.
  unfold main_loop_body.
  repeat first [quiet_step | apply quiet_timed].
Qed.

Lemma quiet_measure : quiet (measure cfg env fuel).
Proof.
  unfold measure. repeat first [quiet_step | apply quiet_main_loop].
Qed.

Lemma quiet_validate : quiet (validate cfg env).
Proof. unfold validate. repeat quiet_step. Qed.

Lemma region_pointer_not_null (r : region elt) :
  (region_pointer MAP_FAILED r =? NULL) = false.
Proof. destruct r; reflexivity. Qed.

Lemma bind_Done {A B} (p : prog A) (f : A -> prog B) (s s' : state) (x : A) :
  p s = Done x s' -> bind p f s = f x s'.
Proof. intros H. unfold bind. now rewrite H. Qed.

Lemma bind_Fault {A B} (p : prog A) (f : A -> prog B) (s s' : state) :
  p s = Fault s' -> bind p f s = Fault s'.
Proof. intros H. unfold bind. now rewrite H. Qed.

Lemma bind_Timeout {A B} (p : prog A) (f : A -> prog B) (s s' : state) :
  p s = Timeout s' -> bind p f s = Timeout s'.
Proof. intros H. unfold bind. now rewrite H. Qed.

Lemma alloc_if_null_skip (i : nat) (pointer : state -> Z)
    (assign : Z * buffer -> prog unit) (s : state) :
  (pointer s =? NULL) = false ->
  alloc_if_null cfg env i pointer assign s = Done tt s.
Proof. intros H. unfold alloc_if_null. now rewrite H. Qed.

(** The provisioning after a successful [open]. *)
Lemma map_device_opened :
  2 < argc env -> 0 <= env_open env (argv env 2) ->
  map_device cfg env (usage_state cfg env)
  = Done (env_open env (argv env 2)) (device_state cfg env).
Proof.
  intros Hargc Hfd. unfold map_device.
  apply Z.ltb_lt in Hargc. rewrite Hargc.
  assert (E : (env_open env (argv env 2) <? 0) = false)
    by (apply Z.ltb_ge; exact Hfd).
  unfold bind at 1. unfold sys_open, bind at 1, emit at 1, ret at 1.
  cbn [usage_state st_a st_b st_c st_mem st_reads st_trace].
  rewrite E. reflexivity.
Qed.

Lemma provision_device :
  2 < argc env -> 0 <= env_open env (argv env 2) ->
  provision cfg env (usage_state cfg env)
  = Done (env_open env (argv env 2)) (device_state cfg env).
Proof.
  intros Hargc Hfd. unfold provision.
  rewrite (bind_Done _ _ _ _ _ (map_device_opened Hargc Hfd)).
  rewrite (bind_Done _ _ _ (device_state cfg env) tt)
    by (apply alloc_if_null_skip; apply region_pointer_not_null).
  rewrite (bind_Done _ _ _ (device_state cfg env) tt)
    by (apply alloc_if_null_skip; apply region_pointer_not_null).
  rewrite (bind_Done _ _ _ (device_state cfg env) tt)
    by (apply alloc_if_null_skip; apply region_pointer_not_null).
  reflexivity.
Qed.

(** The provisioning when no device path is given. *)
Lemma provision_heap :
  argc env <= 2 ->
  provision cfg env (usage_state cfg env)
  = Done (env_fid env) (heap_state cfg env).
Proof.
  intros Hargc. unfold provision, map_device.
  destruct (Z.ltb_spec 2 (argc env)) as [|_]; [lia|].
  unfold bind at 1, ret at 1.
  unfold bind at 1, alloc_if_null at 1.
  cbn [usage_state st_a]. change (NULL =? NULL) with true. cbv iota.
  unfold bind at 1, sys_aligned_alloc at 1, bind at 1, emit at 1, ret at 1,
    assign_a at 1.
  cbn [st_a st_b st_c st_mem st_reads st_trace mem_a mem_b mem_c fst snd].
  unfold bind at 1, alloc_if_null at 1.
  cbn [st_b]. change (NULL =? NULL) with true. cbv iota.
  unfold bind at 1, sys_aligned_alloc at 1, bind at 1, emit at 1, ret at 1,
    assign_b at 1.
  cbn [st_a st_b st_c st_mem st_reads st_trace mem_a mem_b mem_c fst snd].
  unfold bind at 1, alloc_if_null at 1.
  cbn [st_c]. change (NULL =? NULL) with true. cbv iota.
  unfold bind at 1, sys_aligned_alloc at 1, bind at 1, emit at 1, ret at 1,
    assign_c at 1.
  cbn [st_a st_b st_c st_mem st_reads st_trace mem_a mem_b mem_c fst snd].
  unfold ret, heap_state, heap_events. cbn [rev app].
  cbn [usage_state st_a st_b st_c st_mem st_reads st_trace mem_a mem_b mem_c].
  change (NULL =? NULL) with true. cbv iota.
  cbn [usage_state st_a st_b st_c st_mem st_reads st_trace mem_a mem_b mem_c].
  change (NULL =? NULL) with true. cbv iota.
  reflexivity.
Qed.

Lemma run_start :
  run cfg env fuel
  = bind (provision cfg env) (fun fid => after_provisioning cfg env fuel fid)
      (usage_state cfg env).
Proof.
  unfold run, main. unfold bind at 1. unfold print, emit, initial_state.
  cbn [st_a st_b st_c st_mem st_reads st_trace].
  unfold usage_state, after_provisioning, finish. reflexivity.
Qed.

(** The run after a successful [open], and without a device path. *)
Lemma run_device :
  2 < argc env -> 0 <= env_open env (argv env 2) ->
  run cfg env fuel
  = after_provisioning cfg env fuel (env_open env (argv env 2))
      (device_state cfg env).
Proof.
  intros Hargc Hfd. rewrite run_start.
  apply bind_Done. now apply provision_device.
Qed.

Lemma run_heap :
  argc env <= 2 ->
  run cfg env fuel
  = after_provisioning cfg env fuel (env_fid env) (heap_state cfg env).
Proof.
  intros Hargc. rewrite run_start.
  apply bind_Done. now apply provision_heap.
Qed.

(** The run when [open] fails. *)
Lemma run_not_opened :
  2 < argc env -> env_open env (argv env 2) < 0 ->
  run cfg env fuel
  = Return 0
      (add_events [EvPrint (MsgNotOpened (argv env 1));
                   EvOpen (argv env 2) (env_open env (argv env 2))]
         (usage_state cfg env)).
Proof.
  intros Hargc Hfd. rewrite run_start.
  unfold bind at 1, provision, bind at 1, map_device.
  apply Z.ltb_lt in Hargc. rewrite Hargc.
  unfold bind at 1. unfold sys_open, bind at 1, emit at 1, ret at 1.
  cbn [usage_state st_a st_b st_c st_mem st_reads st_trace].
  apply Z.ltb_lt in Hfd. rewrite Hfd. reflexivity.
Qed.

Lemma add_events_add (l1 l2 : list event) (s : state) :
  add_events l1 (add_events l2 s) = add_events (l1 ++ l2) s.
Proof. unfold add_events. cbn. now rewrite app_assoc. Qed.

Lemma print_all_Done (msgs : list message) (s : state) :
  print_all msgs s = Done tt (add_events (map EvPrint (rev msgs)) s).
Proof.
  revert s. induction msgs as [|msg msgs IH]; intros s.
  - destruct s. reflexivity.
  - cbn [print_all]. unfold bind, print, emit.
    change {| st_a := st_a s; st_b := st_b s; st_c := st_c s;
              st_mem := st_mem s; st_reads := st_reads s;
              st_trace := EvPrint msg :: st_trace s |}
      with (add_events [EvPrint msg] s).
    rewrite IH, add_events_add. cbn [rev]. now rewrite map_app.
Qed.

(** The validation either reads outside the arrays or prints its
    output and a rule. *)
Lemma validate_cases (s : state) :
  (exists out : list message,
      checkSTREAMresults (NTIMES cfg) (stream_array_size cfg env) (st_mem s)
      = Some out
      /\ validate cfg env s
         = Done tt (add_events (EvPrint MsgHline :: map EvPrint (rev out)) s))
  \/ (checkSTREAMresults (NTIMES cfg) (stream_array_size cfg env) (st_mem s)
      = None
      /\ validate cfg env s = Fault s).
Proof.
  destruct (checkSTREAMresults (NTIMES cfg) (stream_array_size cfg env)
              (st_mem s)) as [out|] eqn:E; [left|right].
  - exists out. split; [reflexivity|].
    unfold validate, bind at 1, read_memory. rewrite E.
    unfold bind. rewrite print_all_Done. unfold print, emit.
    unfold add_events. cbn. reflexivity.
  - split; [reflexivity|].
    unfold validate, bind at 1, read_memory. now rewrite E.
Qed.

(** The teardown never fails; it adds the events [teardown_events]. *)
Lemma teardown_Done (fid : Z) (s : state) :
  exists s' : state,
    teardown cfg env fid s = Done tt s'
    /\ st_trace s' = rev (teardown_events cfg env fid s) ++ st_trace s.
Proof.
  unfold teardown, teardown_events.
  destruct (1 <? argc env); [|exists s; split; reflexivity].
  unfold bind, sys_munmap, bind, emit, assign_a, assign_b, assign_c.
  cbn [st_a st_b st_c st_mem st_reads st_trace fst snd].
  destruct (fid =? 0); unfold ret, sys_close, emit;
    eexists; (split; [reflexivity|]); reflexivity.
Qed.

(** From the validation on: a fault, or the output of the validation,
    the teardown and [return 0]. *)
Lemma finish_cases (fid : Z) (s : state) :
  (exists (out : list message) (s' : state),
      checkSTREAMresults (NTIMES cfg) (stream_array_size cfg env) (st_mem s)
      = Some out
      /\ finish cfg env fid s = Return 0 s'
      /\ st_trace s'
         = rev (teardown_events cfg env fid s)
           ++ EvPrint MsgHline :: map EvPrint (rev out) ++ st_trace s)
  \/ (checkSTREAMresults (NTIMES cfg) (stream_array_size cfg env) (st_mem s)
      = None
      /\ finish cfg env fid s = Fault s).
Proof.
  unfold finish.
  destruct (validate_cases s) as [(out & Hout & Hv)|[Hnone Hv]].
  - left. exists out.
    rewrite (bind_Done _ _ _ _ _ Hv).
    destruct (teardown_Done fid
                (add_events (EvPrint MsgHline :: map EvPrint (rev out)) s))
      as (s' & Ht & Htr).
    rewrite (bind_Done _ _ _ _ _ Ht).
    exists s'. split; [exact Hout|]. split; [reflexivity|].
    rewrite Htr. reflexivity.
  - right. split; [exact Hnone|]. now apply bind_Fault.
Qed.

(** After the provisioning: the run ends with [return 0] after the
    measurements, the validation and the teardown, or it stops earlier
    having only printed. *)
Lemma after_provisioning_cases (fid : Z) (s : state) :
  (exists (msgs out : list message) (m : memory) (s' : state),
      checkSTREAMresults (NTIMES cfg) (stream_array_size cfg env) m = Some out
      /\ after_provisioning cfg env fuel fid s = Return 0 s'
      /\ st_trace s'
         = rev (teardown_events cfg env fid s)
           ++ EvPrint MsgHline :: map EvPrint (rev out)
           ++ map EvPrint msgs ++ st_trace s)
  \/ (exists (msgs : list message) (s' : state),
        (after_provisioning cfg env fuel fid s = Fault s'
         \/ after_provisioning cfg env fuel fid s = Timeout s')
        /\ st_trace s' = map EvPrint msgs ++ st_trace s).
Proof.
  unfold after_provisioning.
  pose proof (quiet_measure s) as Hq.
  destruct (measure cfg env fuel s) as [[] s1|status s1|s1|s1] eqn:Em;
    cbn [result_state] in Hq; [| contradiction | |].
  - destruct Hq as (Ha & Hb & Hc & msgs & Ht).
    rewrite (bind_Done _ _ _ _ _ Em).
    destruct (finish_cases fid s1) as [(out & s' & Hout & Hf & Htr)|[_ Hf]].
    + left. exists msgs, out, (st_mem s1), s'.
      split; [exact Hout|]. split; [exact Hf|].
      rewrite Htr, Ht. unfold teardown_events. now rewrite Ha, Hb, Hc.
    + right. exists msgs, s1. split; [left; exact Hf | exact Ht].
  - destruct Hq as (_ & _ & _ & msgs & Ht).
    rewrite (bind_Fault _ _ _ _ Em).
    right. exists msgs, s1. split; [now left | exact Ht].
  - destruct Hq as (_ & _ & _ & msgs & Ht).
    rewrite (bind_Timeout _ _ _ _ Em).
    right. exists msgs, s1. split; [now right | exact Ht].
Qed.

End RunProperties.

(** ** Pieces of [main] that end normally *)

Section CompletionProperties.
Context {ST : StreamType}.
Variable cfg : config.
Variable env : environment.
Variable fuel : nat.

Lemma moved_id (s : state) : moved s (st_mem s) (st_reads s) [] = s.
Proof. destruct s. reflexivity. Qed.

Lemma moved_moved (s : state) (m1 m2 : memory) (k1 k2 : nat)
    (l1 l2 : list message) :
  moved (moved s m1 k1 l1) m2 k2 l2 = moved s m2 k2 (l1 ++ l2).
Proof.
  unfold moved. cbn [st_a st_b st_c st_mem st_reads st_trace].
  now rewrite rev_app_distr, map_app, app_assoc.
Qed.

Lemma runs_ret {A} (x : A) (m : memory) (k : nat) : runs (ret x) m k x m k [].
Proof. intros s <- <-. unfold ret. now rewrite moved_id. Qed.

Lemma runs_print (msg : message) (m : memory) (k : nat) :
  runs (print msg) m k tt m k [msg].
Proof. intros s <- <-. reflexivity. Qed.

Lemma runs_print_all (msgs : list message) (m : memory) (k : nat) :
  runs (print_all msgs) m k tt m k msgs.
Proof. intros s <- <-. rewrite print_all_Done. reflexivity. Qed.

Lemma runs_on_memory (f : memory -> option memory) (m m' : memory) (k : nat) :
  f m = Some m' -> runs (on_memory f) m k tt m' k [].
Proof. intros H s <- <-. unfold on_memory. rewrite H. reflexivity. Qed.

Lemma runs_read_memory {A} (f : memory -> option A) (m : memory) (k : nat)
    (x : A) :
  f m = Some x -> runs (read_memory f) m k x m k [].
Proof.
  intros H s <- <-. unfold read_memory. rewrite H. now rewrite moved_id.
Qed.

Lemma runs_mysecond (m : memory) (k : nat) :
  runs (mysecond env) m k (now env k) m (S k) [].
Proof. intros s <- <-. reflexivity. Qed.

Lemma runs_call_checktick (m : memory) (k k' : nat) (ticks : Z) :
  checktick fuel (now env) k = Some (ticks, k') ->
  runs (call_checktick env fuel) m k ticks m k' [].
Proof. intros H s <- <-. unfold call_checktick. rewrite H. reflexivity. Qed.

Lemma runs_bind {A B} (p : prog A) (f : A -> prog B) (m m1 m2 : memory)
    (k k1 k2 : nat) (x : A) (y : B) (l1 l2 : list message) :
  runs p m k x m1 k1 l1 -> runs (f x) m1 k1 y m2 k2 l2 ->
  runs (bind p f) m k y m2 k2 (l1 ++ l2).
Proof.
  intros Hp Hf s Hm Hk. unfold bind. rewrite (Hp s Hm Hk).
  rewrite (Hf (moved s m1 k1 l1) eq_refl eq_refl). now rewrite moved_moved.
Qed.

Lemma runs_eq {A} (p : prog A) (m m' : memory) (k k1 k2 : nat) (x : A)
    (l1 l2 : list message) :
  runs p m k x m' k1 l1 -> k1 = k2 -> l1 = l2 -> runs p m k x m' k2 l2.
Proof. now intros H <- <-. Qed.

Ltac runs_step :=
  lazymatch goal with
  | |- runs (ret _) _ _ _ _ _ _ => apply runs_ret
  | |- runs (print _) _ _ _ _ _ _ => apply runs_print
  | |- runs (print_all _) _ _ _ _ _ _ => apply runs_print_all
  | |- runs (mysecond _) _ _ _ _ _ _ => apply runs_mysecond
  | |- runs (bind _ _) _ _ _ _ _ _ => eapply runs_bind; [|cbv beta]
  end.

Lemma runs_timed (times : list (list float)) (j i : nat)
    (body : memory -> option memory) (m m' : memory) (k : nat) :
  body m = Some m' ->
  runs (timed env times j i body) m k (stamp (now env) times j i k) m'
    (S (S k)) [].
Proof.
  intros Hb. unfold timed.
  eapply runs_eq; [|reflexivity|].
  - runs_step; [runs_step|]. cbv zeta.
    runs_step; [apply (runs_on_memory _ _ _ _ Hb)|].
    runs_step; [runs_step|]. runs_step.
  - reflexivity.
Qed.

Lemma runs_main_loop_body (scalar : elt) (i : nat) (times : list (list float))
    (m m' : memory) (k : nat) :
  round scalar (stream_array_size cfg env) m = Some m' ->
  runs (main_loop_body cfg env scalar i times) m k
    (stamp_round (now env) times i k) m' (8 + k) [].
Proof.
  unfold round. intros Hr.
  destruct (STREAM_Copy (stream_array_size cfg env) m) as [m1|] eqn:E1;
    [|discriminate].
  cbn [mbind option_bind] in Hr.
  destruct (STREAM_Scale scalar (stream_array_size cfg env) m1) as [m2|] eqn:E2;
    [|discriminate].
  cbn [mbind option_bind] in Hr.
  destruct (STREAM_Add (stream_array_size cfg env) m2) as [m3|] eqn:E3;
    [|discriminate].
  cbn [mbind option_bind] in Hr.
  unfold main_loop_body, stamp_round.
  eapply runs_eq.
  - runs_step; [apply (runs_timed _ _ _ _ _ _ _ E1)|].
    runs_step; [apply (runs_timed _ _ _ _ _ _ _ E2)|].
    runs_step; [apply (runs_timed _ _ _ _ _ _ _ E3)|].
    apply (runs_timed _ _ _ _ _ _ _ Hr).
  - lia.
  - reflexivity.
Qed.

Lemma runs_rounds (scalar : elt) (count i : nat) (times : list (list float))
    (m m' : memory) (k : nat) :
  for_loop count i (fun _ => round scalar (stream_array_size cfg env)) m
  = Some m' ->
  runs (for_prog count i (main_loop_body cfg env scalar) times) m k
    (record_rounds (now env) count i k times) m' (8 * count + k) [].
Proof.
  revert i times m k. induction count as [|count IH]; intros i times m k H.
  - cbn [for_loop] in H. injection H as <-. cbn [for_prog record_rounds].
    eapply runs_eq; [apply runs_ret | lia | reflexivity].
  - cbn [for_loop] in H.
    destruct (round scalar (stream_array_size cfg env) m) as [m1|] eqn:E;
      [|discriminate].
    cbn [for_prog record_rounds].
    eapply runs_eq.
    + runs_step; [apply (runs_main_loop_body _ _ _ _ _ _ E)|].
      apply (IH _ _ _ _ H).
    + lia.
    + reflexivity.
Qed.

Lemma runs_measure (m0 m1 m2 m3 : memory) (k0 k1 : nat) (ticks : Z) :
  init_arrays (stream_array_size cfg env) m0 = Some m1 ->
  warmup (stream_array_size cfg env) m1 = Some m2 ->
  rounds (NTIMES cfg) (elt_of_double 3.0) (stream_array_size cfg env) m2
  = Some m3 ->
  checktick fuel (now env) k0 = Some (ticks, k1) ->
  runs (measure cfg env fuel) m0 k0 tt m3
    (8 * Z.to_nat (NTIMES cfg) + (2 + k1)) (measure_output cfg env ticks k1).
Proof.
  intros Hinit Hwarm Hrounds Htick. unfold measure.
  destruct (report_quantum ticks) as [msg quantum] eqn:Eq.
  eapply runs_eq.
  - runs_step; [runs_step|].
    runs_step; [apply (runs_on_memory _ _ _ _ Hinit)|].
    runs_step; [runs_step|].
    runs_step; [apply (runs_call_checktick _ _ _ _ Htick)|].
    rewrite Eq.
    runs_step; [runs_step|].
    runs_step; [runs_step|].
    runs_step; [apply (runs_on_memory _ _ _ _ Hwarm)|].
    runs_step; [runs_step|]. cbv zeta.
    runs_step; [runs_step|].
    runs_step; [runs_step|].
    runs_step; [unfold main_loop; apply runs_rounds; exact Hrounds|].
    runs_step; [runs_step|].
    runs_step; [runs_step|].
    runs_step.
  - reflexivity.
  - unfold measure_output, measured_times. rewrite Eq. cbn [app fst snd].
    reflexivity.
Qed.

Lemma runs_validate (m : memory) (k : nat) (out : list message) :
  checkSTREAMresults (NTIMES cfg) (stream_array_size cfg env) m = Some out ->
  runs (validate cfg env) m k tt m k (out ++ [MsgHline]).
Proof.
  intros H. unfold validate.
  eapply runs_eq.
  - runs_step; [apply (runs_read_memory _ _ _ _ H)|].
    runs_step; [runs_step|]. runs_step.
  - reflexivity.
  - reflexivity.
Qed.

(** The validation of arrays of [n] elements reads inside them. *)
Lemma count_loop_total (l : list elt) (xj : elt) (epsilon : float)
    (count j : nat) (acc : Z) :
  (j + count <= length l)%nat ->
  exists r : Z, for_loop count j (count_body (Some l) xj epsilon) acc = Some r.
Proof.
  revert j acc. induction count as [|count IH]; intros j acc Hj.
  - now exists acc.
  - destruct (lookup_lt_is_Some_2 l j ltac:(lia)) as [x Hx].
    cbn [for_loop count_body load mbind option_bind].
    rewrite Hx. cbn [mbind option_bind]. apply IH. lia.
Qed.

Lemma check_array_total (name : string) (extra : bool) (l : list elt)
    (xj xAvgErr : elt) (epsilon : float) (n err : Z) :
  length l = Z.to_nat n ->
  exists r, check_array name extra (Some l) xj xAvgErr epsilon n err = Some r.
Proof.
  intros Hl. unfold check_array.
  destruct (exceeds xAvgErr xj epsilon); [|now eexists].
  unfold for_ssize.
  destruct (count_loop_total l xj epsilon (Z.to_nat n) 0 0 ltac:(lia))
    as [r Hr].
  rewrite Hr. cbn [mbind option_bind]. now eexists.
Qed.

Lemma checkSTREAMresults_total (R n : Z) (m : memory) :
  sized (Z.to_nat n) m ->
  exists out : list message, checkSTREAMresults R n m = Some out.
Proof.
  intros (la & lb & lc & -> & Ha & Hb & Hc). unfold checkSTREAMresults.
  destruct (expected_values R) as [[aj bj] cj]. cbv zeta.
  rewrite sum_loop_all by assumption.
  cbn [mbind option_bind mem_a mem_b mem_c].
  destruct (check_array_total "a" false la aj
              (elt_div (abs_err_sum la aj) (elt_of_ssize n))
              (epsilon_of sizeof_elt) n 0 Ha) as [[outa erra] ->].
  cbn [mbind option_bind].
  destruct (check_array_total "b" true lb bj
              (elt_div (abs_err_sum lb bj) (elt_of_ssize n))
              (epsilon_of sizeof_elt) n erra Hb) as [[outb errb] ->].
  cbn [mbind option_bind].
  destruct (check_array_total "c" true lc cj
              (elt_div (abs_err_sum lc cj) (elt_of_ssize n))
              (epsilon_of sizeof_elt) n errb Hc) as [[outc errc] ->].
  cbn [mbind option_bind]. now eexists.
Qed.

Lemma region_buffer_length (len : Z) (r : region elt) :
  r <> NoRegion ->
  exists l : list elt,
    region_buffer len r = Some l /\ length l = Z.to_nat (len / sizeof_elt).
Proof.
  destruct r as [|addr content]; [congruence|]. intros _.
  eexists. split; [reflexivity|]. now rewrite length_map, length_seq.
Qed.

(** The number of elements of a buffer is the count of the loops. *)
Lemma array_size_elements :
  0 < sizeof_elt -> 0 <= buffer_size cfg env ->
  stream_array_size cfg env = buffer_size cfg env / sizeof_elt
  /\ usize (buffer_size cfg env) = buffer_size cfg env.
Proof.
  intros Hsz Hbs. unfold stream_array_size.
  assert (Hmax : buffer_size cfg env <= SSIZE_MAX).
  { unfold buffer_size, round_up_page. rewrite land_PAGE_MASK.
    pose proof (ssize_range (requested_size cfg env + 4095)) as Hr.
    unfold in_ssize, SSIZE_MIN, SSIZE_MAX in *.
    pose proof (Z.mul_div_le (ssize (requested_size cfg env + 4095)) 4096
                  ltac:(lia)). lia. }
  unfold SSIZE_MAX in Hmax.
  rewrite usize_id by lia. split; [|reflexivity].
  apply ssize_id. unfold in_ssize, SSIZE_MIN, SSIZE_MAX.
  pose proof (Z.div_pos (buffer_size cfg env) sizeof_elt Hbs Hsz).
  pose proof (Z.div_le_upper_bound (buffer_size cfg env) sizeof_elt
                (buffer_size cfg env) Hsz ltac:(nia)). lia.
Qed.

Lemma provisioned_sized :
  0 < sizeof_elt -> 0 <= buffer_size cfg env -> provisioned env ->
  sized (Z.to_nat (stream_array_size cfg env))
    (st_mem (provisioned_state cfg env))
  /\ st_reads (provisioned_state cfg env) = 0%nat
  /\ st_trace (provisioned_state cfg env) = rev (provisioning_events cfg env).
Proof.
  intros Hsz Hbs. unfold provisioned, provisioned_state, provisioning_events.
  destruct (array_size_elements Hsz Hbs) as [-> Hu].
  destruct (2 <? argc env).
  - intros [_ Hr]. split; [|split; reflexivity].
    unfold device_state. cbn [st_mem]. rewrite Hu.
    destruct (region_buffer_length (buffer_size cfg env) _ (Hr 0%nat ltac:(lia)))
      as (la & -> & Ha).
    destruct (region_buffer_length (buffer_size cfg env) _ (Hr 1%nat ltac:(lia)))
      as (lb & -> & Hb).
    destruct (region_buffer_length (buffer_size cfg env) _ (Hr 2%nat ltac:(lia)))
      as (lc & -> & Hc).
    now exists la, lb, lc.
  - intros Hr. split; [|split; reflexivity].
    unfold heap_state. cbn [st_mem]. rewrite Hu.
    destruct (region_buffer_length (buffer_size cfg env) _ (Hr 0%nat ltac:(lia)))
      as (la & -> & Ha).
    destruct (region_buffer_length (buffer_size cfg env) _ (Hr 1%nat ltac:(lia)))
      as (lb & -> & Hb).
    destruct (region_buffer_length (buffer_size cfg env) _ (Hr 2%nat ltac:(lia)))
      as (lc & -> & Hc).
    now exists la, lb, lc.
Qed.

Lemma run_provisioned :
  provisioned env ->
  run cfg env fuel
  = after_provisioning cfg env fuel (provisioned_fid env)
      (provisioned_state cfg env).
Proof.
  unfold provisioned, provisioned_fid, provisioned_state.
  destruct (Z.ltb_spec 2 (argc env)) as [Hargc|Hargc].
  - intros [Hfd _]. now apply run_device.
  - intros _. now apply run_heap.
Qed.

(** From arrays of the right size on, with a clock that advances, the
    program goes through the measurements, the validation and the
    teardown, and returns 0. *)
Lemma after_provisioning_completes (fid : Z) (s0 : state) :
  sized (Z.to_nat (stream_array_size cfg env)) (st_mem s0) ->
  st_reads s0 = 0%nat ->
  clock_advances env fuel ->
  exists (ticks : Z) (k1 : nat) (out : list message) (s : state),
    checktick fuel (now env) 0 = Some (ticks, k1)
    /\ checkSTREAMresults (NTIMES cfg) (stream_array_size cfg env)
         (final_memory cfg env) = Some out
    /\ after_provisioning cfg env fuel fid s0 = Return 0 s
    /\ st_trace s
       = rev (teardown_events cfg env fid s0)
         ++ map EvPrint (rev (measure_output cfg env ticks k1
                              ++ out ++ [MsgHline]))
         ++ st_trace s0.
Proof.
  intros Hsized Hreads Hclock.
  destruct (sized_memory_of _ _ Hsized) as (T & Hm & Hlen).
  pose proof (executor_cells (NTIMES cfg) (stream_array_size cfg env) T
                ltac:(now rewrite Hlen)) as Hex.
  rewrite Hlen in Hex. fold (final_memory cfg env) in Hex.
  unfold executor in Hex. rewrite <- Hm in Hex.
  destruct (init_arrays (stream_array_size cfg env) (st_mem s0)) as [m1|]
    eqn:Hinit; [|discriminate].
  cbn [mbind option_bind] in Hex.
  destruct (warmup (stream_array_size cfg env) m1) as [m2|] eqn:Hwarm;
    [|discriminate].
  cbn [mbind option_bind] in Hex.
  destruct (collect_times_total (now env) fuel M_samples 0)
    as (tf & k1 & Hc & _ & _ & _).
  { intros p Hp. apply Hclock. lia. }
  assert (Htick : checktick fuel (now env) 0 = Some (min_delta tf, k1))
    by (unfold checktick; rewrite Hc; reflexivity).
  destruct (checkSTREAMresults_total (NTIMES cfg) (stream_array_size cfg env)
              (final_memory cfg env)) as [out Hout].
  { unfold final_memory.
    pose proof (memory_of_sized
                  (replicate (Z.to_nat (stream_array_size cfg env))
                     (expected_values (NTIMES cfg)))) as Hs.
    now rewrite length_replicate in Hs. }
  pose proof (runs_measure _ _ _ _ _ _ _ Hinit Hwarm Hex Htick s0 eq_refl
                Hreads) as Hmeasure.
  exists (min_delta tf), k1, out.
  unfold after_provisioning. rewrite (bind_Done _ _ _ _ _ Hmeasure).
  destruct (finish_cases cfg env fid
              (moved s0 (final_memory cfg env)
                 (8 * Z.to_nat (NTIMES cfg) + (2 + k1))
                 (measure_output cfg env (min_delta tf) k1)))
    as [(out' & s & Hout' & Hf & Htr)|[Hnone _]].
  - cbn [moved st_mem] in Hout'. rewrite Hout in Hout'. injection Hout' as <-.
    exists s. split; [exact Htick|]. split; [exact Hout|].
    split; [exact Hf|]. rewrite Htr.
    unfold teardown_events. cbn [moved st_a st_b st_c st_trace].
    rewrite !rev_app_distr, !map_app. cbn [rev app map].
    rewrite <- !app_assoc. reflexivity.
  - cbn [moved st_mem] in Hnone. congruence.
Qed.

End CompletionProperties.


Lemma trace_in_order (provisioning teardown : list event)
    (msgs out : list message) :
  rev (rev teardown
       ++ EvPrint MsgHline :: map EvPrint (rev out)
       ++ map EvPrint msgs ++ rev provisioning)
  = provisioning ++ map EvPrint (rev msgs ++ out ++ [MsgHline]) ++ teardown.
Proof.
  change (EvPrint MsgHline :: map EvPrint (rev out)
          ++ map EvPrint msgs ++ rev provisioning)
    with ([EvPrint MsgHline] ++ map EvPrint (rev out)
          ++ map EvPrint msgs ++ rev provisioning).
  rewrite !rev_app_distr, !rev_involutive.
  rewrite <- !map_rev, rev_involutive, !map_app.
  rewrite <- !app_assoc. reflexivity.
Qed.

(** ** Runs that return *)

Section ReturnedRuns.
Context {ST : StreamType}.
Variable cfg : config.
Variable env : environment.
Variable fuel : nat.

(** A run whose buffers are provisioned and whose clock advances
    returns 0. *)
Lemma run_returns_zero :
  0 < sizeof_elt -> 0 <= buffer_size cfg env ->
  provisioned env -> clock_advances env fuel ->
  exit_status (run cfg env fuel) = Some 0.
Proof.
  intros Hsz Hbs Hprov Hclock.
  destruct (provisioned_sized cfg env Hsz Hbs Hprov) as (Hsized & Hreads & _).
  destruct (after_provisioning_completes cfg env fuel (provisioned_fid env)
              (provisioned_state cfg env) Hsized Hreads Hclock)
    as (ticks & k1 & out & s & _ & _ & Hrun & _).
  rewrite (run_provisioned cfg env fuel Hprov), Hrun. reflexivity.
Qed.

(** The events of a run that returns after an [open] that did not
    fail: those of the provisioning, then messages, then those of the
    teardown. *)
Lemma returned_run_trace (status : Z) :
  (2 < argc env -> 0 <= env_open env (argv env 2)) ->
  exit_status (run cfg env fuel) = Some status ->
  exists msgs : list message,
    trace_of (run cfg env fuel)
    = provisioning_events cfg env ++ map EvPrint msgs
      ++ teardown_events cfg env (provisioned_fid env)
           (provisioned_state cfg env).
Proof.
  intros Hfd Hexit.
  assert (Hrun : run cfg env fuel
                 = after_provisioning cfg env fuel (provisioned_fid env)
                     (provisioned_state cfg env)).
  { unfold provisioned_fid, provisioned_state.
    destruct (Z.ltb_spec 2 (argc env)) as [Hargc|Hargc].
    - apply run_device; auto.
    - now apply run_heap. }
  assert (Htr0 : st_trace (provisioned_state cfg env)
                 = rev (provisioning_events cfg env)).
  { unfold provisioned_state, provisioning_events.
    destruct (2 <? argc env); reflexivity. }
  rewrite Hrun in Hexit |- *.
  destruct (after_provisioning_cases cfg env fuel (provisioned_fid env)
              (provisioned_state cfg env))
    as [(msgs & out & m & s' & _ & Hr & Htr)|(msgs & s' & [Hr | Hr] & _)];
    rewrite Hr in Hexit |- *; try discriminate Hexit.
  exists (rev msgs ++ out ++ [MsgHline]).
  unfold trace_of. cbn [result_state]. rewrite Htr, Htr0.
  apply trace_in_order.
Qed.

End ReturnedRuns.

(** ** The example environments *)

(** The clock of the example environments advances by a microsecond
    within three readings. *)
Lemma example_clock_advances (args : list string) (fd : Z)
    (mmap alloc : nat -> region (@elt stream_double)) :
  clock_advances (example_env args fd mmap alloc) 3.
Proof.
  intros p Hp.
  change (now (example_env args fd mmap alloc)) with example_now.
  assert (H : existsb (fun d => negb (example_now (S p + d)
                                      - example_now p <? 1.0E-6)%float)
                (seq 0 3) = true).
  { apply (forallb_range
             (fun p => existsb (fun d => negb (example_now (S p + d)
                                               - example_now p <? 1.0E-6)%float)
                         (seq 0 3)) 0 80);
      [vm_compute; reflexivity | unfold M_samples in Hp; lia]. }
  apply existsb_below in H as (d & Hd & H). exists d. split; [exact Hd|].
  now apply negb_true_iff in H.
Qed.

Lemma granted_region (i : nat) : granted i <> NoRegion.
Proof. discriminate. Qed.

(** The runs of the default build in an example environment whose
    buffers are provisioned return 0. *)
Lemma example_run_returns (args : list string) (fd : Z)
    (mmap alloc : nat -> region (@elt stream_double)) :
  0 <= buffer_size default_config (example_env args fd mmap alloc) ->
  provisioned (example_env args fd mmap alloc) ->
  exit_status (run default_config (example_env args fd mmap alloc) 3) = Some 0.
Proof.
  intros Hbs Hprov.
  apply run_returns_zero;
    [reflexivity | exact Hbs | exact Hprov | apply example_clock_advances].
Qed.

Lemma no_argument_run_returns :
  exit_status (run default_config env_no_argument 3) = Some 0.
Proof.
  apply example_run_returns; [discriminate|].
  intros i _. apply granted_region.
Qed.

Lemma size_only_run_returns :
  exit_status (run default_config env_size_only 3) = Some 0.
Proof.
  apply example_run_returns; [discriminate|].
  intros i _. apply granted_region.
Qed.

Lemma device_run_returns :
  exit_status (run default_config env_device 3) = Some 0.
Proof.
  apply example_run_returns; [discriminate|].
  split; [discriminate|]. intros i _. apply granted_region.
Qed.

(** A message printed releases no memory. *)
Lemma released_prints (msgs : list message) (p : Z) :
  released (map EvPrint msgs) p = false.
Proof. induction msgs as [|msg msgs IH]; [reflexivity | exact IH]. Qed.

Lemma released_app (l1 l2 : list event) (p : Z) :
  released (l1 ++ l2) p = released l1 p || released l2 p.
Proof. apply existsb_app. Qed.

(** ** C5: the mappings of a device *)

Section DeviceProperties.
Context {ST : StreamType}.

Lemma mapping_offset_spec (env : environment) :
  let given := ssize (env_strtoll env (argv env 3)) in
  (argc env <= 3 \/ given <= 0 -> mapping_offset env = 0x100000000)
  /\ (3 < argc env -> 0 < given -> mapping_offset env = 4096 * (given / 4096))
  /\ 0 <= mapping_offset env.
Proof.
  cbv zeta. unfold mapping_offset.
  pose proof (ssize_range (env_strtoll env (argv env 3))) as Hr.
  unfold in_ssize, SSIZE_MIN, SSIZE_MAX in Hr.
  assert (E : truncate_page 0x100000000 = 0x100000000) by reflexivity.
  destruct (Z.ltb_spec 3 (argc env)) as [Hargc|Hargc].
  - destruct (Z.leb_spec (ssize (env_strtoll env (argv env 3))) 0) as [Hv|Hv].
    + rewrite E. repeat split; intros; lia.
    + unfold truncate_page. rewrite land_PAGE_MASK.
      repeat split; intros; try lia.
      apply Z.mul_nonneg_nonneg; [lia|]. apply Z.div_pos; lia.
  - change (0 <=? 0) with true. cbv iota. rewrite E.
    repeat split; intros; lia.
Qed.

End DeviceProperties.

(** The run after a successful [open] begins with the events of the
    device. *)
Lemma device_trace {ST : StreamType} (cfg : config) (env : environment)
    (fuel : nat) :
  2 < argc env -> 0 <= env_open env (argv env 2) ->
  exists rest : list event,
    trace_of (run cfg env fuel) = device_events cfg env ++ rest.
Proof.
  intros Hargc Hfd. unfold trace_of.
  rewrite (run_device cfg env fuel Hargc Hfd).
  destruct (after_provisioning_cases cfg env fuel (env_open env (argv env 2))
              (device_state cfg env))
    as [(msgs & out & m & s' & _ & -> & Htr)|(msgs & s' & [-> | ->] & Htr)];
    cbn [result_state]; rewrite Htr; cbn [device_state st_trace];
    rewrite ?app_comm_cons, ?app_assoc, rev_app_distr, rev_involutive;
    eexists; reflexivity.
Qed.

(** C5 (as amended).  When a device path is given (and opened), the
    offset of the mappings is [0x100000000] whenever the offset argument
    is absent or not positive, and otherwise the argument truncated down
    to a multiple of the page size; the three buffers are mapped into
    the opened device at [offset], [offset + byteSize] and
    [offset + 2*byteSize], in this order, where [byteSize] is the size
    requested for a buffer rounded up to a page, and [a], [b] and [c]
    are the three mappings, of [byteSize] bytes each; provided
    [offset + 2*byteSize], a file offset, does not exceed
    [SSIZE_MAX]. *)
Theorem device_mappings
    {ST : StreamType} (cfg : config) (env : environment) (fuel : nat) :
  2 < argc env -> 0 <= env_open env (argv env 2) ->
  mapping_offset env + 2 * usize (buffer_size cfg env) <= SSIZE_MAX ->
  let fid := env_open env (argv env 2) in
  let byteSize := usize (buffer_size cfg env) in
  let offset := mapping_offset env in
  let given := ssize (env_strtoll env (argv env 3)) in
  let pa := region_pointer MAP_FAILED (env_mmap env 0) in
  let pb := region_pointer MAP_FAILED (env_mmap env 1) in
  let pc := region_pointer MAP_FAILED (env_mmap env 2) in
  (argc env <= 3 \/ given <= 0 -> offset = 0x100000000)
  /\ (3 < argc env -> 0 < given -> offset = 4096 * (given / 4096))
  /\ next_page_multiple (requested_size cfg env) byteSize
  /\ (exists s : state,
        provision cfg env (usage_state cfg env) = Done fid s
        /\ st_a s = pa /\ st_b s = pb /\ st_c s = pc
        /\ st_mem s = Memory (region_buffer byteSize (env_mmap env 0))
                             (region_buffer byteSize (env_mmap env 1))
                             (region_buffer byteSize (env_mmap env 2))
        /\ run cfg env fuel = after_provisioning cfg env fuel fid s)
  /\ exists rest : list event,
       trace_of (run cfg env fuel)
       = [EvPrint (MsgUsage (argv env 0) (default_buffer_size cfg));
          EvOpen (argv env 2) fid;
          EvMmap byteSize fid offset pa;
          EvMmap byteSize fid (offset + byteSize) pb;
          EvMmap byteSize fid (offset + 2 * byteSize) pc]
         ++ rest.
Proof.
  intros Hargc Hfd Hmax. cbv zeta.
  destruct (mapping_offset_spec env) as (Hdef & Htrunc & Hoff).
  split; [exact Hdef|]. split; [exact Htrunc|].
  assert (Hu : 2 * usize (buffer_size cfg env) <= SSIZE_MAX) by lia.
  destruct (usize_small _ (buffer_size_in_ssize cfg env) Hu) as [Eu Hpos].
  split; [rewrite Eu; now apply buffer_size_rounds_request|].
  split.
  - exists (device_state cfg env).
    split; [now apply provision_device|].
    repeat (split; [reflexivity|]).
    now apply run_device.
  - destruct (device_trace cfg env fuel Hargc Hfd) as [rest Hrest].
    exists rest. rewrite Hrest. f_equal.
    unfold device_events. rewrite Eu in Hmax |- *. unfold SSIZE_MAX in Hmax.
    rewrite (ssize_id (2 * buffer_size cfg env))
      by (unfold in_ssize, SSIZE_MIN, SSIZE_MAX; lia).
    rewrite !ssize_id by (unfold in_ssize, SSIZE_MIN, SSIZE_MAX; lia).
    reflexivity.
Qed.

Lemma device_mappings_witness :
  (exists s : state,
     provision default_config env_device (usage_state default_config env_device)
     = Done 3 s
     /\ st_a s = 65536 /\ st_b s = 131072 /\ st_c s = 196608)
  /\ exists rest : list event,
       trace_of (run default_config env_device 3)
       = [EvPrint (MsgUsage "./stream" 80);
          EvOpen "/dev/mem" 3;
          EvMmap 8192 3 8589934592 65536;
          EvMmap 8192 3 (8589934592 + 8192) 131072;
          EvMmap 8192 3 (8589934592 + 2 * 8192) 196608]
         ++ rest.
Proof.
  destruct (@device_mappings stream_double default_config env_device 3
              ltac:(reflexivity) ltac:(discriminate) ltac:(discriminate))
    as (_ & _ & _ & (s & Hp & Ha & Hb & Hc & _) & Htr).
  split; [|exact Htr].
  exists s. split; [exact Hp|]. split; [exact Ha|]. split; [exact Hb|exact Hc].
Defined.

(** C5 as stated fails for an offset near [SSIZE_MAX]: with a size of
    4096 bytes and the offset 9223372036854771712, [offset + byteSize]
    and [offset + 2*byteSize] wrap around, and [b] and [c] are mapped at
    the negative offsets -9223372036854775808 and
    -9223372036854771712. *)
Lemma mapping_offsets_overflow :
  let env := example_env
               ["./stream"; "4096"; "/dev/mem"; "9223372036854771712"]%string
               3 granted refused in
  mapping_offset env = 9223372036854771712
  /\ usize (@buffer_size stream_double default_config env) = 4096
  /\ SSIZE_MAX
     < mapping_offset env + usize (@buffer_size stream_double default_config env)
  /\ exists rest : list event,
       trace_of (run default_config env 3)
       = [EvPrint (MsgUsage "./stream" 80);
          EvOpen "/dev/mem" 3;
          EvMmap 4096 3 9223372036854771712 65536;
          EvMmap 4096 3 (-9223372036854775808) 131072;
          EvMmap 4096 3 (-9223372036854771712) 196608]
         ++ rest.
Proof.
  cbv zeta. split; [vm_compute; reflexivity|].
  split; [vm_compute; reflexivity|].
  split; [vm_compute; reflexivity|].
  destruct (device_trace default_config
              (example_env
                 ["./stream"; "4096"; "/dev/mem"; "9223372036854771712"]%string
                 3 granted refused) 3
              ltac:(reflexivity) ltac:(discriminate)) as [rest Hrest].
  exists rest. rewrite Hrest. f_equal.
Qed.

(** ** C7: the exit status *)

(** C7.  When a device path is given and cannot be opened, the program
    prints a message and returns 0 at once: nothing happens after the
    message (no allocation, no kernel, no validation).  Every run that
    returns, returns 0; and from the validation on, whatever the
    validation prints (a failure as well), the program goes on to
    [return 0]. *)
Theorem exit_status_zero
    {ST : StreamType} (cfg : config) (env : environment) (fuel : nat) :
  (2 < argc env -> env_open env (argv env 2) < 0 ->
     exit_status (run cfg env fuel) = Some 0
     /\ trace_of (run cfg env fuel)
        = [EvPrint (MsgUsage (argv env 0) (default_buffer_size cfg));
           EvOpen (argv env 2) (env_open env (argv env 2));
           EvPrint (MsgNotOpened (argv env 1))])
  /\ (forall status : Z,
        exit_status (run cfg env fuel) = Some status -> status = 0)
  /\ (forall (fid : Z) (s : state) (out : list message),
        checkSTREAMresults (NTIMES cfg) (stream_array_size cfg env) (st_mem s)
        = Some out ->
        exit_status (finish cfg env fid s) = Some 0).
Proof.
  split; [|split].
  - intros Hargc Hfd. rewrite (run_not_opened cfg env fuel Hargc Hfd).
    split; reflexivity.
  - intros status.
    assert (Hafter : forall fid s,
              exit_status (after_provisioning cfg env fuel fid s) = Some status ->
              status = 0).
    { intros fid s.
      destruct (after_provisioning_cases cfg env fuel fid s)
        as [(msgs & out & m & s' & _ & -> & _)|(msgs & s' & [-> | ->] & _)];
        cbn [exit_status]; congruence. }
    destruct (Z.ltb_spec 2 (argc env)) as [Hargc|Hargc].
    + destruct (Z.ltb_spec (env_open env (argv env 2)) 0) as [Hfd|Hfd].
      * rewrite (run_not_opened cfg env fuel Hargc Hfd).
        cbn [exit_status]. congruence.
      * rewrite (run_device cfg env fuel Hargc Hfd). apply Hafter.
    + rewrite (run_heap cfg env fuel Hargc). apply Hafter.
  - intros fid s out Hout.
    destruct (finish_cases cfg env fid s)
      as [(out' & s' & _ & -> & _)|[Hnone _]]; [reflexivity | congruence].
Qed.

Lemma exit_status_zero_witness :
  (exit_status (run default_config env_not_opened 3) = Some 0
   /\ trace_of (run default_config env_not_opened 3)
      = [EvPrint (MsgUsage "./stream" 80); EvOpen "/dev/missing" (-1);
         EvPrint (MsgNotOpened "4096")])
  /\ exit_status (run default_config env_no_argument 3) = Some 0
  /\ exists out : list message,
       checkSTREAMresults 10 512 (st_mem corrupted_state) = Some out
       /\ In (MsgFailed "c" 1e-13%float) out
       /\ exit_status (finish default_config env_no_argument 3 corrupted_state)
          = Some 0.
Proof.
  destruct (@exit_status_zero stream_double default_config env_not_opened 3)
    as (Hfail & _ & _).
  destruct (@exit_status_zero stream_double default_config env_no_argument 3)
    as (_ & _ & Hval).
  split; [apply Hfail; [reflexivity | reflexivity]|].
  split; [exact no_argument_run_returns|].
  assert (E : exists out,
               checkSTREAMresults 10 512 (st_mem corrupted_state) = Some out
               /\ In (MsgFailed "c" 1e-13%float) out).
    { eexists. split; [vm_compute; reflexivity|]. cbn. auto. }
    destruct E as (out & Hout & Hin). exists out.
    split; [exact Hout|]. split; [exact Hin|].
    exact (Hval 3 corrupted_state out Hout).
Defined.

(** ** C8: the teardown *)



(** C8 (as amended).  A run that returns from a device-backed
    provisioning ends with the teardown, once, after the output of the
    validation: the three regions returned by [mmap] are unmapped, in
    order, and the file descriptor is closed when it is not 0; nothing
    but printing happens between the mappings and the teardown.  A run
    started without arguments allocates its three buffers with
    [aligned_alloc] and makes no call that releases them: after the
    allocations it only prints. *)
Theorem teardown_after_validation
    {ST : StreamType} (cfg : config) (env : environment) (fuel : nat)
    (status : Z) :
  exit_status (run cfg env fuel) = Some status ->
  (2 < argc env -> 0 <= env_open env (argv env 2) ->
     exists (msgs out : list message) (m : memory),
       checkSTREAMresults (NTIMES cfg) (stream_array_size cfg env) m = Some out
       /\ trace_of (run cfg env fuel)
          = device_events cfg env
            ++ map EvPrint (msgs ++ out ++ [MsgHline])
            ++ [EvMunmap (region_pointer MAP_FAILED (env_mmap env 0))
                  (usize (buffer_size cfg env));
                EvMunmap (region_pointer MAP_FAILED (env_mmap env 1))
                  (usize (buffer_size cfg env));
                EvMunmap (region_pointer MAP_FAILED (env_mmap env 2))
                  (usize (buffer_size cfg env))]
            ++ (if env_open env (argv env 2) =? 0 then []
                else [EvClose (env_open env (argv env 2))]))
  /\ (argc env <= 1 ->
      exists msgs : list message,
        trace_of (run cfg env fuel)
        = heap_events cfg env ++ map EvPrint msgs).
Proof.
  intros Hexit.
  assert (Hrun : exists s, run cfg env fuel = Return status s).
  { destruct (run cfg env fuel) as [x s|status' s|s|s]; try discriminate Hexit.
    injection Hexit as ->. now exists s. }
  clear Hexit. destruct Hrun as [s Hrun]. split.
  - intros Hargc Hfd. unfold trace_of.
    rewrite (run_device cfg env fuel Hargc Hfd) in Hrun |- *.
    destruct (after_provisioning_cases cfg env fuel (env_open env (argv env 2))
                (device_state cfg env))
      as [(msgs & out & m & s' & Hout & Hr & Htr)|(msgs & s' & [Hr | Hr] & _)];
      [|congruence|congruence].
    exists (rev msgs), out, m. split; [exact Hout|].
    rewrite Hr. cbn [result_state]. rewrite Htr.
    unfold device_state at 2. cbn [st_trace].
    rewrite trace_in_order. do 2 f_equal.
    unfold teardown_events.
    destruct (Z.ltb_spec 1 (argc env)) as [_|]; [|lia].
    reflexivity.
  - intros Hargc. unfold trace_of.
    rewrite (run_heap cfg env fuel ltac:(lia)) in Hrun |- *.
    destruct (after_provisioning_cases cfg env fuel (env_fid env)
                (heap_state cfg env))
      as [(msgs & out & m & s' & Hout & Hr & Htr)|(msgs & s' & [Hr | Hr] & _)];
      [|congruence|congruence].
    exists (rev msgs ++ out ++ [MsgHline]).
    rewrite Hr. cbn [result_state]. rewrite Htr.
    unfold heap_state at 2. cbn [st_trace].
    rewrite trace_in_order. f_equal.
    unfold teardown_events.
    destruct (Z.ltb_spec 1 (argc env)) as [|_]; [lia|].
    now rewrite app_nil_r.
Qed.

Lemma teardown_after_validation_witness :
  (exists (msgs out : list message) (m : memory),
      @checkSTREAMresults stream_double 10 1024 m = Some out
      /\ trace_of (run default_config env_device 3)
         = [EvPrint (MsgUsage "./stream" 80);
            EvOpen "/dev/mem" 3;
            EvMmap 8192 3 8589934592 65536;
            EvMmap 8192 3 8589942784 131072;
            EvMmap 8192 3 8589950976 196608]
           ++ map EvPrint (msgs ++ out ++ [MsgHline])
           ++ [EvMunmap 65536 8192; EvMunmap 131072 8192;
               EvMunmap 196608 8192]
           ++ [EvClose 3])
  /\ exists msgs : list message,
       trace_of (run default_config env_no_argument 3)
       = [EvPrint (MsgUsage "./stream" 80);
          EvAlignedAlloc 4096 4096 65536;
          EvAlignedAlloc 4096 4096 131072;
          EvAlignedAlloc 4096 4096 196608]
         ++ map EvPrint msgs.
Proof.
  split.
  - exact (proj1 (@teardown_after_validation stream_double default_config
                    env_device 3 0 device_run_returns)
             ltac:(reflexivity) ltac:(discriminate)).
  - exact (proj2 (@teardown_after_validation stream_double default_config
                    env_no_argument 3 0 no_argument_run_returns)
             ltac:(discriminate)).
Defined.

(** C8 as stated fails for heap-backed buffers: the run without
    arguments returns 0, its three buffers come from [aligned_alloc],
    and no event of the run releases any of them. *)
Lemma heap_buffers_not_released :
  let trace := trace_of (run default_config env_no_argument 3) in
  exit_status (run default_config env_no_argument 3) = Some 0
  /\ In (EvAlignedAlloc 4096 4096 65536) trace
  /\ In (EvAlignedAlloc 4096 4096 131072) trace
  /\ In (EvAlignedAlloc 4096 4096 196608) trace
  /\ 65536 <> NULL /\ 131072 <> NULL /\ 196608 <> NULL
  /\ released trace 65536 = false
  /\ released trace 131072 = false
  /\ released trace 196608 = false.
Proof.
  cbv zeta.
  destruct (@returned_run_trace stream_double default_config env_no_argument 3
              0 ltac:(discriminate) no_argument_run_returns) as [msgs ->].
  change (provisioning_events default_config env_no_argument)
    with [EvPrint (MsgUsage "./stream" 80);
          EvAlignedAlloc 4096 4096 65536;
          EvAlignedAlloc 4096 4096 131072;
          EvAlignedAlloc 4096 4096 196608].
  change (teardown_events default_config env_no_argument
            (provisioned_fid env_no_argument)
            (provisioned_state default_config env_no_argument))
    with (@nil event).
  rewrite app_nil_r.
  split; [exact no_argument_run_returns|].
  split; [right; left; reflexivity|].
  split; [right; right; left; reflexivity|].
  split; [right; right; right; left; reflexivity|].
  split; [discriminate|]. split; [discriminate|]. split; [discriminate|].
  rewrite !released_app, !released_prints.
  split; [reflexivity|]. split; reflexivity.
Qed.

(** The run with a size as its only argument is heap-backed too, and
    ends by calling [munmap] on the three heap buffers and [close] on
    the indeterminate value of [fid]. *)
Lemma size_only_run_unmaps_heap_buffers :
  firstn 4 (trace_of (run default_config env_size_only 3))
  = [EvPrint (MsgUsage "./stream" 80);
     EvAlignedAlloc 4096 4096 65536;
     EvAlignedAlloc 4096 4096 131072;
     EvAlignedAlloc 4096 4096 196608]
  /\ rev (firstn 4 (rev (trace_of (run default_config env_size_only 3))))
     = [EvMunmap 65536 4096; EvMunmap 131072 4096; EvMunmap 196608 4096;
        EvClose 12345].
Proof.
  destruct (@returned_run_trace stream_double default_config env_size_only 3
              0 ltac:(discriminate) size_only_run_returns) as [msgs ->].
  change (provisioning_events default_config env_size_only)
    with [EvPrint (MsgUsage "./stream" 80);
          EvAlignedAlloc 4096 4096 65536;
          EvAlignedAlloc 4096 4096 131072;
          EvAlignedAlloc 4096 4096 196608].
  change (teardown_events default_config env_size_only
            (provisioned_fid env_size_only)
            (provisioned_state default_config env_size_only))
    with [EvMunmap 65536 4096; EvMunmap 131072 4096; EvMunmap 196608 4096;
          EvClose 12345].
  split; [reflexivity|].
  rewrite (app_assoc _ (map EvPrint msgs)), rev_app_distr.
  reflexivity.
Qed.

(** ** C6: a mapping that fails *)

Section MappingFailure.
Context {ST : StreamType}.

Lemma init_arrays_unmapped (n : Z) (m : memory) :
  0 < n -> mem_a m = None -> init_arrays n m = None.
Proof.
  intros Hn Ha. unfold init_arrays, for_ssize.
  destruct (Z.to_nat n) as [|k] eqn:E; [lia|].
  cbn [for_loop]. unfold init_body. rewrite Ha. reflexivity.
Qed.

(** When the first [mmap] fails the program does not stop: [a] keeps
    the value [MAP_FAILED], the banner is printed, and the first store
    of the initialisation loop goes through [a]. *)
Lemma mmap_failure_faults (cfg : config) (env : environment) (fuel : nat) :
  2 < argc env -> 0 <= env_open env (argv env 2) ->
  env_mmap env 0 = NoRegion ->
  0 < stream_array_size cfg env ->
  run cfg env fuel
  = Fault (add_events (map EvPrint (rev (banner cfg env)))
             (device_state cfg env)).
Proof.
  intros Hargc Hfd Hmap Hn.
  rewrite (run_device cfg env fuel Hargc Hfd).
  unfold after_provisioning. apply bind_Fault.
  unfold measure.
  rewrite (bind_Done _ _ _ _ _ (print_all_Done (banner cfg env) _)).
  apply bind_Fault. unfold on_memory.
  rewrite init_arrays_unmapped; [reflexivity | exact Hn |].
  cbn [add_events st_mem device_state mem_a]. now rewrite Hmap.
Qed.

End MappingFailure.

(** C6, at the failing input [./stream 4096 /dev/null]: the device is
    opened and the three mappings fail.  The program prints no
    diagnostic and does not terminate: it keeps [MAP_FAILED] in [a],
    [b] and [c] (no fallback allocation, since [MAP_FAILED] is not
    [NULL]), prints its banner and faults in the initialisation loop. *)
Theorem mmap_failure_not_checked :
  exists s : @state stream_double,
    run default_config env_not_mapped 3 = Fault s
    /\ st_a s = MAP_FAILED /\ st_b s = MAP_FAILED /\ st_c s = MAP_FAILED
    /\ trace_of (run default_config env_not_mapped 3)
       = [EvPrint (MsgUsage "./stream" 80);
          EvOpen "/dev/null" 3;
          EvMmap 4096 3 4294967296 (-1);
          EvMmap 4096 3 4294971392 (-1);
          EvMmap 4096 3 4294975488 (-1);
          EvPrint MsgHline; EvPrint MsgVersion; EvPrint MsgHline;
          EvPrint (MsgBytesPerWord 8); EvPrint MsgHline;
          EvPrint (MsgArraySize 512 0);
          EvPrint (MsgMemoryPerArray 0.00390625 3.814697265625e-06);
          EvPrint (MsgTotalMemory 0.01171875 1.1444091796875e-05);
          EvPrint (MsgRepetitions 10)].
Proof.
  pose proof (@mmap_failure_faults stream_double default_config env_not_mapped 3
                ltac:(reflexivity) ltac:(discriminate) ltac:(reflexivity)
                ltac:(reflexivity)) as H.
  eexists. split; [exact H|].
  rewrite H. repeat split.
Qed.

(** * Further properties *)

(** ** Buffers that are not available *)

Section UnavailableBuffers.
Context {ST : StreamType}.
Variable cfg : config.
Variable env : environment.
Variable fuel : nat.

(** The first turn of the initialisation loop stores through the three
    pointers. *)
Lemma init_arrays_unavailable (n : Z) (m : memory) :
  0 < n ->
  mem_a m = None \/ mem_b m = None \/ mem_c m = None ->
  init_arrays n m = None.
Proof.
  intros Hn H. unfold init_arrays, for_ssize.
  destruct (Z.to_nat n) as [|k] eqn:E; [lia|].
  cbn [for_loop]. unfold init_body.
  destruct (store (mem_a m) 0 (elt_of_double 1)) as [a'|] eqn:Ea;
    [|reflexivity].
  cbn [mbind option_bind].
  destruct (store (mem_b m) 0 (elt_of_double 2)) as [b'|] eqn:Eb;
    [|reflexivity].
  cbn [mbind option_bind].
  destruct (store (mem_c m) 0 (elt_of_double 0)) as [c'|] eqn:Ec;
    [|reflexivity].
  destruct H as [H|[H|H]]; rewrite H in *; discriminate.
Qed.

(** The run after an [open] that did not fail. *)
Lemma run_opened :
  (2 < argc env -> 0 <= env_open env (argv env 2)) ->
  run cfg env fuel
  = after_provisioning cfg env fuel (provisioned_fid env)
      (provisioned_state cfg env).
Proof.
  intros Hfd. unfold provisioned_fid, provisioned_state.
  destruct (Z.ltb_spec 2 (argc env)) as [Hargc|Hargc].
  - apply run_device; auto.
  - now apply run_heap.
Qed.

Lemma provisioned_state_trace :
  st_trace (provisioned_state cfg env) = rev (provisioning_events cfg env).
Proof.
  unfold provisioned_state, provisioning_events.
  destruct (2 <? argc env); reflexivity.
Qed.

Lemma unavailable_buffer :
  (exists i : nat,
      (i < 3)%nat
      /\ (if 2 <? argc env then env_mmap env i else env_aligned_alloc env i)
         = NoRegion) ->
  mem_a (st_mem (provisioned_state cfg env)) = None
  \/ mem_b (st_mem (provisioned_state cfg env)) = None
  \/ mem_c (st_mem (provisioned_state cfg env)) = None.
Proof.
  intros (i & Hi & H). unfold provisioned_state.
  destruct (2 <? argc env); cbn [device_state heap_state st_mem mem_a mem_b mem_c];
    destruct i as [|[|[|i]]]; try lia; rewrite H; cbn [region_buffer]; auto.
Qed.

End UnavailableBuffers.

(** X4.  When a request for memory is refused (one of the three [mmap] with
    a device path, one of the three [aligned_alloc] without), the
    program does not notice: it prints its banner, and the first turn
    of the initialisation loop stores through a pointer that addresses
    no memory.  Nothing is printed after the banner. *)
Theorem unavailable_buffer_faults
    {ST : StreamType} (cfg : config) (env : environment) (fuel : nat) :
  0 < stream_array_size cfg env ->
  (2 < argc env -> 0 <= env_open env (argv env 2)) ->
  (exists i : nat,
      (i < 3)%nat
      /\ (if 2 <? argc env then env_mmap env i else env_aligned_alloc env i)
         = NoRegion) ->
  run cfg env fuel
  = Fault (add_events (map EvPrint (rev (banner cfg env)))
             (provisioned_state cfg env))
  /\ trace_of (run cfg env fuel)
     = provisioning_events cfg env ++ map EvPrint (banner cfg env).
Proof.
  intros Hn Hfd Hi.
  assert (Hrun : run cfg env fuel
                 = Fault (add_events (map EvPrint (rev (banner cfg env)))
                            (provisioned_state cfg env))).
  { rewrite (run_opened cfg env fuel Hfd).
    unfold after_provisioning. apply bind_Fault.
    unfold measure.
    rewrite (bind_Done _ _ _ _ _ (print_all_Done (banner cfg env) _)).
    apply bind_Fault. unfold on_memory.
    rewrite init_arrays_unavailable; [reflexivity | exact Hn |].
    cbn [add_events st_mem]. now apply unavailable_buffer. }
  split; [exact Hrun|].
  rewrite Hrun. unfold trace_of. cbn [result_state add_events st_trace].
  rewrite provisioned_state_trace.
  rewrite rev_app_distr, rev_involutive, <- map_rev, rev_involutive.
  reflexivity.
Qed.

Lemma unavailable_buffer_faults_witness :
  trace_of (run default_config
              (example_env ["./stream"]%string 3 refused
                 (fun i => if Nat.eqb i 1 then NoRegion else granted i)) 3)
  = [EvPrint (MsgUsage "./stream" 80);
     EvAlignedAlloc 4096 4096 65536;
     EvAlignedAlloc 4096 4096 0;
     EvAlignedAlloc 4096 4096 196608;
     EvPrint MsgHline; EvPrint MsgVersion; EvPrint MsgHline;
     EvPrint (MsgBytesPerWord 8); EvPrint MsgHline;
     EvPrint (MsgArraySize 512 0);
     EvPrint (MsgMemoryPerArray 0.00390625 3.814697265625e-06);
     EvPrint (MsgTotalMemory 0.01171875 1.1444091796875e-05);
     EvPrint (MsgRepetitions 10)].
Proof.
  refine (proj2 (@unavailable_buffer_faults stream_double default_config
                   (example_env ["./stream"]%string 3 refused
                      (fun i => if Nat.eqb i 1 then NoRegion else granted i)) 3
                   _ _ _)).
  - reflexivity.
  - discriminate.
  - exists 1%nat. split; [lia | reflexivity].
Defined.

(** ** The events of any run *)

Section AnyRun.
Context {ST : StreamType}.
Variable cfg : config.
Variable env : environment.
Variable fuel : nat.

(** The events of a run after an [open] that did not fail: those of the
    provisioning, then messages, then nothing or the teardown. *)
Lemma run_trace_shape :
  (2 < argc env -> 0 <= env_open env (argv env 2)) ->
  exists (msgs : list message) (tail : list event),
    trace_of (run cfg env fuel)
    = provisioning_events cfg env ++ map EvPrint msgs ++ tail
    /\ (tail = []
        \/ tail = teardown_events cfg env (provisioned_fid env)
                    (provisioned_state cfg env)).
Proof.
  intros Hfd. rewrite (run_opened cfg env fuel Hfd).
  destruct (after_provisioning_cases cfg env fuel (provisioned_fid env)
              (provisioned_state cfg env))
    as [(msgs & out & m & s' & _ & Hr & Htr)|(msgs & s' & [Hr | Hr] & Htr)];
    rewrite Hr; unfold trace_of; cbn [result_state]; rewrite Htr;
    rewrite provisioned_state_trace.
  - exists (rev msgs ++ out ++ [MsgHline]). eexists.
    split; [apply trace_in_order | now right].
  - exists (rev msgs), []. split; [|now left].
    now rewrite rev_app_distr, rev_involutive, map_rev, app_nil_r.
  - exists (rev msgs), []. split; [|now left].
    now rewrite rev_app_distr, rev_involutive, map_rev, app_nil_r.
Qed.

(** A property of events that holds of the messages and of the calls of
    the teardown holds of all the events of a run as soon as it holds of
    those of the provisioning. *)
Lemma run_events (P : event -> Prop) :
  (forall msg : message, P (EvPrint msg)) ->
  (forall addr len : Z, P (EvMunmap addr len)) ->
  (forall fd : Z, P (EvClose fd)) ->
  (forall e : event, In e (provisioning_events cfg env) -> P e) ->
  forall e : event, In e (trace_of (run cfg env fuel)) -> P e.
Proof.
  intros Hprint Hmunmap Hclose Hprov e Hin.
  destruct (Z.ltb_spec 2 (argc env)) as [Hargc|Hargc];
    [destruct (Z.ltb_spec (env_open env (argv env 2)) 0) as [Hfd|Hfd]|].
  - rewrite (run_not_opened cfg env fuel Hargc Hfd) in Hin.
    unfold trace_of in Hin.
    cbn [result_state add_events usage_state st_trace app rev] in Hin.
    apply Z.ltb_lt in Hargc.
    destruct Hin as [<-|[<-|[<-|[]]]].
    + apply Hprov. unfold provisioning_events. rewrite Hargc. now left.
    + apply Hprov. unfold provisioning_events. rewrite Hargc. right. now left.
    + apply Hprint.
  - destruct (run_trace_shape ltac:(auto)) as (msgs & tail & Htr & Htail).
    rewrite Htr in Hin. apply in_app_or in Hin as [Hin|Hin]; [now apply Hprov|].
    apply in_app_or in Hin as [Hin|Hin].
    + apply in_map_iff in Hin as (msg & <- & _). apply Hprint.
    + destruct Htail as [->| ->]; [destruct Hin|].
      unfold teardown_events in Hin.
      destruct (1 <? argc env); [|destruct Hin].
      cbn [app] in Hin. destruct Hin as [<-|[<-|[<-|Hin]]]; try apply Hmunmap.
      destruct (provisioned_fid env =? 0); [destruct Hin|].
      destruct Hin as [<-|[]]. apply Hclose.
  - destruct (run_trace_shape ltac:(lia)) as (msgs & tail & Htr & Htail).
    rewrite Htr in Hin. apply in_app_or in Hin as [Hin|Hin]; [now apply Hprov|].
    apply in_app_or in Hin as [Hin|Hin].
    + apply in_map_iff in Hin as (msg & <- & _). apply Hprint.
    + destruct Htail as [->| ->]; [destruct Hin|].
      unfold teardown_events in Hin.
      destruct (1 <? argc env); [|destruct Hin].
      cbn [app] in Hin. destruct Hin as [<-|[<-|[<-|Hin]]]; try apply Hmunmap.
      destruct (provisioned_fid env =? 0); [destruct Hin|].
      destruct Hin as [<-|[]]. apply Hclose.
Qed.

End AnyRun.

(** ** The arguments of [mmap] *)

Lemma ssize_mod_page (x : Z) : ssize x mod 4096 = x mod 4096.
Proof.
  unfold ssize, wrap_signed.
  rewrite (Z.mod_eq (x + 2 ^ (64 - 1)) (2 ^ 64)) by lia.
  replace (x + 2 ^ (64 - 1) - 2 ^ 64 * ((x + 2 ^ (64 - 1)) / 2 ^ 64)
           - 2 ^ (64 - 1))
    with (x + (- (2 ^ 52) * ((x + 2 ^ (64 - 1)) / 2 ^ 64)) * 4096) by lia.
  apply Z.mod_add. lia.
Qed.

Lemma usize_mod_page (x : Z) : usize x mod 4096 = x mod 4096.
Proof.
  unfold usize, wrap_unsigned. rewrite (Z.mod_eq x (2 ^ 64)) by lia.
  replace (x - 2 ^ 64 * (x / 2 ^ 64))
    with (x + (- (2 ^ 52) * (x / 2 ^ 64)) * 4096) by lia.
  apply Z.mod_add. lia.
Qed.

Lemma buffer_size_mod_page {ST : StreamType} (cfg : config) (env : environment) :
  buffer_size cfg env mod 4096 = 0.
Proof.
  unfold buffer_size, round_up_page. rewrite land_PAGE_MASK.
  rewrite Z.mul_comm. apply Z.mod_mul. lia.
Qed.

Lemma mapping_offset_mod_page {ST : StreamType} (env : environment) :
  mapping_offset env mod 4096 = 0.
Proof. unfold mapping_offset. apply truncate_page_spec. Qed.

(** X12.  Every call of [mmap] of every run asks for a length and an offset
    that are multiples of the page size: the size of a buffer is
    rounded up, the offset is truncated, and the offsets of the second
    and third buffers add multiples to it (a wrap-around of the 64-bit
    sum keeps the alignment). *)
Theorem mmap_calls_aligned
    {ST : StreamType} (cfg : config) (env : environment) (fuel : nat)
    (len fd off p : Z) :
  In (EvMmap len fd off p) (trace_of (run cfg env fuel)) ->
  len mod 4096 = 0 /\ off mod 4096 = 0.
Proof.
  intros Hin.
  apply (run_events cfg env fuel aligned_mmap) in Hin;
    [exact Hin | intros; exact I | intros; exact I | intros; exact I |].
  clear. intros e He. unfold provisioning_events in He.
  pose proof (buffer_size_mod_page cfg env) as Hb.
  pose proof (mapping_offset_mod_page env) as Ho.
  destruct (2 <? argc env).
  - destruct He as [<-|[<-|[<-|[<-|[<-|[]]]]]]; cbn [aligned_mmap];
      try exact I; rewrite usize_mod_page, ?ssize_mod_page;
      (split; [exact Hb|]); try exact Ho.
    + rewrite Z.add_mod, Ho, Hb by lia. reflexivity.
    + rewrite Z.add_mod, Ho, ssize_mod_page by lia.
      rewrite Z.mul_comm, Z.mul_mod, Hb by lia. reflexivity.
  - destruct He as [<-|[<-|[<-|[<-|[]]]]]; exact I.
Qed.

Lemma mmap_calls_aligned_witness :
  In (EvMmap 8192 3 8589950976 196608)
    (trace_of (run default_config env_device 3))
  /\ 8192 mod 4096 = 0 /\ 8589950976 mod 4096 = 0.
Proof.
  assert (Hin : In (EvMmap 8192 3 8589950976 196608)
                  (trace_of (run default_config env_device 3))).
  { destruct (@run_trace_shape stream_double default_config env_device 3
                ltac:(discriminate)) as (msgs & tail & -> & _).
    apply in_or_app. left. do 4 right. left. reflexivity. }
  split; [exact Hin|].
  exact (@mmap_calls_aligned stream_double default_config env_device 3
           8192 3 8589950976 196608 Hin).
Defined.

(** X13.  The two ways of provisioning exclude each other in every run: with
    a device path the program never calls [aligned_alloc], not even
    when a mapping fails; without one it never calls [open] or
    [mmap]. *)
Theorem provisioning_modes_exclusive
    {ST : StreamType} (cfg : config) (env : environment) (fuel : nat)
    (e : event) :
  In e (trace_of (run cfg env fuel)) ->
  (2 < argc env -> is_heap_call e = false)
  /\ (argc env <= 2 -> is_device_call e = false).
Proof.
  apply (run_events cfg env fuel
           (fun e => (2 < argc env -> is_heap_call e = false)
                     /\ (argc env <= 2 -> is_device_call e = false)));
    try (intros; split; reflexivity).
  clear e. intros e He. unfold provisioning_events in He.
  destruct (Z.ltb_spec 2 (argc env)) as [Hargc|Hargc].
  - destruct He as [<-|[<-|[<-|[<-|[<-|[]]]]]];
      (split; [reflexivity | lia]).
  - destruct He as [<-|[<-|[<-|[<-|[]]]]];
      (split; [lia | reflexivity]).
Qed.

Lemma provisioning_modes_exclusive_witness :
  In (EvMmap 8192 3 8589950976 196608)
    (trace_of (run default_config env_device 3))
  /\ is_heap_call (EvMmap 8192 3 8589950976 196608) = false.
Proof.
  assert (Hin : In (EvMmap 8192 3 8589950976 196608)
                  (trace_of (run default_config env_device 3))).
  { destruct (@run_trace_shape stream_double default_config env_device 3
                ltac:(discriminate)) as (msgs & tail & -> & _).
    apply in_or_app. left. do 4 right. left. reflexivity. }
  split; [exact Hin|].
  apply (@provisioning_modes_exclusive stream_double default_config env_device
           3 (EvMmap 8192 3 8589950976 196608) Hin).
  reflexivity.
Defined.

(** ** The validation of the arrays the kernels produce *)

Lemma zero_or_nan_sub_same (x : float) : zero_or_nan (x - x) = true.
Proof.
  unfold zero_or_nan. rewrite sub_spec.
  destruct (Prim2SF x) as [s|s| |s m e]; try (destruct s; reflexivity);
    [reflexivity|].
  unfold SF64sub, SFsub. rewrite Z.sub_diag. reflexivity.
Qed.

Lemma zero_or_nan_add (x y : float) :
  zero_or_nan x = true -> zero_or_nan y = true -> zero_or_nan (x + y) = true.
Proof.
  unfold zero_or_nan. rewrite add_spec.
  destruct (Prim2SF x) as [sx|sx| |sx mx ex], (Prim2SF y) as [sy|sy| |sy my ey];
    try discriminate; intros _ _; try reflexivity.
  destruct sx, sy; reflexivity.
Qed.

Lemma zero_or_nan_div (x y : float) :
  zero_or_nan x = true -> zero_or_nan (x / y) = true.
Proof.
  unfold zero_or_nan. rewrite div_spec.
  destruct (Prim2SF x) as [sx|sx| |sx mx ex]; try discriminate; intros _;
    destruct (Prim2SF y) as [sy|sy| |sy my ey]; reflexivity.
Qed.

Lemma zero_or_nan_abs (x : float) :
  zero_or_nan x = true -> zero_or_nan (@abs_elt stream_double x) = true.
Proof.
  intros H. unfold abs_elt. cbn [elt_ge0 elt_neg stream_double].
  destruct (0 <=? x)%float; [exact H|].
  unfold zero_or_nan in *. rewrite opp_spec.
  destruct (Prim2SF x); try discriminate; reflexivity.
Qed.

Lemma zero_or_nan_below (x : float) :
  zero_or_nan x = true -> (1e-13 <? x)%float = false.
Proof.
  unfold zero_or_nan. rewrite ltb_spec.
  destruct (Prim2SF x) as [s|s| |s m e]; try discriminate; intros _;
    try destruct s; vm_compute; reflexivity.
Qed.

Lemma zero_or_nan32_below (x : float32) :
  zero_or_nan32 x = true -> (1e-6 <? SF2Prim x)%float = false.
Proof.
  destruct x as [s|s| |s m e]; try discriminate; intros _;
    try destruct s; vm_compute; reflexivity.
Qed.

(** Arrays that hold the expected values in every element pass the
    validation, whatever these values are: the differences summed are
    zeros, or NaNs when the values are infinite, and neither exceeds
    the tolerance. *)
Section SelfValidation.
Context {ST : StreamType}.
Variable harmless : elt -> bool.
Hypothesis harmless_zero : harmless (elt_of_double 0.0) = true.
Hypothesis harmless_sub : forall x : elt, harmless (elt_sub x x) = true.
Hypothesis harmless_add : forall x y : elt,
  harmless x = true -> harmless y = true -> harmless (elt_add x y) = true.
Hypothesis harmless_div : forall x y : elt,
  harmless x = true -> harmless (elt_div x y) = true.
Hypothesis harmless_abs : forall x : elt,
  harmless x = true -> harmless (abs_elt x) = true.
Hypothesis harmless_below : forall x : elt,
  harmless x = true ->
  (epsilon_of sizeof_elt <? double_of_elt x)%float = false.

Lemma abs_err_sum_replicate (n : nat) (e : elt) :
  harmless (abs_err_sum (replicate n e) e) = true.
Proof.
  unfold abs_err_sum. generalize (elt_of_double 0.0) harmless_zero.
  induction n as [|n IH]; intros acc Hacc; [exact Hacc|].
  cbn [replicate fold_left]. apply IH. auto.
Qed.

Lemma replicate_passes (n : nat) (e d : elt) :
  exceeds (elt_div (abs_err_sum (replicate n e) e) d) e (epsilon_of sizeof_elt)
  = false.
Proof.
  unfold exceeds. auto using abs_err_sum_replicate.
Qed.

Lemma replicated_arrays_validate (R n : Z) :
  checkSTREAMresults R n
    (memory_of (replicate (Z.to_nat n) (expected_values R)))
  = Some (epsilon_messages sizeof_elt ++ [MsgValidates (epsilon_of sizeof_elt)]).
Proof.
  unfold checkSTREAMresults.
  destruct (expected_values R) as [[aj bj] cj]. cbv zeta.
  rewrite memory_of_replicate.
  rewrite sum_loop_all by apply length_replicate.
  cbn [mbind option_bind mem_a mem_b mem_c]. unfold check_array.
  rewrite !replicate_passes. reflexivity.
Qed.

End SelfValidation.

Lemma double_arrays_validate (R n : Z) :
  @checkSTREAMresults stream_double R n
    (memory_of (replicate (Z.to_nat n) (expected_values R)))
  = Some [MsgValidates 1e-13%float].
Proof.
  apply (@replicated_arrays_validate stream_double zero_or_nan).
  - reflexivity.
  - exact zero_or_nan_sub_same.
  - exact zero_or_nan_add.
  - exact zero_or_nan_div.
  - exact zero_or_nan_abs.
  - exact zero_or_nan_below.
Qed.

Lemma float_arrays_validate (R n : Z) :
  @checkSTREAMresults stream_float R n
    (memory_of (replicate (Z.to_nat n) (expected_values R)))
  = Some [MsgValidates 1e-6%float].
Proof.
  apply (@replicated_arrays_validate stream_float zero_or_nan32).
  - reflexivity.
  - intros [s|s| |s m e]; try (destruct s; reflexivity); [reflexivity|].
    cbn [elt_sub stream_float]. unfold SFsub. rewrite Z.sub_diag. reflexivity.
  - intros [sx|sx| |sx mx ex] [sy|sy| |sy my ey]; try discriminate;
      intros _ _; try reflexivity. destruct sx, sy; reflexivity.
  - intros [sx|sx| |sx mx ex] y; try discriminate; intros _;
      destruct y as [sy|sy| |sy my ey]; reflexivity.
  - intros x H. unfold abs_elt. cbn [elt_ge0 elt_neg stream_float].
    destruct (SFleb (S754_zero false) x); [exact H|].
    destruct x; try discriminate; reflexivity.
  - exact zero_or_nan32_below.
Qed.

(** ** A run that completes *)

(** X1.  A run whose buffers are provisioned and whose clock advances ends
    with [return 0]; its events are those of the provisioning, then
    the output of the measurements and of the validation of the arrays
    the kernels have produced, then those of the teardown. *)
Theorem run_completes
    {ST : StreamType} (cfg : config) (env : environment) (fuel : nat) :
  0 < sizeof_elt ->
  0 <= buffer_size cfg env ->
  provisioned env ->
  clock_advances env fuel ->
  exists (ticks : Z) (k1 : nat) (out : list message),
    checktick fuel (now env) 0 = Some (ticks, k1)
    /\ checkSTREAMresults (NTIMES cfg) (stream_array_size cfg env)
         (final_memory cfg env) = Some out
    /\ exit_status (run cfg env fuel) = Some 0
    /\ trace_of (run cfg env fuel)
       = provisioning_events cfg env
         ++ map EvPrint (measure_output cfg env ticks k1 ++ out ++ [MsgHline])
         ++ teardown_events cfg env (provisioned_fid env)
              (provisioned_state cfg env).
Proof.
  intros Hsz Hbs Hprov Hclock.
  destruct (provisioned_sized cfg env Hsz Hbs Hprov) as (Hsized & Hreads & Htr0).
  destruct (after_provisioning_completes cfg env fuel (provisioned_fid env)
              (provisioned_state cfg env) Hsized Hreads Hclock)
    as (ticks & k1 & out & s & Htick & Hout & Hrun & Htr).
  exists ticks, k1, out.
  split; [exact Htick|]. split; [exact Hout|].
  rewrite (run_provisioned cfg env fuel Hprov), Hrun.
  split; [reflexivity|].
  unfold trace_of. cbn [result_state]. rewrite Htr, Htr0.
  rewrite (rev_app_distr (rev _)), (rev_app_distr (map _ _)).
  rewrite !rev_involutive, <- map_rev, rev_involutive.
  rewrite <- !app_assoc. reflexivity.
Qed.

Lemma run_completes_witness :
  exists (ticks : Z) (k1 : nat) (out : list message),
    checktick 3 (now env_device) 0 = Some (ticks, k1)
    /\ @checkSTREAMresults stream_double 10 1024
         (final_memory default_config env_device) = Some out
    /\ exit_status (run default_config env_device 3) = Some 0
    /\ trace_of (run default_config env_device 3)
       = [EvPrint (MsgUsage "./stream" 80);
          EvOpen "/dev/mem" 3;
          EvMmap 8192 3 8589934592 65536;
          EvMmap 8192 3 8589942784 131072;
          EvMmap 8192 3 8589950976 196608]
         ++ map EvPrint (measure_output default_config env_device ticks k1
                         ++ out ++ [MsgHline])
         ++ [EvMunmap 65536 8192; EvMunmap 131072 8192; EvMunmap 196608 8192;
             EvClose 3].
Proof.
  refine (@run_completes stream_double default_config env_device 3 _ _ _ _).
  - reflexivity.
  - discriminate.
  - split; [discriminate|]. intros i _. apply granted_region.
  - apply example_clock_advances.
Defined.

(** ** The validation of the arrays the program has computed *)

(** X3.  With [-DSTREAM_TYPE=float], whatever the arrays hold at first, the
    arrays the kernels leave pass the validation: the output of
    [checkSTREAMresults] is the one line that the solution validates,
    with the tolerance 1e-6.  This holds for every number of
    repetitions, also when the values have grown to infinity, where the
    differences are NaNs and no comparison with a NaN succeeds. *)
Theorem float_computed_arrays_validate
    (R n : Z) (m : @memory stream_float) :
  sized (Z.to_nat n) m ->
  exists m' : memory,
    executor R n m = Some m'
    /\ checkSTREAMresults R n m' = Some [MsgValidates 1e-6%float].
Proof.
  intros Hsized.
  destruct (sized_memory_of _ _ Hsized) as (T & -> & Hlen).
  eexists. split; [apply executor_cells; now rewrite Hlen|].
  rewrite Hlen. apply float_arrays_validate.
Qed.

Lemma float_computed_arrays_validate_witness :
  exists m' : @memory stream_float,
    executor 10 2
      (@Memory stream_float (Some [S754_zero false; S754_nan])
         (Some [S754_infinity true; S754_zero true])
         (Some [S754_nan; S754_nan])) = Some m'
    /\ checkSTREAMresults 10 2 m' = Some [MsgValidates 1e-6%float].
Proof.
  apply float_computed_arrays_validate.
  eexists _, _, _. split; [reflexivity|]. repeat split.
Defined.

(** X2.  A run of the default build (doubles) whose buffers are provisioned
    and whose clock advances prints, after its measurements, that the
    solution validates, then a rule; it ends with the teardown and
    [return 0]. *)
Theorem double_run_validates
    (cfg : config) (env : @environment stream_double) (fuel : nat) :
  0 <= buffer_size cfg env ->
  provisioned env ->
  clock_advances env fuel ->
  exists (ticks : Z) (k1 : nat),
    checktick fuel (now env) 0 = Some (ticks, k1)
    /\ exit_status (run cfg env fuel) = Some 0
    /\ trace_of (run cfg env fuel)
       = provisioning_events cfg env
         ++ map EvPrint (measure_output cfg env ticks k1
                         ++ [MsgValidates 1e-13%float; MsgHline])
         ++ teardown_events cfg env (provisioned_fid env)
              (provisioned_state cfg env).
Proof.
  intros Hbs Hprov Hclock.
  destruct (provisioned_sized cfg env eq_refl Hbs Hprov)
    as (Hsized & Hreads & Htr0).
  destruct (after_provisioning_completes cfg env fuel (provisioned_fid env)
              (provisioned_state cfg env) Hsized Hreads Hclock)
    as (ticks & k1 & out & s & Htick & Hout & Hrun & Htr).
  unfold final_memory in Hout. rewrite double_arrays_validate in Hout.
  injection Hout as <-.
  exists ticks, k1. split; [exact Htick|].
  rewrite (run_provisioned cfg env fuel Hprov), Hrun.
  split; [reflexivity|].
  unfold trace_of. cbn [result_state]. rewrite Htr, Htr0.
  rewrite (rev_app_distr (rev _)), (rev_app_distr (map _ _)).
  rewrite !rev_involutive, <- map_rev, rev_involutive.
  rewrite <- !app_assoc. reflexivity.
Qed.

Lemma double_run_validates_witness :
  exists (ticks : Z) (k1 : nat),
    checktick 3 (now env_no_argument) 0 = Some (ticks, k1)
    /\ exit_status (run default_config env_no_argument 3) = Some 0
    /\ trace_of (run default_config env_no_argument 3)
       = [EvPrint (MsgUsage "./stream" 80);
          EvAlignedAlloc 4096 4096 65536;
          EvAlignedAlloc 4096 4096 131072;
          EvAlignedAlloc 4096 4096 196608]
         ++ map EvPrint (measure_output default_config env_no_argument ticks k1
                         ++ [MsgValidates 1e-13%float; MsgHline])
         ++ [].
Proof.
  refine (double_run_validates default_config env_no_argument 3 _ _ _).
  - discriminate.
  - intros i _. apply granted_region.
  - apply example_clock_advances.
Defined.

(** ** A run with a size as its only argument *)

(** X5.  With a size as its only argument ([argc = 2]) the buffers come
    from [aligned_alloc], and a run that returns ends by calling
    [munmap] on the three of them, then [close] on the value the
    variable [fid] happens to hold, which was never assigned, unless
    that value is 0. *)
Theorem size_only_teardown
    {ST : StreamType} (cfg : config) (env : environment) (fuel : nat)
    (status : Z) :
  argc env = 2 ->
  exit_status (run cfg env fuel) = Some status ->
  exists msgs : list message,
    trace_of (run cfg env fuel)
    = heap_events cfg env ++ map EvPrint msgs
      ++ [EvMunmap (region_pointer NULL (env_aligned_alloc env 0))
            (usize (buffer_size cfg env));
          EvMunmap (region_pointer NULL (env_aligned_alloc env 1))
            (usize (buffer_size cfg env));
          EvMunmap (region_pointer NULL (env_aligned_alloc env 2))
            (usize (buffer_size cfg env))]
      ++ (if env_fid env =? 0 then [] else [EvClose (env_fid env)]).
Proof.
  intros Hargc Hexit.
  destruct (returned_run_trace cfg env fuel status ltac:(lia) Hexit)
    as [msgs Htr].
  exists msgs. rewrite Htr.
  unfold provisioning_events, teardown_events, provisioned_fid,
    provisioned_state.
  rewrite Hargc. reflexivity.
Qed.

Lemma size_only_teardown_witness :
  exists msgs : list message,
    trace_of (run default_config env_size_only 3)
    = [EvPrint (MsgUsage "./stream" 80);
       EvAlignedAlloc 4096 4096 65536;
       EvAlignedAlloc 4096 4096 131072;
       EvAlignedAlloc 4096 4096 196608]
      ++ map EvPrint msgs
      ++ [EvMunmap 65536 4096; EvMunmap 131072 4096; EvMunmap 196608 4096]
      ++ [EvClose 12345].
Proof.
  exact (@size_only_teardown stream_double default_config env_size_only 3 0
           eq_refl size_only_run_returns).
Defined.

(** ** The table of timings *)

Lemma get_time_set_time_eq (times : list (list float)) (j k : nat) (v : float) :
  (j < length times)%nat -> (k < length (nth j times []))%nat ->
  get_time (set_time times j k v) j k = v.
Proof.
  unfold get_time, set_time. intros Hj Hk.
  rewrite (nth_lookup _ j), list_lookup_alter_eq.
  rewrite (nth_lookup times j) in Hk.
  destruct (times !! j) as [row|] eqn:E; cbn in *; [|lia].
  rewrite nth_lookup, list_lookup_insert_eq by exact Hk. reflexivity.
Qed.

Lemma get_time_set_time_ne (times : list (list float)) (j k j' k' : nat)
    (v : float) :
  j <> j' \/ k <> k' ->
  get_time (set_time times j k v) j' k' = get_time times j' k'.
Proof.
  unfold get_time, set_time. intros H.
  rewrite (nth_lookup _ j'), (nth_lookup times j').
  destruct (decide (j = j')) as [<-|Hne].
  - rewrite list_lookup_alter_eq.
    destruct (times !! j) as [row|]; cbn; [|reflexivity].
    rewrite !nth_lookup, list_lookup_insert_ne by (destruct H; congruence).
    reflexivity.
  - now rewrite list_lookup_alter_ne.
Qed.

Lemma set_time_length (times : list (list float)) (j k : nat) (v : float) :
  length (set_time times j k v) = length times.
Proof. unfold set_time. apply length_alter. Qed.

Lemma set_time_row_length (times : list (list float)) (j k j' : nat)
    (v : float) :
  length (nth j' (set_time times j k v) []) = length (nth j' times []).
Proof.
  unfold set_time. rewrite (nth_lookup _ j'), (nth_lookup times j').
  destruct (decide (j = j')) as [<-|Hne].
  - rewrite list_lookup_alter_eq.
    destruct (times !! j) as [row|]; cbn; [|reflexivity].
    apply length_insert.
  - now rewrite list_lookup_alter_ne.
Qed.

Lemma iter_loop_ext {St : Type} (count k : nat) (f g : nat -> St -> St)
    (s : St) :
  (forall (i : nat) (s' : St), (k <= i < k + count)%nat -> f i s' = g i s') ->
  iter_loop count k f s = iter_loop count k g s.
Proof.
  revert k s. induction count as [|count IH]; intros k s H; [reflexivity|].
  cbn [iter_loop]. rewrite (H k s) by lia. apply IH.
  intros i s' Hi. apply H. lia.
Qed.

(** X7.  The summary does not read the times of the first iteration:
    whatever is recorded for repetition 0 of a kernel, the statistics
    are the same. *)
Theorem summary_skips_first_iteration
    (R : Z) (times : list (list float)) (j : nat) (v : float) :
  summary R (set_time times j 0 v) = summary R times.
Proof.
  unfold summary. apply iter_loop_ext. intros k st Hk.
  apply iter_loop_ext. intros j' st' _.
  unfold summary_body.
  now rewrite get_time_set_time_ne by (right; lia).
Qed.

(** The fold of [MAX] returns its start value or one of the samples,
    and an upper bound of all of them. *)
Lemma fold_MAXd (l : list float) (acc : float) :
  is_number acc = true ->
  (forall t, In t l -> is_number t = true) ->
  let m := fold_left MAXd l acc in
  (m = acc \/ In m l)
  /\ (acc <=? m)%float = true
  /\ forall t, In t l -> (t <=? m)%float = true.
Proof.
  revert acc. induction l as [|t l IH]; intros acc Hacc Hl; cbn [fold_left].
  - split; [now left|]. split; [now apply leb_refl|]. intros t [].
  - assert (Ht : is_number t = true) by (apply Hl; now left).
    assert (Hm : is_number (MAXd acc t) = true)
      by (unfold MAXd; destruct (t <? acc)%float; assumption).
    destruct (IH (MAXd acc t) Hm ltac:(intros; apply Hl; now right))
      as (Hin & Hle & Hall).
    assert (Hacc' : (acc <=? MAXd acc t)%float = true
                    /\ (t <=? MAXd acc t)%float = true).
    { unfold MAXd. destruct (t <? acc)%float eqn:E.
      - split; [now apply leb_refl | now apply ltb_leb].
      - split; [now apply ltb_false_leb | now apply leb_refl]. }
    destruct Hacc' as [H1 H2].
    split; [|split].
    + destruct Hin as [->|Hin]; [|right; now right].
      unfold MAXd. destruct (t <? acc)%float; [now left | right; now left].
    + eapply leb_trans; eauto.
    + intros t' [<-|Hin']; [eapply leb_trans; eauto | now apply Hall].
Qed.

Lemma summary_avgtime (R : Z) (times : list (list float)) (j : nat) :
  (j < 4)%nat ->
  nth j (avgtime (summary R times)) 0%float
  = fold_left PrimFloat.add (samples times j 1 (Z.to_nat R - 1)) 0%float.
Proof.
  intros Hj. unfold summary, initial_statistics. rewrite summary_loop.
  destruct j as [|[|[|[|j]]]]; try reflexivity. lia.
Qed.

Lemma summary_maxtime (R : Z) (times : list (list float)) (j : nat) :
  (j < 4)%nat ->
  nth j (maxtime (summary R times)) 0%float
  = fold_left MAXd (samples times j 1 (Z.to_nat R - 1)) 0%float.
Proof.
  intros Hj. unfold summary, initial_statistics. rewrite summary_loop.
  destruct j as [|[|[|[|j]]]]; try reflexivity. lia.
Qed.

Lemma table_nth (R : Z) (bytes : list float) (st : statistics) (j : nat) :
  (j < 4)%nat ->
  nth j (table R bytes st) MsgHline = table_row R bytes st j.
Proof.
  intros Hj. unfold table.
  rewrite (nth_indep _ MsgHline (table_row R bytes st 0%nat))
    by (rewrite length_map, length_seq; exact Hj).
  now rewrite List.map_nth, seq_nth by exact Hj.
Qed.

(** X8.  The columns "Avg time" and "Max time" of the table: for each
    kernel, the sum of the times of the repetitions 1 to [NTIMES - 1]
    (added in this order from 0) divided by [NTIMES - 1], and the
    largest of these times, or 0 when none is positive.  When the times
    are numbers the minimum printed is not above the maximum printed. *)
Theorem summary_avg_max
    (cfg : config) (bytes : list float) (times : list (list float)) (j : nat) :
  (j < 4)%nat ->
  (forall t, In t (samples times j 1 (Z.to_nat (NTIMES cfg) - 1)) ->
             is_number t = true) ->
  exists r avg mn mx : float,
    nth j (table (NTIMES cfg) bytes (summary (NTIMES cfg) times)) MsgHline
    = MsgTableRow (nth j label ""%string) r avg mn mx
    /\ avg = (fold_left PrimFloat.add
                (samples times j 1 (Z.to_nat (NTIMES cfg) - 1)) 0
              / double_of_Z (NTIMES cfg - 1))%float
    /\ (mx = 0%float \/ In mx (samples times j 1 (Z.to_nat (NTIMES cfg) - 1)))
    /\ (forall t, In t (samples times j 1 (Z.to_nat (NTIMES cfg) - 1)) ->
                  (t <=? mx)%float = true)
    /\ (mn <=? mx)%float = true.
Proof.
  intros Hj Hs. pose proof (NTIMES_ge_2 cfg) as HR.
  set (l := samples times j 1 (Z.to_nat (NTIMES cfg) - 1)) in *.
  rewrite table_nth by exact Hj. unfold table_row.
  rewrite summary_avgtime, summary_maxtime, summary_mintime by exact Hj.
  fold l.
  destruct (fold_MAXd l 0%float eq_refl Hs) as (Hin & _ & Hmax).
  destruct (fold_MINd l FLT_MAX eq_refl Hs) as (_ & _ & Hmin).
  do 4 eexists. split; [reflexivity|].
  split; [reflexivity|]. split; [exact Hin|]. split; [exact Hmax|].
  assert (Hne : exists t, In t l).
  { unfold l, samples.
    destruct (Z.to_nat (NTIMES cfg) - 1)%nat eqn:E; [lia|].
    eexists. cbn [seq map]. now left. }
  destruct Hne as [t Ht].
  eapply leb_trans; [apply Hmin | apply Hmax]; exact Ht.
Qed.

Lemma summary_avg_max_witness :
  exists r avg mn mx : float,
    nth 0 (table 10 (bytes_of 4096) (summary 10 example_times)) MsgHline
    = MsgTableRow "Copy:      " r avg mn mx
    /\ avg = ((0 + 0.04 + 0.03 + 0.05 + 0.02 + 0.06 + 0.07 + 0.08 + 0.09
               + 0.035) / 9)%float
    /\ mx = 0.09%float
    /\ (mn <=? mx)%float = true.
Proof.
  destruct (summary_avg_max default_config (bytes_of 4096) example_times 0)
    as (r & avg & mn & mx & Hrow & Havg & Hmx & _ & Hle).
  - lia.
  - intros t Hin. cbn in Hin.
    repeat (destruct Hin as [<-|Hin]; [reflexivity|]). destruct Hin.
  - exists r, avg, mn, mx. split; [exact Hrow|].
    split; [exact Havg|]. split; [|exact Hle].
    vm_compute in Hrow. injection Hrow as _ _ _ <-. reflexivity.
Defined.

(** ** The times the main loop records *)

Lemma rectangular_set_time (rows cols : nat) (times : list (list float))
    (j k : nat) (v : float) :
  rectangular rows cols times -> rectangular rows cols (set_time times j k v).
Proof.
  intros [Hl Hr]. split.
  - now rewrite set_time_length.
  - intros j' Hj'. rewrite set_time_row_length. now apply Hr.
Qed.

Lemma rectangular_stamp (now : nat -> float) (rows cols : nat)
    (times : list (list float)) (j i k : nat) :
  rectangular rows cols times -> rectangular rows cols (stamp now times j i k).
Proof. intros H. unfold stamp. now do 2 apply rectangular_set_time. Qed.

Lemma rectangular_stamp_round (now : nat -> float) (rows cols : nat)
    (times : list (list float)) (i k : nat) :
  rectangular rows cols times ->
  rectangular rows cols (stamp_round now times i k).
Proof. intros H. unfold stamp_round. now do 4 apply rectangular_stamp. Qed.

Lemma rectangular_repeat (rows cols : nat) (x : float) :
  rectangular rows cols (repeat (repeat x cols) rows).
Proof.
  split; [apply repeat_length|]. intros j Hj.
  rewrite nth_repeat_lt by exact Hj. apply repeat_length.
Qed.

Lemma get_time_stamp_eq (now : nat -> float) (rows cols : nat)
    (times : list (list float)) (j i k : nat) :
  rectangular rows cols times -> (j < rows)%nat -> (i < cols)%nat ->
  get_time (stamp now times j i k) j i = (now (S k) - now k)%float.
Proof.
  intros H Hj Hi. unfold stamp.
  pose proof (rectangular_set_time rows cols times j i (now k) H) as [Hl Hr].
  destruct H as [Hl0 Hr0].
  rewrite get_time_set_time_eq by (rewrite ?Hl, ?Hr; lia).
  now rewrite get_time_set_time_eq by (rewrite ?Hl0, ?Hr0; lia).
Qed.

Lemma get_time_stamp_ne (now : nat -> float) (times : list (list float))
    (j i k j' i' : nat) :
  j <> j' \/ i <> i' ->
  get_time (stamp now times j i k) j' i' = get_time times j' i'.
Proof.
  intros H. unfold stamp. now rewrite !get_time_set_time_ne by exact H.
Qed.

(** One repetition records, for each kernel, the difference of the two
    readings made around it, and leaves the other repetitions as they
    are. *)
Lemma get_time_stamp_round_eq (now : nat -> float) (cols : nat)
    (times : list (list float)) (i k j : nat) :
  rectangular 4 cols times -> (j < 4)%nat -> (i < cols)%nat ->
  get_time (stamp_round now times i k) j i
  = (now (S (2 * j + k)) - now (2 * j + k)%nat)%float.
Proof.
  intros H Hj Hi. unfold stamp_round.
  pose proof (rectangular_stamp now 4 cols times 0 i k H) as H1.
  pose proof (rectangular_stamp now 4 cols _ 1 i (2 + k) H1) as H2.
  pose proof (rectangular_stamp now 4 cols _ 2 i (4 + k) H2) as H3.
  destruct j as [|[|[|[|j]]]]; [| | | |lia].
  - rewrite !get_time_stamp_ne by (left; lia).
    now rewrite (get_time_stamp_eq now 4 cols) by (assumption || lia).
  - rewrite !get_time_stamp_ne by (left; lia).
    now rewrite (get_time_stamp_eq now 4 cols) by (assumption || lia).
  - rewrite !get_time_stamp_ne by (left; lia).
    now rewrite (get_time_stamp_eq now 4 cols) by (assumption || lia).
  - now rewrite (get_time_stamp_eq now 4 cols) by (assumption || lia).
Qed.

Lemma get_time_stamp_round_ne (now : nat -> float) (times : list (list float))
    (i k j i' : nat) :
  i <> i' ->
  get_time (stamp_round now times i k) j i' = get_time times j i'.
Proof.
  intros H. unfold stamp_round.
  now rewrite !get_time_stamp_ne by (right; exact H).
Qed.

Lemma record_rounds_before (now : nat -> float) (count i0 k : nat)
    (times : list (list float)) (j i : nat) :
  (i < i0)%nat ->
  get_time (record_rounds now count i0 k times) j i = get_time times j i.
Proof.
  revert i0 k times. induction count as [|count IH]; intros i0 k times Hi;
    [reflexivity|].
  cbn [record_rounds]. rewrite IH by lia.
  apply get_time_stamp_round_ne. lia.
Qed.

Lemma record_rounds_entry (now : nat -> float) (cols count i0 k : nat)
    (times : list (list float)) (j i : nat) :
  rectangular 4 cols times -> (j < 4)%nat ->
  (i0 <= i < i0 + count)%nat -> (i < cols)%nat ->
  get_time (record_rounds now count i0 k times) j i
  = (now (S (k + 8 * (i - i0) + 2 * j)) - now (k + 8 * (i - i0) + 2 * j)%nat)%float.
Proof.
  revert i0 k times. induction count as [|count IH];
    intros i0 k times Hrect Hj Hi Hc; [lia|].
  cbn [record_rounds].
  destruct (decide (i = i0)) as [->|Hne].
  - rewrite record_rounds_before by lia.
    rewrite (get_time_stamp_round_eq now cols) by assumption.
    replace (k + 8 * (i0 - i0) + 2 * j)%nat with (2 * j + k)%nat by lia.
    reflexivity.
  - rewrite IH; [|now apply rectangular_stamp_round|assumption|lia|assumption].
    replace (8 + k + 8 * (i - S i0) + 2 * j)%nat
      with (k + 8 * (i - i0) + 2 * j)%nat by lia.
    reflexivity.
Qed.

(** X6.  In the main loop the time recorded for kernel [j] in repetition [i]
    is the difference of two consecutive readings of the clock, the
    readings [8 i + 2 j] and [8 i + 2 j + 1] of the loop; the loop
    makes [8 NTIMES] readings, applies the rounds of kernels to the
    arrays and prints nothing. *)
Theorem main_loop_timings
    {ST : StreamType} (cfg : config) (env : environment) (scalar : elt)
    (s : state) :
  sized (Z.to_nat (stream_array_size cfg env)) (st_mem s) ->
  exists (times : list (list float)) (m' : memory),
    rounds (NTIMES cfg) scalar (stream_array_size cfg env) (st_mem s) = Some m'
    /\ main_loop cfg env scalar s
       = Done times (moved s m' (8 * Z.to_nat (NTIMES cfg) + st_reads s) [])
    /\ forall j i : nat,
         (j < 4)%nat -> (i < Z.to_nat (NTIMES cfg))%nat ->
         get_time times j i
         = (now env (S (st_reads s + 8 * i + 2 * j))
            - now env (st_reads s + 8 * i + 2 * j)%nat)%float.
Proof.
  intros Hsized.
  destruct (sized_memory_of _ _ Hsized) as (T & Hm & Hlen).
  pose proof (rounds_loop_cells scalar (stream_array_size cfg env)
                (Z.to_nat (NTIMES cfg)) 0 T ltac:(now rewrite Hlen)) as Hr.
  rewrite <- Hm in Hr.
  eexists. eexists. split; [exact Hr|]. split.
  - unfold main_loop.
    exact (runs_rounds cfg env scalar _ _ _ _ _ _ Hr s eq_refl eq_refl).
  - intros j i Hj Hi.
    rewrite (record_rounds_entry (now env) (Z.to_nat (NTIMES cfg)))
      by (try apply rectangular_repeat; lia || assumption).
    rewrite Nat.sub_0_r. reflexivity.
Qed.

Lemma main_loop_timings_witness :
  exists (times : list (list float)) (s' : state),
    main_loop default_config env_no_argument 3%float
      (heap_state default_config env_no_argument)
    = Done times s'
    /\ st_reads s' = 80%nat
    /\ get_time times 2 1
       = (now env_no_argument 13 - now env_no_argument 12)%float.
Proof.
  destruct (@main_loop_timings stream_double default_config env_no_argument
              3%float (heap_state default_config env_no_argument))
    as (times & m' & _ & Hrun & Ht).
  - eexists _, _, _. split; [reflexivity|]. repeat split.
  - exists times. eexists. split; [exact Hrun|]. split; [reflexivity|].
    apply (Ht 2%nat 1%nat); [lia | vm_compute; lia].
Defined.

(** ** [checktick] on any clock *)

Lemma spin_reads (now : nat -> float) (t1 : float) (fuel k : nat)
    (t2 : float) (k' : nat) :
  spin fuel now t1 k = Some (t2, k') -> (k < k' <= k + fuel)%nat.
Proof.
  revert k. induction fuel as [|fuel IH]; intros k H; [discriminate|].
  cbn [spin] in H. destruct (now k - t1 <? 1.0E-6)%float.
  - apply IH in H. lia.
  - injection H as _ <-. lia.
Qed.

Lemma collect_times_reads (now : nat -> float) (count fuel k : nat)
    (timesfound : list float) (k' : nat) :
  collect_times count fuel now k = Some (timesfound, k') ->
  length timesfound = count
  /\ (k + 2 * count <= k' <= k + count * S fuel)%nat.
Proof.
  revert k timesfound k'. induction count as [|count IH];
    intros k timesfound k' H.
  - injection H as <- <-. split; [reflexivity | lia].
  - cbn [collect_times] in H.
    destruct (spin fuel now (now k) (S k)) as [[t2 k1]|] eqn:Es;
      [|discriminate].
    cbn [mbind option_bind] in H.
    destruct (collect_times count fuel now k1) as [[rest k2]|] eqn:Ec;
      [|discriminate].
    cbn [mbind option_bind] in H. injection H as <- <-.
    apply spin_reads in Es. apply IH in Ec as [Hl Hk].
    split; [cbn; lia | lia].
Qed.

Lemma fold_min_range (l : list Z) (acc : Z) :
  0 <= acc -> (forall x, In x l -> 0 <= x) ->
  0 <= fold_left Z.min l acc <= acc.
Proof.
  revert acc. induction l as [|x l IH]; intros acc Hacc Hl; cbn [fold_left];
    [lia|].
  assert (0 <= x) by (apply Hl; now left).
  destruct (IH (Z.min acc x) ltac:(lia) ltac:(intros; apply Hl; now right)).
  lia.
Qed.

Lemma min_delta_range (timesfound : list float) :
  0 <= min_delta timesfound <= 1000000.
Proof.
  unfold min_delta. change (M_samples - 1)%nat with 19%nat.
  rewrite delta_loop. apply fold_min_range; [lia|].
  intros x Hin. apply in_map_iff in Hin as (i & <- & _). lia.
Qed.

(** X9.  Whatever the clock shows (readings that go back, that jump, that
    are not numbers), a call of [checktick] that returns gives a value
    between 0 and 1000000, after at least two readings of the clock
    for each of its 20 samples. *)
Theorem checktick_range
    (now : nat -> float) (fuel k : nat) (ticks : Z) (k' : nat) :
  checktick fuel now k = Some (ticks, k') ->
  0 <= ticks <= 1000000
  /\ (k + 40 <= k' <= k + 20 * S fuel)%nat.
Proof.
  unfold checktick. intros H.
  destruct (collect_times M_samples fuel now k) as [[tf k1]|] eqn:E;
    [|discriminate].
  cbn [mbind option_bind] in H. injection H as <- <-.
  apply collect_times_reads in E as [_ Hk].
  split; [apply min_delta_range | unfold M_samples in Hk; lia].
Qed.

Lemma checktick_range_witness :
  checktick 3 example_now 0 = Some (1, 60%nat)
  /\ 0 <= 1 <= 1000000
  /\ (0 + 40 <= 60 <= 0 + 20 * 4)%nat.
Proof.
  assert (H : checktick 3 example_now 0 = Some (1, 60%nat))
    by (vm_compute; reflexivity).
  split; [exact H|].
  exact (checktick_range example_now 3 0 1 60 H).
Defined.

(** ** A clock that does not advance *)

Lemma spin_frozen (now : nat -> float) (t1 : float) (fuel k : nat) :
  (forall q : nat, (now q - t1 <? 1.0E-6)%float = true) ->
  spin fuel now t1 k = None.
Proof.
  intros H. revert k. induction fuel as [|fuel IH]; intros k; [reflexivity|].
  cbn [spin]. rewrite H. apply IH.
Qed.

Lemma checktick_frozen (now : nat -> float) (fuel k : nat) :
  (forall q : nat, (now q - now k <? 1.0E-6)%float = true) ->
  checktick fuel now k = None.
Proof.
  intros H. unfold checktick, M_samples. cbn [collect_times].
  now rewrite spin_frozen.
Qed.

(** X10.  When the clock never shows an advance of a microsecond over its
    first reading, the first busy-wait of [checktick] does not end:
    whatever number of turns is allowed, the program is still in it,
    having printed its banner and one rule and initialised the
    arrays. *)
Theorem frozen_clock_hangs
    {ST : StreamType} (cfg : config) (env : environment) :
  0 < sizeof_elt -> 0 <= buffer_size cfg env -> provisioned env ->
  (forall q : nat, (now env q - now env 0 <? 1.0E-6)%float = true) ->
  forall fuel : nat,
    exists s : state,
      run cfg env fuel = Timeout s
      /\ trace_of (run cfg env fuel)
         = provisioning_events cfg env
           ++ map EvPrint (banner cfg env ++ [MsgHline]).
Proof.
  intros Hsz Hbs Hprov Hclock fuel.
  destruct (provisioned_sized cfg env Hsz Hbs Hprov) as (Hsized & Hreads & Htr0).
  destruct (sized_memory_of _ _ Hsized) as (T & Hm & Hlen).
  pose proof (run_operation_cells (elt_of_double 3.0)
                (stream_array_size cfg env) OpInit T ltac:(now rewrite Hlen))
    as Hinit.
  cbn [run_operation] in Hinit. rewrite <- Hm in Hinit.
  rewrite (run_provisioned cfg env fuel Hprov).
  unfold after_provisioning, measure.
  set (s0 := provisioned_state cfg env) in *.
  pose proof (runs_print_all (banner cfg env) _ _ s0 eq_refl eq_refl) as H1.
  pose proof (runs_on_memory _ _ _ (st_reads s0) Hinit
                (moved s0 (st_mem s0) (st_reads s0) (banner cfg env))
                eq_refl eq_refl) as H2.
  rewrite moved_moved in H2.
  pose proof (runs_print MsgHline _ _
                (moved s0 (memory_of (init_cell <$> T)) (st_reads s0)
                   (banner cfg env ++ []))
                eq_refl eq_refl) as H3.
  rewrite moved_moved in H3.
  assert (H4 : call_checktick env fuel
                 (moved s0 (memory_of (init_cell <$> T)) (st_reads s0)
                    ((banner cfg env ++ []) ++ [MsgHline]))
               = Timeout (moved s0 (memory_of (init_cell <$> T)) (st_reads s0)
                            ((banner cfg env ++ []) ++ [MsgHline]))).
  { unfold call_checktick. cbn [moved st_reads]. rewrite Hreads.
    now rewrite checktick_frozen. }
  eexists. split.
  - apply bind_Timeout.
    rewrite (bind_Done _ _ _ _ _ H1).
    rewrite (bind_Done _ _ _ _ _ H2).
    rewrite (bind_Done _ _ _ _ _ H3).
    apply bind_Timeout. exact H4.
  - erewrite bind_Timeout.
    2:{ rewrite (bind_Done _ _ _ _ _ H1).
        rewrite (bind_Done _ _ _ _ _ H2).
        rewrite (bind_Done _ _ _ _ _ H3).
        apply bind_Timeout. exact H4. }
    unfold trace_of. cbn [result_state moved st_trace].
    fold s0. rewrite Htr0, app_nil_r.
    rewrite rev_app_distr, rev_involutive, <- map_rev, rev_involutive.
    reflexivity.
Qed.

Lemma frozen_clock_hangs_witness :
  exists s : state, run default_config env_frozen_clock 1000 = Timeout s.
Proof.
  destruct (@frozen_clock_hangs stream_double default_config env_frozen_clock)
    with (fuel := 1000%nat) as (s & Hs & _).
  - reflexivity.
  - discriminate.
  - intros i _. apply granted_region.
  - intros q. reflexivity.
  - now exists s.
Defined.

(** ** Arrays that hold a NaN *)

Lemma nan_sub (x e : float) : is_number x = false -> is_number (x - e) = false.
Proof.
  unfold is_number. rewrite sub_spec.
  destruct (Prim2SF x); try discriminate. reflexivity.
Qed.

Lemma nan_abs (x : float) :
  is_number x = false -> is_number (@abs_elt stream_double x) = false.
Proof.
  intros H. unfold abs_elt. cbn [elt_ge0 elt_neg stream_double].
  destruct (0 <=? x)%float; [exact H|].
  unfold is_number in *. rewrite opp_spec.
  destruct (Prim2SF x); try discriminate. reflexivity.
Qed.

Lemma nan_add_l (x y : float) : is_number x = false -> is_number (x + y) = false.
Proof.
  unfold is_number. rewrite add_spec.
  destruct (Prim2SF x); try discriminate. reflexivity.
Qed.

Lemma nan_add_r (x y : float) : is_number y = false -> is_number (x + y) = false.
Proof.
  unfold is_number. rewrite add_spec.
  destruct (Prim2SF y); try discriminate.
  destruct (Prim2SF x); reflexivity.
Qed.

Lemma nan_div (x y : float) : is_number x = false -> is_number (x / y) = false.
Proof.
  unfold is_number. rewrite div_spec.
  destruct (Prim2SF x); try discriminate. reflexivity.
Qed.

Lemma nan_not_above (eps x : float) :
  is_number x = false -> (eps <? x)%float = false.
Proof.
  unfold is_number. rewrite ltb_spec.
  destruct (Prim2SF x); try discriminate. intros _.
  unfold SFltb. destruct (Prim2SF eps); reflexivity.
Qed.

(** The sum of the errors of an array that holds a NaN is a NaN. *)
Lemma abs_err_sum_nan (l : list float) (e : float) :
  (exists x : float, In x l /\ is_number x = false) ->
  is_number (@abs_err_sum stream_double l e) = false.
Proof.
  unfold abs_err_sum. cbn [elt_add elt_sub elt_of_double stream_double].
  generalize 0%float as acc.
  induction l as [|y l IH]; intros acc (x & Hin & Hx); [destruct Hin|].
  cbn [fold_left].
  assert (Hstay : forall (l' : list float) (acc' : float),
             is_number acc' = false ->
             is_number
               (fold_left (fun s x0 => (s + @abs_elt stream_double (x0 - e))%float)
                  l' acc') = false).
  { induction l' as [|z l' IH']; intros acc' Hacc; [exact Hacc|].
    cbn [fold_left]. apply IH'. now apply nan_add_l. }
  destruct Hin as [->|Hin].
  - apply Hstay. apply nan_add_r, nan_abs, nan_sub, Hx.
  - apply IH. now exists x.
Qed.

Lemma nan_buffer_passes (l : list float) (e : float) (n : Z) (eps : float) :
  (exists x : float, In x l /\ is_number x = false) ->
  @buffer_fails stream_double l e n eps = false.
Proof.
  intros H. unfold buffer_fails, exceeds, avg_abs_err.
  cbn [double_of_elt elt_div stream_double].
  apply nan_not_above, nan_abs, nan_div, nan_div, abs_err_sum_nan, H.
Qed.

(** X11.  The validation cannot see a NaN: an array that holds a NaN in some
    element is never declared failed, and when each of the three
    arrays holds one the validation prints that the solution
    validates. *)
Theorem nan_passes_validation
    (R n : Z) (la lb lc : list float) :
  length la = Z.to_nat n -> length lb = Z.to_nat n -> length lc = Z.to_nat n ->
  exists out : list message,
    @checkSTREAMresults stream_double R n (double_memory la lb lc) = Some out
    /\ ((exists x, In x la /\ is_number x = false) ->
        ~ In (MsgFailed "a" 1e-13%float) out)
    /\ ((exists x, In x lb /\ is_number x = false) ->
        ~ In (MsgFailed "b" 1e-13%float) out)
    /\ ((exists x, In x lc /\ is_number x = false) ->
        ~ In (MsgFailed "c" 1e-13%float) out)
    /\ ((exists x, In x la /\ is_number x = false) ->
        (exists x, In x lb /\ is_number x = false) ->
        (exists x, In x lc /\ is_number x = false) ->
        out = [MsgValidates 1e-13%float]).
Proof.
  intros Ha Hb Hc.
  pose proof (@checkSTREAMresults_spec stream_double R n la lb lc Ha Hb Hc)
    as Hout.
  destruct (@expected_values stream_double R) as [[aj bj] cj].
  cbv beta zeta in Hout. change (epsilon_of (@sizeof_elt stream_double))
    with 1e-13%float in Hout.
  change (epsilon_messages (@sizeof_elt stream_double)) with (@nil message)
    in Hout.
  eexists. split; [exact Hout|].
  pose proof (nan_buffer_passes la aj n 1e-13%float) as Na.
  pose proof (nan_buffer_passes lb bj n 1e-13%float) as Nb.
  pose proof (nan_buffer_passes lc cj n 1e-13%float) as Nc.
  destruct (@buffer_fails stream_double la aj n 1e-13%float),
    (@buffer_fails stream_double lb bj n 1e-13%float),
    (@buffer_fails stream_double lc cj n 1e-13%float);
    cbn [app orb];
    (split; [intros H Hin;
             first [now apply Na in H | cbn [In] in Hin; intuition congruence]|]);
    (split; [intros H Hin;
             first [now apply Nb in H | cbn [In] in Hin; intuition congruence]|]);
    (split; [intros H Hin;
             first [now apply Nc in H | cbn [In] in Hin; intuition congruence]|]);
    intros H1 H2 H3;
    first [now apply Na in H1 | now apply Nb in H2 | now apply Nc in H3
          | reflexivity].
Qed.

Lemma nan_passes_validation_witness :
  @checkSTREAMresults stream_double 10 2
    (double_memory [nan; 7]%float [5; nan]%float [nan; nan]%float)
  = Some [MsgValidates 1e-13%float].
Proof.
  destruct (nan_passes_validation 10 2 [nan; 7]%float [5; nan]%float
              [nan; nan]%float eq_refl eq_refl eq_refl)
    as (out & Hout & _ & _ & _ & Hall).
  rewrite Hout. f_equal. apply Hall.
  - exists nan. split; [now left | reflexivity].
  - exists nan. split; [right; now left | reflexivity].
  - exists nan. split; [now left | reflexivity].
Defined.

(** ** The sizes *)

(** X15.  The number of elements the loops run over is the number of whole
    elements a buffer holds: the loops stay inside the buffers, and
    less than one element of each buffer is left unused. *)
Theorem element_count_fits
    {ST : StreamType} (cfg : config) (env : environment) :
  0 < sizeof_elt -> 0 <= buffer_size cfg env ->
  0 <= stream_array_size cfg env
  /\ stream_array_size cfg env * sizeof_elt <= buffer_size cfg env
  /\ buffer_size cfg env < (stream_array_size cfg env + 1) * sizeof_elt.
Proof.
  intros Hsz Hbs.
  destruct (array_size_elements cfg env Hsz Hbs) as [-> _].
  pose proof (Z.div_pos (buffer_size cfg env) sizeof_elt Hbs Hsz).
  pose proof (Z.mul_div_le (buffer_size cfg env) sizeof_elt Hsz).
  pose proof (Z.mul_succ_div_gt (buffer_size cfg env) sizeof_elt Hsz).
  lia.
Qed.

Lemma element_count_fits_witness :
  buffer_size default_config env_device = 8192
  /\ stream_array_size default_config env_device = 1024
  /\ 0 <= 1024 /\ 1024 * 8 <= 8192 /\ 8192 < (1024 + 1) * 8.
Proof.
  split; [reflexivity|]. split; [reflexivity|].
  exact (@element_count_fits stream_double default_config env_device
           eq_refl ltac:(discriminate)).
Defined.

(** X14.  When the size of an element divides the page size, the number of
    elements of a buffer is a multiple of the number of elements of a
    page, whatever the arguments: a multiple of 512 for doubles, of 1024
    for floats. *)
Theorem element_count_page_multiple
    {ST : StreamType} (cfg : config) (env : environment) :
  0 < sizeof_elt -> (sizeof_elt | 4096) ->
  (4096 / sizeof_elt | stream_array_size cfg env).
Proof.
  intros Hsz [d Hd].
  assert (Ed : 4096 / sizeof_elt = d)
    by (rewrite Hd; apply Z.div_mul; lia).
  rewrite Ed.
  pose proof (buffer_size_mod_page cfg env) as Hb.
  rewrite <- usize_mod_page in Hb.
  apply Z.mod_divide in Hb; [|lia]. destruct Hb as [u Hu].
  unfold stream_array_size. rewrite Hu.
  replace (u * 4096) with ((u * d) * sizeof_elt) by (rewrite Hd; ring).
  rewrite Z.div_mul by lia.
  unfold ssize, wrap_signed.
  rewrite (Z.mod_eq (u * d + 2 ^ (64 - 1)) (2 ^ 64)) by lia.
  set (t := (u * d + 2 ^ (64 - 1)) / 2 ^ 64).
  exists (u - 2 ^ 52 * sizeof_elt * t).
  change (2 ^ 64) with (2 ^ 52 * 4096). rewrite Hd. ring.
Qed.

Lemma element_count_page_multiple_witness :
  (512 | stream_array_size default_config env_device).
Proof.
  exact (@element_count_page_multiple stream_double default_config env_device
           eq_refl (ex_intro _ 512 eq_refl)).
Defined.

(** X16.  When the size argument is absent, or is not a positive number (as
    for a text [atoll] reads as 0), the size of a buffer is the
    default one, [(STREAM_ARRAY_SIZE+OFFSET)*sizeof(STREAM_TYPE)] as C
    computes it (the sum in [int] when both constants are [int]s),
    rounded up to a page; the arrays then hold at least as many
    elements as the value of [STREAM_ARRAY_SIZE+OFFSET], when that value
    is not negative and the default size leaves room for the
    rounding. *)
Theorem nonpositive_size_gives_default
    {ST : StreamType} (cfg : config) (env : environment) :
  argc env <= 1 \/ ssize (env_atoll env (argv env 1)) <= 0 ->
  buffer_size cfg env = round_up_page (default_buffer_size cfg)
  /\ (0 < sizeof_elt ->
      0 <= array_size_plus_offset cfg ->
      array_size_plus_offset cfg * sizeof_elt + 4095 <= SSIZE_MAX ->
      array_size_plus_offset cfg <= stream_array_size cfg env).
Proof.
  intros H.
  assert (E : buffer_size cfg env = round_up_page (default_buffer_size cfg)).
  { unfold buffer_size, requested_size.
    destruct (Z.ltb_spec 1 (argc env)) as [Hargc|Hargc]; [|reflexivity].
    destruct (Z.leb_spec (ssize (env_atoll env (argv env 1))) 0); [reflexivity|].
    lia. }
  split; [exact E|]. intros Hsz Hpos Hmax.
  unfold SSIZE_MAX in Hmax.
  assert (Hd : default_buffer_size cfg
               = array_size_plus_offset cfg * sizeof_elt).
  { unfold default_buffer_size. apply ssize_id.
    unfold in_ssize, SSIZE_MIN, SSIZE_MAX. nia. }
  pose proof (round_up_page_spec (default_buffer_size cfg)) as Hr.
  unfold next_page_multiple, SSIZE_MIN, SSIZE_MAX in Hr.
  rewrite <- E in Hr. rewrite Hd in Hr.
  destruct Hr as [_ [Hle _]]; [nia|].
  destruct (array_size_elements cfg env Hsz ltac:(nia)) as [-> _].
  apply Z.div_le_lower_bound; [exact Hsz | lia].
Qed.

Lemma nonpositive_size_gives_default_witness :
  buffer_size default_config
    (example_env ["./stream"; "abc"]%string 3 refused granted) = 4096
  /\ 10 <= stream_array_size default_config
             (example_env ["./stream"; "abc"]%string 3 refused granted).
Proof.
  destruct (@nonpositive_size_gives_default stream_double default_config
              (example_env ["./stream"; "abc"]%string 3 refused granted))
    as [Hb Hn].
  - right. discriminate.
  - split; [exact Hb|].
    apply Hn; [reflexivity | discriminate | discriminate].
Defined.

(** ** The usage lines *)

(** X17.  Every run, whatever its arguments, begins by printing the usage
    lines, with [argv[0]] and the default size. *)
Theorem usage_printed_first
    {ST : StreamType} (cfg : config) (env : environment) (fuel : nat) :
  exists rest : list event,
    trace_of (run cfg env fuel)
    = EvPrint (MsgUsage (argv env 0) (default_buffer_size cfg)) :: rest.
Proof.
  destruct (Z.ltb_spec 2 (argc env)) as [Hargc|Hargc];
    [destruct (Z.ltb_spec (env_open env (argv env 2)) 0) as [Hfd|Hfd]|].
  - rewrite (run_not_opened cfg env fuel Hargc Hfd). eexists. reflexivity.
  - destruct (run_trace_shape cfg env fuel ltac:(auto))
      as (msgs & tail & -> & _).
    unfold provisioning_events. apply Z.ltb_lt in Hargc. rewrite Hargc.
    eexists. reflexivity.
  - destruct (run_trace_shape cfg env fuel ltac:(lia))
      as (msgs & tail & -> & _).
    unfold provisioning_events.
    destruct (Z.ltb_spec 2 (argc env)); [lia|].
    eexists. reflexivity.
Qed.

(** ** The kernels *)

Lemma for_loop_invariant {St : Type} (P : St -> Prop)
    (body : nat -> St -> option St) (count j : nat) (s s' : St) :
  (forall (i : nat) (t t' : St), body i t = Some t' -> P t -> P t') ->
  for_loop count j body s = Some s' -> P s -> P s'.
Proof.
  intros Hb. revert j s. induction count as [|count IH]; intros j s H Hs.
  - injection H as <-. exact Hs.
  - cbn [for_loop] in H. destruct (body j s) as [s1|] eqn:E; [|discriminate].
    eapply IH; [exact H|]. eapply Hb; eauto.
Qed.

(** One turn of a kernel keeps what is known of the arrays it does not
    write. *)
Ltac frame_body :=
  let i := fresh "i" in let t := fresh "t" in let t' := fresh "t'" in
  let H := fresh "H" in
  intros i t t' H [? ?];
  unfold Copy_body, Scale_body, Add_body, Triad_body in H;
  repeat match type of H with
         | context [load ?p ?j] =>
             destruct (load p j); cbn [mbind option_bind] in H
         | context [store ?p ?j ?v] =>
             destruct (store p j v); cbn [mbind option_bind] in H
         end;
  try discriminate H; injection H as <-; cbn [mem_a mem_b mem_c];
  split; assumption.

(** X18.  Each kernel writes one array and leaves the two others as they
    are: Copy and Add write [c], Scale writes [b], Triad writes [a].
    This holds for every count of elements and every content of the
    arrays, whenever the kernel ends. *)
Theorem kernels_write_one_array
    {ST : StreamType} (scalar : elt) (n : Z) (k : kernel) (m m' : memory) :
  run_kernel scalar n k m = Some m' ->
  match k with
  | Copy | Add => mem_a m' = mem_a m /\ mem_b m' = mem_b m
  | Scale => mem_a m' = mem_a m /\ mem_c m' = mem_c m
  | Triad => mem_b m' = mem_b m /\ mem_c m' = mem_c m
  end.
Proof.
  destruct k; cbn [run_kernel];
    unfold STREAM_Copy, STREAM_Scale, STREAM_Add, STREAM_Triad, for_ssize;
    intros H.
  - apply (for_loop_invariant
             (fun t => mem_a t = mem_a m /\ mem_b t = mem_b m) _ _ _ _ _)
      in H; [exact H | | split; reflexivity].
    clear. frame_body.
  - apply (for_loop_invariant
             (fun t => mem_a t = mem_a m /\ mem_c t = mem_c m) _ _ _ _ _)
      in H; [exact H | | split; reflexivity].
    clear. frame_body.
  - apply (for_loop_invariant
             (fun t => mem_a t = mem_a m /\ mem_b t = mem_b m) _ _ _ _ _)
      in H; [exact H | | split; reflexivity].
    clear. frame_body.
  - apply (for_loop_invariant
             (fun t => mem_b t = mem_b m /\ mem_c t = mem_c m) _ _ _ _ _)
      in H; [exact H | | split; reflexivity].
    clear. frame_body.
Qed.

Lemma kernels_write_one_array_witness :
  exists m' : @memory stream_double,
    @run_kernel stream_double 3%float 2 Triad
      (double_memory [1; 2]%float [3; 4]%float [5; 6]%float) = Some m'
    /\ mem_b m' = doubles [3; 4]%float
    /\ mem_c m' = doubles [5; 6]%float.
Proof.
  pose proof (@run_operation_cells stream_double 3%float 2 (OpKernel Triad)
                [(1, 3, 5); (2, 4, 6)]%float eq_refl) as H.
  eexists. split; [exact H|].
  exact (@kernels_write_one_array stream_double _ _ _ _ _ H).
Defined.

(** ** The values of the replay *)

(** X19.  With doubles and up to 13 repetitions the values of the replay,
    hence the contents of the arrays after the main loop, are exact:
    [a = 2 * 15^R], [b = 6 * 15^(R-1)] and [c = 8 * 15^(R-1)]. *)
Theorem expected_values_exact (R : Z) :
  1 <= R <= 13 ->
  @expected_values stream_double R
  = (double_of_Z (2 * 15 ^ R), double_of_Z (6 * 15 ^ (R - 1)),
     double_of_Z (8 * 15 ^ (R - 1))).
Proof.
  intros HR.
  assert (H : R = 1 \/ R = 2 \/ R = 3 \/ R = 4 \/ R = 5 \/ R = 6 \/ R = 7
              \/ R = 8 \/ R = 9 \/ R = 10 \/ R = 11 \/ R = 12 \/ R = 13) by lia.
  repeat (destruct H as [->|H]; [vm_compute; reflexivity|]).
  subst R. vm_compute. reflexivity.
Qed.

Lemma expected_values_exact_witness :
  @expected_values stream_double 10
  = (1153300781250, 230660156250, 307546875000)%float.
Proof. exact (expected_values_exact 10 ltac:(lia)). Defined.
